(** * Panokeet: the recording / transcription controller, in Rocq

    A shallow embedding of the Python sources

      - [transcriber.py]     (module [Transcriber])
      - [recorder.py]        (module [Recorder])
      - [popup.py]           (module [Popup])
      - [app.py]             (module [App])
      - [panokeet_final.py]  (module [PanokeetFinal])
      - [panokeet.py]        (module [Panokeet])
      - [panokeet_v3.py]     (module [PanokeetV3])
      - [backend/server.py]  (module [Server])

    followed by the properties of the specification, stated on these
    definitions.  Python values are modelled as the code has them: [str] is a
    sequence of Unicode code points, integers are [Z], a function that may
    raise returns an [outcome], and methods that mutate [self] or the
    operating system are computations in a state monad over a [world]. *)

From Stdlib Require Import String Ascii.
From Stdlib Require Import ZArith NArith List Bool Lia QArith.
From Stdlib Require Decimal DecimalN.
Import ListNotations.
Close Scope Q_scope.

(* ================================================================== *)
(** * Python built-ins used by the sources *)
(* ================================================================== *)

Module Py.

(** A character is a Unicode code point, a [str] a sequence of them. *)
Abbreviation char := N (only parsing).
Abbreviation str := (list N) (only parsing).

(** String literals of the sources (all of them are ASCII). *)
Definition lit (x : String.string) : str :=
  map N_of_ascii (String.list_ascii_of_string x).
Arguments lit x%_string.

Definition char_eqb (a b : char) : bool := N.eqb a b.

Fixpoint str_eqb (a b : str) : bool :=
  match a, b with
  | [], [] => true
  | x :: a', y :: b' => char_eqb x y && str_eqb a' b'
  | _, _ => false
  end.

(** [bool(s)] for a string: the empty string is falsy. *)
Definition truthy (s : str) : bool :=
  match s with [] => false | _ => true end.

(** [str.isspace] on one code point: the characters [str.strip()] removes.
    9-13 are TAB, LF, VT, FF, CR; 28-31 the separators FS, GS, RS, US;
    133 is NEL, 160 NBSP, the others the Unicode space separators. *)
Definition isspace (c : char) : bool :=
  ((9 <=? c) && (c <=? 13) || (28 <=? c) && (c <=? 32)
   || (c =? 133) || (c =? 160) || (c =? 5760)
   || (8192 <=? c) && (c <=? 8202)
   || (c =? 8232) || (c =? 8233) || (c =? 8239) || (c =? 8287)
   || (c =? 12288))%N.

Fixpoint lstrip (s : str) : str :=
  match s with
  | [] => []
  | c :: t => if isspace c then lstrip t else s
  end.

Definition rstrip (s : str) : str := rev (lstrip (rev s)).

(** [s.strip()]: whitespace removed at both ends. *)
Definition strip (s : str) : str := rstrip (lstrip s).

(** [s.split(sep)] for a one-character separator; the result is never empty
    ([''.split('\n')] is [['']]). *)
Fixpoint split (sep : char) (s : str) : list str :=
  match s with
  | [] => [[]]
  | c :: t =>
      if char_eqb c sep then [] :: split sep t
      else match split sep t with
           | h :: r => (c :: h) :: r
           | [] => [[c]]
           end
  end.

(** [sep.join(l)]. *)
Fixpoint join (sep : str) (l : list str) : str :=
  match l with
  | [] => []
  | x :: r => match r with
              | [] => x
              | _ :: _ => x ++ sep ++ join sep r
              end
  end.

Fixpoint startswith (p s : str) : bool :=
  match p, s with
  | [], _ => true
  | x :: p', y :: s' => char_eqb x y && startswith p' s'
  | _ :: _, [] => false
  end.

Definition endswith (p s : str) : bool := startswith (rev p) (rev s).

(** [s.rfind(c)]: the index of the last occurrence of [c], if any. *)
Fixpoint rfind (c : char) (s : str) : option nat :=
  match s with
  | [] => None
  | x :: t =>
      match rfind c t with
      | Some i => Some (S i)
      | None => if char_eqb x c then Some 0%nat else None
      end
  end.

(** Exceptions of the sources and of the libraries they call. *)
Inductive exn : Type :=
| FileNotFoundError
| TimeoutExpired
| PortAudioError
| ValueError
| IndexError
| OSError.

(** The result of a call: it returns, it raises, or it never comes back. *)
Inductive outcome (A : Type) : Type :=
| Returns (a : A)
| Raises (e : exn)
| Hangs.

Arguments Returns {A} a.
Arguments Raises {A} e.
Arguments Hangs {A}.

(** ** Decimal numerals: [int(s)] and the format [{n:06d}] *)

Definition digit_char (d : N) : char := (48 + d)%N.

Fixpoint uint_chars (d : Decimal.uint) : str :=
  match d with
  | Decimal.Nil => []
  | Decimal.D0 r => digit_char 0 :: uint_chars r
  | Decimal.D1 r => digit_char 1 :: uint_chars r
  | Decimal.D2 r => digit_char 2 :: uint_chars r
  | Decimal.D3 r => digit_char 3 :: uint_chars r
  | Decimal.D4 r => digit_char 4 :: uint_chars r
  | Decimal.D5 r => digit_char 5 :: uint_chars r
  | Decimal.D6 r => digit_char 6 :: uint_chars r
  | Decimal.D7 r => digit_char 7 :: uint_chars r
  | Decimal.D8 r => digit_char 8 :: uint_chars r
  | Decimal.D9 r => digit_char 9 :: uint_chars r
  end.

Definition digit_cons (c : char) : option (Decimal.uint -> Decimal.uint) :=
  match (c - 48)%N with
  | 0%N => if (48 <=? c)%N then Some Decimal.D0 else None
  | 1%N => Some Decimal.D1
  | 2%N => Some Decimal.D2
  | 3%N => Some Decimal.D3
  | 4%N => Some Decimal.D4
  | 5%N => Some Decimal.D5
  | 6%N => Some Decimal.D6
  | 7%N => Some Decimal.D7
  | 8%N => Some Decimal.D8
  | 9%N => Some Decimal.D9
  | _ => None
  end.

Fixpoint parse_uint (s : str) : option Decimal.uint :=
  match s with
  | [] => Some Decimal.Nil
  | c :: t =>
      match digit_cons c, parse_uint t with
      | Some k, Some r => Some (k r)
      | _, _ => None
      end
  end.

(** A non-empty run of ASCII digits, read in base ten. *)
Definition parse_digits (s : str) : option N :=
  match s with
  | [] => None
  | _ :: _ => option_map N.of_uint (parse_uint s)
  end.

(** [s.isdigit()], on ASCII digits. *)
Definition isdigit (s : str) : bool :=
  match parse_digits s with Some _ => true | None => false end.

(** [int(s)]: surrounding whitespace is ignored, one sign is allowed, then
    decimal digits; anything else raises [ValueError].  (Digit grouping with
    underscores and non-ASCII digits are not modelled: the callers pass a
    component of [split('_')], and the names they write hold ASCII digits.) *)
Definition int (s : str) : outcome Z :=
  let body := strip s in
  let signed :=
    match body with
    | c :: t =>
        if char_eqb c 45%N then option_map (fun n => Z.opp (Z.of_N n)) (parse_digits t)
        else if char_eqb c 43%N then option_map Z.of_N (parse_digits t)
        else option_map Z.of_N (parse_digits body)
    | [] => None
    end in
  match signed with
  | Some z => Returns z
  | None => Raises ValueError
  end.

(** [str(n)] for a natural number. *)
Definition str_of_N (n : N) : str := uint_chars (N.to_uint n).

Definition zfill (width : nat) (digits : str) : str :=
  repeat (digit_char 0) (width - length digits) ++ digits.

(** [f"{n:06d}"]: sign-aware zero padding to at least six characters. *)
Definition format_06d (n : Z) : str :=
  if (n <? 0)%Z then 45%N :: zfill 5 (str_of_N (Z.to_N (- n)))
  else zfill 6 (str_of_N (Z.to_N n)).

(** Characters of a formatted number: ASCII digits, or the minus sign. *)
Definition numeral_char (c : char) : bool :=
  ((48 <=? c) && (c <=? 57) || (c =? 45))%N.

(** [max(l)] of a non-empty list, [max(l, default=d)] of any list. *)
Definition max_default (d : Z) (l : list Z) : Z :=
  match l with
  | [] => d
  | x :: r => fold_left Z.max r x
  end.

Definition max (l : list Z) : outcome Z :=
  match l with
  | [] => Raises ValueError
  | x :: r => Returns (fold_left Z.max r x)
  end.

End Py.

Import Py.

(* ================================================================== *)
(** * Computations that raise and mutate *)
(* ================================================================== *)

(** A method body: it reads and updates a state [S] and ends like any call.
    The state is kept when a call raises, as attribute assignments made
    before a [raise] are in Python. *)
Definition M (S A : Type) : Type := S -> outcome A * S.

Definition ret {S A} (a : A) : M S A := fun s => (Returns a, s).

Definition bind {S A B} (m : M S A) (f : A -> M S B) : M S B :=
  fun s =>
    match m s with
    | (Returns a, s') => f a s'
    | (Raises e, s') => (Raises e, s')
    | (Hangs, s') => (Hangs, s')
    end.

Definition get {S} : M S S := fun s => (Returns s, s).
Definition modify {S} (f : S -> S) : M S unit := fun s => (Returns tt, f s).
Definition raise {S A} (e : exn) : M S A := fun s => (Raises e, s).
Definition call {S A} (o : outcome A) : M S A := fun s => (o, s).

(** Running a method on a part [T] of the state [S]. *)
Definition zoom {S T A} (proj : S -> T) (upd : T -> S -> S) (m : M T A) : M S A :=
  fun s => let (r, t) := m (proj s) in (r, upd t s).

(** What is left of the state once an event handler, a timer callback or a
    thread body has ended, whichever way it ended. *)
Definition after {S A} (m : M S A) (s : S) : S := snd (m s).

Declare Scope monad_scope.
Delimit Scope monad_scope with monad.
Notation "x <- m ;; k" := (bind m (fun x => k))
  (at level 61, m at next level, right associativity) : monad_scope.
Notation "m ;; k" := (bind m (fun _ => k))
  (at level 61, right associativity) : monad_scope.
Open Scope monad_scope.

(* ================================================================== *)
(** * [subprocess.run] *)
(* ================================================================== *)

Module Subprocess.

Record CompletedProcess : Type := mkCompleted {
  returncode : Z;
  stdout : str;
  stderr : str
}.

(** What the launched command does: whether [argv[0]] exists at all, after
    how many seconds it exits ([None]: it never does), and with what. *)
Record process : Type := mkProcess {
  found : bool;
  seconds : option Q;
  completed : CompletedProcess
}.

(** [subprocess.run(argv, capture_output=True, text=True, timeout=t)].
    Without a timeout the call waits for the child however long it takes. *)
Definition run (timeout : option Q) (p : process) : outcome CompletedProcess :=
  if negb (found p) then Raises FileNotFoundError
  else
    match seconds p, timeout with
    | Some d, Some t =>
        if Qle_bool d t then Returns (completed p) else Raises TimeoutExpired
    | Some _, None => Returns (completed p)
    | None, Some _ => Raises TimeoutExpired
    | None, None => Hangs
    end.

End Subprocess.

(* ================================================================== *)
(** * transcriber.py *)
(* ================================================================== *)

Module Transcriber.

Definition newline : char := 10%N.

(** Lines 41-43, the clean-up of the engine's standard output:
    [text = stdout.strip()],
    [lines = [line.strip() for line in text.split('\n') if line.strip()]],
    [' '.join(lines)]. *)
Definition clean (stdout : str) : str :=
  let text := strip stdout in
  let lines :=
    map strip (filter (fun line => truthy (strip line)) (split newline text)) in
  join (lit " ") lines.

(** [transcribe(audio_path)].  [model_exists] is [MODEL_PATH.exists()]; the
    command line is [nice -n 10 whisper-cli ...], so [engine] describes what
    [nice] does: a missing [whisper-cli] shows as a non-zero return code.
    No [timeout] is passed to [subprocess.run]. *)
Definition transcribe (model_exists : bool) (engine : Subprocess.process)
  : outcome str :=
  if negb model_exists then Raises FileNotFoundError
  else
    match Subprocess.run None engine with
    | Returns result =>
        if negb (Subprocess.returncode result =? 0)%Z then Returns (lit "")
        else Returns (clean (Subprocess.stdout result))
    | Raises e => Raises e
    | Hangs => Hangs
    end.

End Transcriber.

(* ================================================================== *)
(** * The host: sound devices, temporary files, the training-data folder *)
(* ================================================================== *)

Module Host.

(** One record of [manifest.json]. *)
Record entry : Type := mkEntry {
  entry_id : Z;
  entry_duration : Q;
  entry_was_edited : bool;
  entry_audio : str;
  entry_text : str
}.

Record t : Type := mkHost {
  device : bool;            (* an audio input device can be opened *)
  live : list nat;          (* input streams started and not yet closed *)
  next_stream : nat;
  tmp_files : list nat;     (* temporary WAV files that exist *)
  next_tmp : nat;
  disk_ok : bool;           (* DATA_DIR can be written *)
  data_dir : list str;      (* names of the files in DATA_DIR *)
  manifest : option (list entry)   (* content of manifest.json, if present *)
}.

Definition set_live (l : list nat) (h : t) : t :=
  mkHost (device h) l (next_stream h) (tmp_files h) (next_tmp h)
         (disk_ok h) (data_dir h) (manifest h).

Definition set_device (b : bool) (h : t) : t :=
  mkHost b (live h) (next_stream h) (tmp_files h) (next_tmp h)
         (disk_ok h) (data_dir h) (manifest h).

Definition set_disk_ok (b : bool) (h : t) : t :=
  mkHost (device h) (live h) (next_stream h) (tmp_files h) (next_tmp h)
         b (data_dir h) (manifest h).

Definition set_tmp_files (l : list nat) (h : t) : t :=
  mkHost (device h) (live h) (next_stream h) l (next_tmp h)
         (disk_ok h) (data_dir h) (manifest h).

Definition set_data_dir (d : list str) (h : t) : t :=
  mkHost (device h) (live h) (next_stream h) (tmp_files h) (next_tmp h)
         (disk_ok h) d (manifest h).

Definition set_manifest (m : option (list entry)) (h : t) : t :=
  mkHost (device h) (live h) (next_stream h) (tmp_files h) (next_tmp h)
         (disk_ok h) (data_dir h) m.

(** [sd.InputStream(...)] followed by [stream.start()]: a new live stream,
    or [PortAudioError] when no input device can be opened. *)
Definition open_stream : M t nat :=
  fun h =>
    if device h then
      (Returns (next_stream h),
       mkHost (device h) (next_stream h :: live h) (S (next_stream h))
              (tmp_files h) (next_tmp h) (disk_ok h) (data_dir h) (manifest h))
    else (Raises PortAudioError, h).

(** [stream.stop(); stream.close()]. *)
Definition close_stream (id : nat) : M t unit :=
  modify (fun h => set_live (filter (fun x => negb (Nat.eqb x id)) (live h)) h).

(** [tempfile.NamedTemporaryFile(suffix=".wav", delete=False)] and the
    [wave] writes into it. *)
Definition new_tmp : M t nat :=
  fun h =>
    (Returns (next_tmp h),
     mkHost (device h) (live h) (next_stream h) (next_tmp h :: tmp_files h)
            (S (next_tmp h)) (disk_ok h) (data_dir h) (manifest h)).

Definition remove_tmp (p : nat) (h : t) : t :=
  set_tmp_files (filter (fun x => negb (Nat.eqb x p)) (tmp_files h)) h.

(** [os.unlink(path)] of a temporary file. *)
Definition unlink (p : nat) : M t unit :=
  fun h =>
    if existsb (Nat.eqb p) (tmp_files h) then (Returns tt, remove_tmp p h)
    else (Raises FileNotFoundError, h).

(** Creating or overwriting a file of DATA_DIR. *)
Definition add_name (name : str) (d : list str) : list str :=
  if existsb (str_eqb name) d then d else d ++ [name].

Definition write_file (name : str) : M t unit :=
  fun h =>
    if disk_ok h then (Returns tt, set_data_dir (add_name name (data_dir h)) h)
    else (Raises OSError, h).

(** [shutil.move(tmp, DATA_DIR / name)]. *)
Definition move (p : nat) (name : str) : M t unit :=
  fun h =>
    if negb (existsb (Nat.eqb p) (tmp_files h)) then (Raises FileNotFoundError, h)
    else if disk_ok h then
      (Returns tt, set_data_dir (add_name name (data_dir h)) (remove_tmp p h))
    else (Raises OSError, h).

End Host.

(* ================================================================== *)
(** * recorder.py *)
(* ================================================================== *)

Module Recorder.

Definition SAMPLE_RATE : positive := 16000.

(** A block handed over by the audio callback ([indata]): its samples.  The
    sample values (float32 in the source) are never inspected by the
    controller; they are kept as integers. *)
Definition block := list Z.

Record t : Type := mkRecorder {
  recording : bool;
  audio_data : list block;
  stream : option nat
}.

Definition state : Type := (t * Host.t)%type.

Definition self_ : M state t := fun s => (Returns (fst s), s).
Definition set_self (f : t -> t) : M state unit :=
  modify (fun s => (f (fst s), snd s)).
Definition host {A} (m : M Host.t A) : M state A :=
  zoom (fun s : state => snd s) (fun h s => (fst s, h)) m.

(** [__init__]. *)
Definition init : t := mkRecorder false [] None.

(** [start()]. *)
Definition start : M state unit :=
  set_self (fun r => mkRecorder (recording r) [] (stream r)) ;;
  set_self (fun r => mkRecorder true (audio_data r) (stream r)) ;;
  id <- host Host.open_stream ;;
  set_self (fun r => mkRecorder (recording r) (audio_data r) (Some id)).

(** [_callback(indata, ...)], run by the audio backend.  The level meter
    ([current_level], [on_level_change]) only feeds the display. *)
Definition _callback (indata : block) : M state unit :=
  r <- self_ ;;
  if recording r then
    set_self (fun r => mkRecorder (recording r) (audio_data r ++ [indata]) (stream r))
  else ret tt.

(** [len(audio) / SAMPLE_RATE]. *)
Definition duration_of (data : list block) : Q :=
  Qmake (Z.of_nat (length (concat data))) SAMPLE_RATE.

(** [stop()]: [(audio_path, duration)] or [None]. *)
Definition stop : M state (option (nat * Q)) :=
  set_self (fun r => mkRecorder false (audio_data r) (stream r)) ;;
  r <- self_ ;;
  match stream r with
  | Some id =>
      host (Host.close_stream id) ;;
      set_self (fun r => mkRecorder (recording r) (audio_data r) None)
  | None => ret tt
  end ;;
  r <- self_ ;;
  match audio_data r with
  | [] => ret None
  | _ :: _ =>
      let duration := duration_of (audio_data r) in
      temp_file <- host Host.new_tmp ;;
      ret (Some (temp_file, duration))
  end.

End Recorder.

(* ================================================================== *)
(** * popup.py *)
(* ================================================================== *)

Module Popup.

(** The dictionary [show] returns.  [needs_review] is [None] when the key is
    absent, as in the dictionary [onCancel_] builds. *)
Record result : Type := mkResult {
  action : str;
  text : str;
  was_edited : bool;
  needs_review : option bool
}.

Record t : Type := mkPopup {
  original_text : str;
  result_ : result;
  text_view : str;     (* text_view.string() *)
  modal : bool         (* the modal session is running *)
}.

(** What the user does while the window is up. *)
Inductive event : Type :=
| KeyDown (keyCode : Z) (modifierFlags : Z) (typed : str)
    (* a key in the text view; [typed] is what the view holds once
       [NSTextView] has handled a key the popup does not take *)
| ClickDone
| Edit (content : str).   (* paste, cut, drag: any other change of the text *)

Definition _get_text (p : t) : str := text_view p.

(** [self._get_text() != self.original_text]. *)
Definition _was_edited (p : t) : bool :=
  negb (str_eqb (_get_text p) (original_text p)).

(** [_close()]: [NSApp.stopModal()]. *)
Definition _close (p : t) : t :=
  mkPopup (original_text p) (result_ p) (text_view p) false.

Definition onDone_ (p : t) : t :=
  let text := _get_text p in
  let was_edited := _was_edited p in
  _close (mkPopup (original_text p)
                  (mkResult (lit "done") text was_edited (Some (negb was_edited)))
                  (text_view p) (modal p)).

Definition onCancel_ (p : t) : t :=
  _close (mkPopup (original_text p)
                  (mkResult (lit "cancel") (original_text p) false None)
                  (text_view p) (modal p)).

Definition shift_flag : Z := Z.shiftl 1 17.

(** [TranscriptTextView.keyDown_]. *)
Definition keyDown_ (keyCode modifierFlags : Z) (typed : str) (p : t) : t :=
  if (keyCode =? 36)%Z && (Z.land modifierFlags shift_flag =? 0)%Z
  then onDone_ p
  else if (keyCode =? 53)%Z then onCancel_ p
  else mkPopup (original_text p) (result_ p) typed (modal p).

Definition handle (p : t) (e : event) : t :=
  match e with
  | KeyDown k f typed => keyDown_ k f typed p
  | ClickDone => onDone_ p
  | Edit content => mkPopup (original_text p) (result_ p) content (modal p)
  end.

(** The events that reach [onDone_]: Enter without Shift in the text view,
    and the Done button. *)
Definition confirms (e : event) : bool :=
  match e with
  | KeyDown k f _ => (k =? 36)%Z && (Z.land f shift_flag =? 0)%Z
  | ClickDone => true
  | Edit _ => false
  end.

(** [NSApp.runModalForWindow_]: events are handled until [stopModal]. *)
Fixpoint runModal (p : t) (events : list event) : t :=
  match events with
  | [] => p
  | e :: rest => if modal p then runModal (handle p e) rest else p
  end.

(** [show(transcription, duration)], for the events the user produces. *)
Definition show (transcription : str) (events : list event) : result :=
  let p :=
    mkPopup transcription
            (mkResult (lit "cancel") transcription false (Some false))
            transcription true in
  result_ (runModal p events).

(** The dictionary held by a popup is one of the two shapes the handlers
    and [show] build. *)
Definition result_ok (transcription : str) (r : result) : Prop :=
  (action r = lit "cancel" /\ text r = transcription
   /\ was_edited r = false)
  \/ (action r = lit "done"
      /\ was_edited r = negb (str_eqb (text r) transcription)).

(** [show_transcription_popup]. *)
Definition show_transcription_popup (transcription : str) (events : list event)
  : result := show transcription events.

End Popup.

(* ================================================================== *)
(** * File names of the training-data folder *)
(* ================================================================== *)

Module DataDir.

(** [fnmatch(name, "audio_*.wav")]. *)
Definition matches (name : str) : bool :=
  startswith (lit "audio_") name && endswith (lit ".wav") name
  && (10 <=? length name)%nat.

(** [list(DATA_DIR.glob("audio_*.wav"))], in the order the folder is listed. *)
Definition glob (d : list str) : list str := filter matches d.

(** [Path.stem]: the name without its last suffix. *)
Definition stem (name : str) : str :=
  match rfind 46%N name with
  | Some i =>
      if (0 <? i)%nat && (i <? length name - 1)%nat then firstn i name else name
  | None => name
  end.

(** [int(f.stem.split('_')[1])]. *)
Definition number (name : str) : outcome Z :=
  match split 95%N (stem name) with
  | _ :: part :: _ => int part
  | _ => Raises IndexError
  end.

(** [f.stem.split('_')[1].isdigit()]. *)
Definition numbered (name : str) : outcome bool :=
  match split 95%N (stem name) with
  | _ :: part :: _ => Returns (isdigit part)
  | _ => Raises IndexError
  end.

(** A list comprehension whose element expression may raise. *)
Fixpoint comprehension {A B} (f : A -> outcome B) (l : list A) : outcome (list B) :=
  match l with
  | [] => Returns []
  | x :: r =>
      match f x with
      | Returns y =>
          match comprehension f r with
          | Returns ys => Returns (y :: ys)
          | Raises e => Raises e
          | Hangs => Hangs
          end
      | Raises e => Raises e
      | Hangs => Hangs
      end
  end.

(** [f"audio_{num:06d}"] followed by a suffix. *)
Definition audio_name (num : Z) (suffix : str) : str :=
  lit "audio_" ++ format_06d num ++ suffix.

End DataDir.

(* ================================================================== *)
(** * app.py *)
(* ================================================================== *)

Module App.

(** [self.status]: ["ready"], ["recording"], ["transcribing"]. *)
Inductive Status : Type := Ready | Recording | Transcribing.

Definition status_text (s : Status) : str :=
  match s with
  | Ready => lit "ready"
  | Recording => lit "recording"
  | Transcribing => lit "transcribing"
  end.

(** The background thread [stop_recording] starts: the closure
    [do_transcribe] with its [audio_path] and [duration]. *)
Record job : Type := mkJob { audio_path : nat; duration : Q }.

Record world : Type := mkWorld {
  toggle_key : option Z;       (* config["toggle_key"] *)
  hold_key : option Z;         (* config["hold_key"] *)
  recorder : Recorder.t;
  is_recording : bool;
  hold_key_pressed : bool;
  status : Status;
  threads : list job;          (* started and not yet ended *)
  host : Host.t
}.

Definition set_is_recording (b : bool) : M world unit :=
  modify (fun w => mkWorld (toggle_key w) (hold_key w) (recorder w) b
                           (hold_key_pressed w) (status w) (threads w) (host w)).

Definition set_hold_key_pressed (b : bool) : M world unit :=
  modify (fun w => mkWorld (toggle_key w) (hold_key w) (recorder w)
                           (is_recording w) b (status w) (threads w) (host w)).

Definition set_threads (l : list job) (w : world) : world :=
  mkWorld (toggle_key w) (hold_key w) (recorder w) (is_recording w)
          (hold_key_pressed w) (status w) l (host w).

Definition set_host (h : Host.t) (w : world) : world :=
  mkWorld (toggle_key w) (hold_key w) (recorder w) (is_recording w)
          (hold_key_pressed w) (status w) (threads w) h.

(** [update_status(status)]; the menu title and icon follow [self.status]. *)
Definition update_status (s : Status) : M world unit :=
  modify (fun w => mkWorld (toggle_key w) (hold_key w) (recorder w)
                           (is_recording w) (hold_key_pressed w) s
                           (threads w) (host w)).

(** Calls on [self.recorder] and on the host. *)
Definition on_recorder {A} (m : M Recorder.state A) : M world A :=
  zoom (fun w => (recorder w, host w))
       (fun s w => mkWorld (toggle_key w) (hold_key w) (fst s) (is_recording w)
                           (hold_key_pressed w) (status w) (threads w) (snd s))
       m.

Definition on_host {A} (m : M Host.t A) : M world A :=
  zoom host set_host m.

(** [Thread(target=do_transcribe, daemon=True).start()]. *)
Definition start_thread (j : job) : M world unit :=
  modify (fun w => set_threads (threads w ++ [j]) w).

(** [__init__], with the configuration read by [load_config]. *)
Definition init (toggle hold : option Z) (h : Host.t) : world :=
  mkWorld toggle hold Recorder.init false false Ready [] h.

(** [start_recording()].  ([play_sound] has no effect on the state.) *)
Definition start_recording : M world unit :=
  w <- get ;;
  if is_recording w then ret tt
  else
    set_is_recording true ;;
    update_status Recording ;;
    on_recorder Recorder.start.

(** [stop_recording()]. *)
Definition stop_recording : M world unit :=
  w <- get ;;
  if negb (is_recording w) then ret tt
  else
    set_is_recording false ;;
    update_status Transcribing ;;
    result <- on_recorder Recorder.stop ;;
    match result with
    | None => update_status Ready
    | Some (audio_path, duration) => start_thread (mkJob audio_path duration)
    end.

(** [toggle_recording()]. *)
Definition toggle_recording : M world unit :=
  w <- get ;;
  if is_recording w then stop_recording else start_recording.

(** The first lines of [save_training_data]: the number of the new entry. *)
Definition next_number (d : list str) : outcome Z :=
  let existing := DataDir.glob d in
  match existing with
  | [] => Returns 1%Z
  | _ :: _ =>
      match DataDir.comprehension DataDir.number existing with
      | Returns numbers =>
          match Py.max numbers with
          | Returns m => Returns (m + 1)%Z
          | Raises e => Raises e
          | Hangs => Hangs
          end
      | Raises e => Raises e
      | Hangs => Hangs
      end
  end.

(** [save_training_data(audio_path, final_text, raw_text, duration, was_edited)].
    The value returned is [num]. *)
Definition save_training_data (audio_path : nat) (final_text raw_text : str)
  (duration : Q) (was_edited : bool) : M Host.t Z :=
  h <- get ;;
  num <- call (next_number (Host.data_dir h)) ;;
  let audio_dest := DataDir.audio_name num (lit ".wav") in
  let text_dest := DataDir.audio_name num (lit ".txt") in
  Host.move audio_path audio_dest ;;
  Host.write_file text_dest ;;
  (if was_edited then Host.write_file (DataDir.audio_name num (lit "_raw.txt"))
   else ret tt) ;;
  h <- get ;;
  let entries := match Host.manifest h with Some l => l | None => [] end in
  let record := Host.mkEntry num duration was_edited audio_dest text_dest in
  (if Host.disk_ok h then modify (Host.set_manifest (Some (entries ++ [record])))
   else raise OSError) ;;
  ret num.

(** [do_transcribe()], the body of the background thread.  [transcribed] is
    what [transcribe(audio_path)] does, [events] what the user does in the
    popup. *)
Definition do_transcribe (j : job) (transcribed : outcome str)
  (events : list Popup.event) : M world unit :=
  text <- call transcribed ;;
  (if truthy text then
     let result := Popup.show_transcription_popup text events in
     if str_eqb (Popup.action result) (lit "save") then
       on_host (save_training_data (audio_path j) (Popup.text result) text
                                   (duration j) (Popup.was_edited result)) ;;
       ret tt
     else if str_eqb (Popup.action result) (lit "copy") then ret tt
     else on_host (Host.unlink (audio_path j))
   else on_host (Host.unlink (audio_path j))) ;;
  update_status Ready.

(** ** The hotkey listener of [setup_hotkeys] *)

Inductive event_type : Type := kCGEventKeyDown | kCGEventKeyUp.

(** The timers the callback starts: which method the run loop will call. *)
Inductive command : Type := Toggle | Start | Stop.

(** [keycode == key], where [key] may be [None]. *)
Definition is_key (keycode : Z) (key : option Z) : bool :=
  match key with
  | Some k => (keycode =? k)%Z
  | None => false
  end.

(** [callback(proxy, event_type, event, refcon)]: the latch is updated at
    once, the recording method is handed to a [rumps.Timer]. *)
Definition callback (ty : event_type) (keycode : Z) : M world (option command) :=
  w <- get ;;
  match ty with
  | kCGEventKeyDown =>
      if is_key keycode (toggle_key w) then ret (Some Toggle)
      else if is_key keycode (hold_key w) && negb (hold_key_pressed w) then
        set_hold_key_pressed true ;; ret (Some Start)
      else ret None
  | kCGEventKeyUp =>
      if is_key keycode (hold_key w) && hold_key_pressed w then
        set_hold_key_pressed false ;; ret (Some Stop)
      else ret None
  end.

Definition exec (c : command) : M world unit :=
  match c with
  | Toggle => toggle_recording
  | Start => start_recording
  | Stop => stop_recording
  end.

(** [bool(key)] of a configured key: [None] and [0] are falsy. *)
Definition configured (key : option Z) : bool :=
  match key with
  | Some k => negb (k =? 0)%Z
  | None => false
  end.

(** [setup_hotkeys] installs the listener unless both keys are falsy (and
    provided the event tap can be created, which is assumed here). *)
Definition listening (w : world) : bool :=
  negb (negb (configured (toggle_key w)) && negb (configured (hold_key w))).

(** ** What can happen to the running application *)

Inductive input : Type :=
| Key (ty : event_type) (keycode : Z)
    (* a key event; the timer it starts fires before the next input *)
| Fire (c : command)
    (* the run loop calls a recording method: a timer firing, at whatever
       moment and however often, or the menu item "Toggle Recording" *)
| Audio (indata : Recorder.block)
    (* the audio backend delivers a block, which it does while a stream is
       live *)
| Device (present : bool)               (* a microphone is plugged or unplugged *)
| Disk (writable : bool)
| ThreadRuns (model_exists : bool) (engine : Subprocess.process)
             (events : list Popup.event).
    (* the oldest background thread runs [do_transcribe] *)

(** A thread that ended, by returning or by an uncaught exception, is gone;
    one that is blocked in [subprocess.run] stays. *)
Definition run_thread (j : job) (rest : list job) (transcribed : outcome str)
  (events : list Popup.event) (w : world) : world :=
  match transcribed with
  | Hangs => w
  | _ => after (do_transcribe j transcribed events) (set_threads rest w)
  end.

Definition step (w : world) (i : input) : world :=
  match i with
  | Key ty keycode =>
      if listening w then
        match callback ty keycode w with
        | (Returns (Some c), w') => after (exec c) w'
        | (_, w') => w'
        end
      else w
  | Fire c => after (exec c) w
  | Audio indata =>
      match Host.live (host w) with
      | [] => w
      | _ :: _ => after (on_recorder (Recorder._callback indata)) w
      end
  | Device present => set_host (Host.set_device present (host w)) w
  | Disk writable => set_host (Host.set_disk_ok writable (host w)) w
  | ThreadRuns model_exists engine events =>
      match threads w with
      | [] => w
      | j :: rest =>
          run_thread j rest (Transcriber.transcribe model_exists engine) events w
      end
  end.

Definition run (w : world) (inputs : list input) : world :=
  fold_left step inputs w.

(** The streams a recorder keeps open: the one in [self.stream]. *)
Definition held (stream : option nat) : list nat :=
  match stream with
  | Some id => [id]
  | None => []
  end.

(** What a background thread leaves alone: everything but the status,
    which it may set to [Ready], and the files. *)
Definition framed (live : list nat) (w w' : world) : Prop :=
  recorder w' = recorder w
  /\ is_recording w' = is_recording w
  /\ hold_key_pressed w' = hold_key_pressed w
  /\ threads w' = threads w
  /\ Host.live (host w') = live
  /\ (status w' = Ready \/ status w' = status w).

(** What holds between the flags, the recorder and the audio backend in
    every state the application reaches. *)
Definition coherent (w : world) : Prop :=
  Host.live (host w) = held (Recorder.stream (recorder w))
  /\ (is_recording w = false -> Recorder.stream (recorder w) = None)
  /\ (status w = Transcribing -> is_recording w = false).

End App.

(* ================================================================== *)
(** * panokeet_final.py *)
(* ================================================================== *)

Module PanokeetFinal.

Definition F13_KEYCODE : Z := 105.   (* toggle recording *)
Definition F14_KEYCODE : Z := 107.   (* hold to speak *)

Record world : Type := mkWorld {
  recording : bool;
  audio_data : list Recorder.block;
  stream : option nat;
  hold_active : bool;
  threads : nat;           (* [_process_audio] threads started *)
  host : Host.t
}.

Definition init (h : Host.t) : world := mkWorld false [] None false 0 h.

Definition set_recording (b : bool) : M world unit :=
  modify (fun w => mkWorld b (audio_data w) (stream w) (hold_active w)
                           (threads w) (host w)).

Definition set_audio_data (d : list Recorder.block) : M world unit :=
  modify (fun w => mkWorld (recording w) d (stream w) (hold_active w)
                           (threads w) (host w)).

Definition set_stream (s : option nat) : M world unit :=
  modify (fun w => mkWorld (recording w) (audio_data w) s (hold_active w)
                           (threads w) (host w)).

Definition set_hold_active (b : bool) : M world unit :=
  modify (fun w => mkWorld (recording w) (audio_data w) (stream w) b
                           (threads w) (host w)).

Definition on_host {A} (m : M Host.t A) : M world A :=
  zoom host
       (fun h w => mkWorld (recording w) (audio_data w) (stream w)
                           (hold_active w) (threads w) h)
       m.

(** [start_recording()]. *)
Definition start_recording : M world unit :=
  w <- get ;;
  if recording w then ret tt
  else
    set_audio_data [] ;;
    set_recording true ;;
    id <- on_host Host.open_stream ;;
    set_stream (Some id).

(** The stream callback defined inside [start_recording]. *)
Definition callback (indata : Recorder.block) : M world unit :=
  w <- get ;;
  if recording w then set_audio_data (audio_data w ++ [indata]) else ret tt.

(** [stop_recording()]. *)
Definition stop_recording : M world unit :=
  w <- get ;;
  if negb (recording w) then ret tt
  else
    set_recording false ;;
    match stream w with
    | Some id => on_host (Host.close_stream id) ;; set_stream None
    | None => ret tt
    end ;;
    w <- get ;;
    match audio_data w with
    | [] => ret tt
    | _ :: _ =>
        modify (fun w => mkWorld (recording w) (audio_data w) (stream w)
                                 (hold_active w) (S (threads w)) (host w))
    end.

Inductive event_type : Type := kCGEventKeyDown | kCGEventKeyUp.

(** [event_callback(proxy, event_type, event, refcon)]. *)
Definition event_callback (ty : event_type) (keycode : Z) : M world unit :=
  w <- get ;;
  match ty with
  | kCGEventKeyDown =>
      if (keycode =? F13_KEYCODE)%Z then
        if recording w then stop_recording else start_recording
      else if (keycode =? F14_KEYCODE)%Z && negb (hold_active w) then
        set_hold_active true ;; start_recording
      else ret tt
  | kCGEventKeyUp =>
      if (keycode =? F14_KEYCODE)%Z && hold_active w then
        set_hold_active false ;; stop_recording
      else ret tt
  end.

Inductive input : Type :=
| Key (ty : event_type) (keycode : Z)
| Audio (indata : Recorder.block)
| Device (present : bool).

Definition step (w : world) (i : input) : world :=
  match i with
  | Key ty keycode => after (event_callback ty keycode) w
  | Audio indata =>
      match Host.live (host w) with
      | [] => w
      | _ :: _ => after (callback indata) w
      end
  | Device present =>
      mkWorld (recording w) (audio_data w) (stream w) (hold_active w)
              (threads w) (Host.set_device present (host w))
  end.

Definition run (w : world) (inputs : list input) : world :=
  fold_left step inputs w.

Definition coherent (w : world) : Prop :=
  Host.live (host w) = App.held (stream w)
  /\ (recording w = false -> stream w = None).

End PanokeetFinal.

(* ================================================================== *)
(** * panokeet.py *)
(* ================================================================== *)

Module Panokeet.

(** The module globals [recording], [audio_data], [stream],
    [hold_key_pressed] and [config]. *)
Record world : Type := mkWorld {
  recording : bool;
  audio_data : list Recorder.block;
  stream : option nat;
  hold_key_pressed : bool;
  toggle_key : option Z;     (* config.get("toggle_key") *)
  hold_key : option Z;       (* config.get("hold_key") *)
  transcriptions : nat;      (* runs of the engine started by [stop_recording] *)
  host : Host.t
}.

Definition set_recording (b : bool) : M world unit :=
  modify (fun w => mkWorld b (audio_data w) (stream w) (hold_key_pressed w)
                           (toggle_key w) (hold_key w) (transcriptions w) (host w)).

Definition set_audio_data (d : list Recorder.block) : M world unit :=
  modify (fun w => mkWorld (recording w) d (stream w) (hold_key_pressed w)
                           (toggle_key w) (hold_key w) (transcriptions w) (host w)).

Definition set_stream (s : option nat) : M world unit :=
  modify (fun w => mkWorld (recording w) (audio_data w) s (hold_key_pressed w)
                           (toggle_key w) (hold_key w) (transcriptions w) (host w)).

Definition set_hold_key_pressed (b : bool) : M world unit :=
  modify (fun w => mkWorld (recording w) (audio_data w) (stream w) b
                           (toggle_key w) (hold_key w) (transcriptions w) (host w)).

Definition on_host {A} (m : M Host.t A) : M world A :=
  zoom host
       (fun h w => mkWorld (recording w) (audio_data w) (stream w)
                           (hold_key_pressed w) (toggle_key w) (hold_key w)
                           (transcriptions w) h)
       m.

(** [start_recording()]. *)
Definition start_recording : M world unit :=
  w <- get ;;
  if recording w then ret tt
  else
    set_audio_data [] ;;
    set_recording true ;;
    id <- on_host Host.open_stream ;;
    set_stream (Some id).

(** [stop_recording()], up to the call of the engine, which is counted. *)
Definition stop_recording : M world unit :=
  w <- get ;;
  if negb (recording w) then ret tt
  else
    set_recording false ;;
    match stream w with
    | Some id => on_host (Host.close_stream id) ;; set_stream None
    | None => ret tt
    end ;;
    w <- get ;;
    match audio_data w with
    | [] => ret tt
    | _ :: _ =>
        modify (fun w => mkWorld (recording w) (audio_data w) (stream w)
                                 (hold_key_pressed w) (toggle_key w) (hold_key w)
                                 (S (transcriptions w)) (host w))
    end.

(** [hotkey_callback(proxy, event_type, event, refcon)].  The thread that
    runs [stop_recording] starts at once. *)
Definition hotkey_callback (ty : App.event_type) (keycode : Z) : M world unit :=
  w <- get ;;
  match ty with
  | App.kCGEventKeyDown =>
      if App.is_key keycode (toggle_key w) then
        if recording w then stop_recording else start_recording
      else if App.is_key keycode (hold_key w) && negb (hold_key_pressed w) then
        set_hold_key_pressed true ;; start_recording
      else ret tt
  | App.kCGEventKeyUp =>
      if App.is_key keycode (hold_key w) && hold_key_pressed w then
        set_hold_key_pressed false ;; stop_recording
      else ret tt
  end.

End Panokeet.

(* ================================================================== *)
(** * panokeet_v3.py *)
(* ================================================================== *)

Module PanokeetV3.

(** The AppKit modifier masks. *)
Definition NSShiftKeyMask : Z := Z.shiftl 1 17.
Definition NSControlKeyMask : Z := Z.shiftl 1 18.
Definition NSAlternateKeyMask : Z := Z.shiftl 1 19.
Definition NSCommandKeyMask : Z := Z.shiftl 1 20.

(** [bool(flags & mask)]. *)
Definition has (flags mask : Z) : bool := negb (Z.land flags mask =? 0)%Z.

(** [check_modifiers(event, required_mods)], on [event.modifierFlags()]. *)
Fixpoint check_modifiers (flags : Z) (required_mods : list str) : bool :=
  let has_cmd := has flags NSCommandKeyMask in
  let has_shift := has flags NSShiftKeyMask in
  let has_opt := has flags NSAlternateKeyMask in
  let has_ctrl := has flags NSControlKeyMask in
  match required_mods with
  | [] => true
  | mod_ :: rest =>
      if str_eqb mod_ (lit "cmd") && negb has_cmd then false
      else if str_eqb mod_ (lit "shift") && negb has_shift then false
      else if str_eqb mod_ (lit "opt") && negb has_opt then false
      else if str_eqb mod_ (lit "ctrl") && negb has_ctrl then false
      else check_modifiers flags rest
  end.

(** The four modifiers the function knows, the set an event carries and the
    set a binding names. *)
Inductive modifier : Type := Cmd | Shift | Opt | Ctrl.

Definition modifiers : list modifier := [Cmd; Shift; Opt; Ctrl].

Definition name (m : modifier) : str :=
  match m with
  | Cmd => lit "cmd"
  | Shift => lit "shift"
  | Opt => lit "opt"
  | Ctrl => lit "ctrl"
  end.

Definition mask (m : modifier) : Z :=
  match m with
  | Cmd => NSCommandKeyMask
  | Shift => NSShiftKeyMask
  | Opt => NSAlternateKeyMask
  | Ctrl => NSControlKeyMask
  end.

Definition pressed (flags : Z) (m : modifier) : bool := has flags (mask m).

Definition requires (required_mods : list str) (m : modifier) : bool :=
  existsb (fun r => str_eqb r (name m)) required_mods.

(** The event's set and the binding's set are the same set. *)
Definition same_set (flags : Z) (required_mods : list str) : bool :=
  forallb (fun m => Bool.eqb (pressed flags m) (requires required_mods m))
          modifiers.

(** Every modifier of the binding is in the event's set. *)
Definition all_pressed (flags : Z) (required_mods : list str) : bool :=
  forallb (fun m => implb (requires required_mods m) (pressed flags m))
          modifiers.

Record config : Type := mkConfig {
  toggle_key : Z;
  toggle_mods : list str;
  hold_key : Z;
  hold_mods : list str
}.

(** The defaults of [load_config]. *)
Definition default : config :=
  mkConfig 89 [lit "cmd"; lit "opt"; lit "ctrl"]
           91 [lit "cmd"; lit "opt"; lit "ctrl"].

Record NSEvent : Type := mkEvent { keyCode : Z; modifierFlags : Z }.

(** The two tests of [handle_key_down]. *)
Definition is_toggle (cfg : config) (event : NSEvent) : bool :=
  (keyCode event =? toggle_key cfg)%Z
  && check_modifiers (modifierFlags event) (toggle_mods cfg).

Definition is_hold (cfg : config) (event : NSEvent) : bool :=
  (keyCode event =? hold_key cfg)%Z
  && check_modifiers (modifierFlags event) (hold_mods cfg).

(** [handle_key_down(event)] and [handle_key_up(event)].  The class keeps
    the fields of [panokeet_final.py], and its [start_recording] and
    [stop_recording] are the same statements. *)
Definition handle_key_down (cfg : config) (event : NSEvent)
  : M PanokeetFinal.world unit :=
  w <- get ;;
  if is_toggle cfg event then
    if PanokeetFinal.recording w then PanokeetFinal.stop_recording
    else PanokeetFinal.start_recording
  else if is_hold cfg event then
    if negb (PanokeetFinal.hold_active w) then
      PanokeetFinal.set_hold_active true ;; PanokeetFinal.start_recording
    else ret tt
  else ret tt.

Definition handle_key_up (cfg : config) (event : NSEvent)
  : M PanokeetFinal.world unit :=
  w <- get ;;
  if (keyCode event =? hold_key cfg)%Z && PanokeetFinal.hold_active w then
    PanokeetFinal.set_hold_active false ;; PanokeetFinal.stop_recording
  else ret tt.

End PanokeetV3.

(* ================================================================== *)
(** * backend/server.py *)
(* ================================================================== *)

Module Server.

(** [RecorderState.transcribe(audio_path)]: [subprocess.run] with
    [timeout=120] inside [try]; every [except] clause returns [None]. *)
Definition transcribe (engine : Subprocess.process) : outcome (option str) :=
  match Subprocess.run (Some (120 # 1)%Q) engine with
  | Returns result =>
      if negb (Subprocess.returncode result =? 0)%Z then Returns None
      else Returns (Some (Transcriber.clean (Subprocess.stdout result)))
  | Raises TimeoutExpired => Returns None
  | Raises FileNotFoundError => Returns None
  | Raises _ => Returns None
  | Hangs => Hangs
  end.

(** [not transcript], the test the endpoints apply to the result. *)
Definition no_speech (transcript : option str) : bool :=
  match transcript with
  | None => true
  | Some text => negb (truthy text)
  end.

(** The number [save_transcript] gives the new entry:
    [nums = [int(f.stem.split('_')[1]) for f in existing
             if f.stem.split('_')[1].isdigit()]],
    [num = max(nums, default=0) + 1]. *)
Fixpoint nums (existing : list str) : outcome (list Z) :=
  match existing with
  | [] => Returns []
  | f :: rest =>
      match DataDir.numbered f with
      | Returns true =>
          match DataDir.number f, nums rest with
          | Returns n, Returns l => Returns (n :: l)
          | Raises e, _ => Raises e
          | Hangs, _ => Hangs
          | _, Raises e => Raises e
          | _, Hangs => Hangs
          end
      | Returns false => nums rest
      | Raises e => Raises e
      | Hangs => Hangs
      end
  end.

Definition next_number (d : list str) : outcome Z :=
  match nums (DataDir.glob d) with
  | Returns l => Returns (Py.max_default 0 l + 1)%Z
  | Raises e => Raises e
  | Hangs => Hangs
  end.

(** [RecorderState]: the fields the recording methods use. *)
Record RecorderState : Type := mkState {
  recording : bool;
  audio_data : list Recorder.block;
  stream : option nat
}.

(** [RecorderState.start_recording()]: the result is the value of
    ["success"].  The device test and both [except] clauses return the
    failure before [self.recording] is set. *)
Definition start_recording : M (RecorderState * Host.t) bool :=
  fun s =>
    let (r, h) := s in
    if recording r then (Returns false, s)
    else
      let r1 := mkState (recording r) [] (stream r) in
      if negb (Host.device h) then (Returns false, (r1, h))
      else
        match Host.open_stream h with
        | (Returns id, h') => (Returns true, (mkState true [] (Some id), h'))
        | (_, h') => (Returns false, (r1, h'))
        end.

End Server.

(* ================================================================== *)
(** * The specification's wording of the clean-up *)
(* ================================================================== *)

Module Spec.

(** "Trim each line, drop empty lines, join remaining with a single space",
    the lines being the pieces of the output between line feeds. *)
Definition kept (lines : list str) : list str :=
  filter truthy (map strip lines).

Definition normalize (stdout : str) : str :=
  join (lit " ") (kept (split Transcriber.newline stdout)).

End Spec.

Import Spec.

(* ================================================================== *)
(** * More Python built-ins *)
(* ================================================================== *)

Module PyText.

(** [str.lower()] on one character: the ASCII capitals.  (Cased letters
    outside ASCII are left as they are; the strings the sources build and
    compare with are ASCII.) *)
Definition lower_char (c : char) : char :=
  if ((65 <=? c) && (c <=? 90))%N then (c + 32)%N else c.

Definition lower (s : str) : str := map lower_char s.

(** [str(n)] for an integer. *)
Definition str_of_Z (n : Z) : str :=
  if (n <? 0)%Z then 45%N :: str_of_N (Z.to_N (- n)) else str_of_N (Z.to_N n).

(** [x in l] for a list or tuple of strings. *)
Definition contains (x : str) (l : list str) : bool := existsb (str_eqb x) l.

End PyText.

Import PyText.

(* ================================================================== *)
(** * popup.py: how a session of the popup ends *)
(* ================================================================== *)

Module Review.

(** The events that reach [onCancel_]: Escape in the text view, when the
    key is not taken as Enter. *)
Definition cancels (e : Popup.event) : bool :=
  match e with
  | Popup.KeyDown k f _ => negb (Popup.confirms e) && (k =? 53)%Z
  | _ => false
  end.

(** The events after which the modal session is over. *)
Definition closes (e : Popup.event) : bool := Popup.confirms e || cancels e.

(** What the text view holds after events that do not close the popup. *)
Definition content (transcription : str) (events : list Popup.event) : str :=
  fold_left
    (fun held e =>
       match e with
       | Popup.KeyDown _ _ typed => typed
       | Popup.ClickDone => held
       | Popup.Edit c => c
       end)
    events transcription.

End Review.

(* ================================================================== *)
(** * panokeet_v3.py: hotkey strings and the event monitors *)
(* ================================================================== *)

Module Hotkeys.

(** One turn of the loop of [parse_hotkey]. *)
Definition parse_part (acc : option Z * list str) (part : str)
  : option Z * list str :=
  let (keycode, mods) := acc in
  let part := strip part in
  if contains part [lit "cmd"; lit "command"] then (keycode, mods ++ [lit "cmd"])
  else if contains part [lit "shift"] then (keycode, mods ++ [lit "shift"])
  else if contains part [lit "opt"; lit "option"; lit "alt"] then
    (keycode, mods ++ [lit "opt"])
  else if contains part [lit "ctrl"; lit "control"] then
    (keycode, mods ++ [lit "ctrl"])
  else
    match int part with
    | Returns k => (Some k, mods)
    | _ => (keycode, mods)        (* [except: pass] *)
    end.

(** [parse_hotkey(s)]: [(keycode, mods)], the keycode being [None] when no
    part of the string is a number. *)
Definition parse_hotkey (s : str) : option Z * list str :=
  let parts := split 43%N (strip (lower s)) in
  fold_left parse_part parts (None, []).

(** [format_hotkey(keycode, mods)]. *)
Definition format_hotkey (keycode : Z) (mods : list str) : str :=
  let parts :=
    (if contains (lit "cmd") mods then [lit "Cmd"] else [])
    ++ (if contains (lit "shift") mods then [lit "Shift"] else [])
    ++ (if contains (lit "opt") mods then [lit "Opt"] else [])
    ++ (if contains (lit "ctrl") mods then [lit "Ctrl"] else [])
    ++ [str_of_Z keycode] in
  join (lit "+") parts.

(** The modifiers of a list in the order [format_hotkey] prints them. *)
Definition canonical (mods : list str) : list str :=
  (if contains (lit "cmd") mods then [lit "cmd"] else [])
  ++ (if contains (lit "shift") mods then [lit "shift"] else [])
  ++ (if contains (lit "opt") mods then [lit "opt"] else [])
  ++ (if contains (lit "ctrl") mods then [lit "ctrl"] else []).

(** What reaches the [Panokeet] object of panokeet_v3.py: the two global
    event monitors, the stream callback, and the microphone. *)
Inductive input : Type :=
| KeyDown (event : PanokeetV3.NSEvent)
| KeyUp (event : PanokeetV3.NSEvent)
| Audio (indata : Recorder.block)
| Device (present : bool).

Definition step (cfg : PanokeetV3.config) (w : PanokeetFinal.world) (i : input)
  : PanokeetFinal.world :=
  match i with
  | KeyDown event => after (PanokeetV3.handle_key_down cfg event) w
  | KeyUp event => after (PanokeetV3.handle_key_up cfg event) w
  | Audio indata =>
      match Host.live (PanokeetFinal.host w) with
      | [] => w
      | _ :: _ => after (PanokeetFinal.callback indata) w
      end
  | Device present =>
      PanokeetFinal.mkWorld (PanokeetFinal.recording w)
        (PanokeetFinal.audio_data w) (PanokeetFinal.stream w)
        (PanokeetFinal.hold_active w) (PanokeetFinal.threads w)
        (Host.set_device present (PanokeetFinal.host w))
  end.

Definition run (cfg : PanokeetV3.config) (w : PanokeetFinal.world)
  (inputs : list input) : PanokeetFinal.world :=
  fold_left (step cfg) inputs w.

End Hotkeys.

(* ================================================================== *)
(** * backend/server.py: the recorder object and the endpoints *)
(* ================================================================== *)

Module Backend.

(** [RecorderState], with all the fields the endpoints read or write
    ([current_level] only feeds the level meter). *)
Record RecorderState : Type := mkState {
  recording : bool;
  audio_data : list Recorder.block;
  stream : option nat;
  temp_audio_path : option nat;
  last_transcript : option str;
  last_duration : option Q
}.

Definition state : Type := (RecorderState * Host.t)%type.

(** [__init__]. *)
Definition init : RecorderState := mkState false [] None None None None.

Definition self_ : M state RecorderState := fun s => (Returns (fst s), s).
Definition set_self (f : RecorderState -> RecorderState) : M state unit :=
  modify (fun s => (f (fst s), snd s)).
Definition host {A} (m : M Host.t A) : M state A :=
  zoom (fun s : state => snd s) (fun h s => (fst s, h)) m.

(** [RecorderState.start_recording()]: the value of ["success"]. *)
Definition start_recording : M state bool :=
  r <- self_ ;;
  if recording r then ret false
  else
    set_self (fun r => mkState (recording r) [] (stream r) None None
                               (last_duration r)) ;;
    s <- get ;;
    if negb (Host.device (snd s)) then ret false
    else
      (* [try: ... except sd.PortAudioError / Exception: return failure] *)
      match Host.open_stream (snd s) with
      | (Returns id, h') =>
          modify (fun s : state =>
                    (mkState true (audio_data (fst s)) (Some id)
                             (temp_audio_path (fst s)) (last_transcript (fst s))
                             (last_duration (fst s)), h')) ;;
          ret true
      | (_, _) => ret false
      end.

(** The stream callback defined inside [start_recording]. *)
Definition callback (indata : Recorder.block) : M state unit :=
  r <- self_ ;;
  if recording r then
    set_self (fun r => mkState (recording r) (audio_data r ++ [indata]) (stream r)
                               (temp_audio_path r) (last_transcript r)
                               (last_duration r))
  else ret tt.

(** [RecorderState.stop_recording()]: [(temp_audio_path, duration)], or
    [(None, 0)]. *)
Definition stop_recording : M state (option nat * Q) :=
  r <- self_ ;;
  if negb (recording r) then ret (None, 0%Q)
  else
    set_self (fun r => mkState false (audio_data r) (stream r)
                               (temp_audio_path r) (last_transcript r)
                               (last_duration r)) ;;
    match stream r with
    | Some id =>
        host (Host.close_stream id) ;;
        set_self (fun r => mkState (recording r) (audio_data r) None
                                   (temp_audio_path r) (last_transcript r)
                                   (last_duration r))
    | None => ret tt
    end ;;
    r <- self_ ;;
    match audio_data r with
    | [] => ret (None, 0%Q)
    | _ :: _ =>
        let duration := Recorder.duration_of (audio_data r) in
        temp <- host Host.new_tmp ;;
        set_self (fun r => mkState (recording r) (audio_data r) (stream r)
                                   (Some temp) (last_transcript r)
                                   (last_duration r)) ;;
        ret (Some temp, duration)
    end.

(** [RecorderState.transcribe(audio_path)], with the assignment to
    [self.last_transcript] it makes when the engine succeeded. *)
Definition transcribe (engine : Subprocess.process) : M state (option str) :=
  t <- call (Server.transcribe engine) ;;
  match t with
  | Some text =>
      set_self (fun r => mkState (recording r) (audio_data r) (stream r)
                                 (temp_audio_path r) (Some text)
                                 (last_duration r)) ;;
      ret (Some text)
  | None => ret None
  end.

(** [RecorderState.cleanup_temp()]. *)
Definition cleanup_temp : M state unit :=
  s <- get ;;
  match temp_audio_path (fst s) with
  | Some p =>
      if existsb (Nat.eqb p) (Host.tmp_files (snd s)) then
        host (Host.unlink p) ;;
        set_self (fun r => mkState (recording r) (audio_data r) (stream r)
                                   None (last_transcript r) (last_duration r))
      else ret tt
  | None => ret tt
  end.

Definition set_last_duration (d : Q) : M state unit :=
  set_self (fun r => mkState (recording r) (audio_data r) (stream r)
                             (temp_audio_path r) (last_transcript r) (Some d)).

(** What an endpoint answers. *)
Inductive response : Type :=
| Stopped (error : str)                 (* status "ready", action "stopped" *)
| Transcribed (transcript : str) (duration : Q)
| Failed                                (* status "error" *)
| Started                               (* status "recording" *)
| AlreadyRecording                      (* status "already_recording" *)
| Saved (id : Z)                        (* status "saved" *)
| Cancelled                             (* status "cancelled" *)
| HTTPException (status_code : Z) (detail : str)
| Status (status : str) (is_recording : bool)
| Pending (transcript : str) (duration : Q)
| NotPending.

(** [POST /toggle]. *)
Definition toggle_recording (engine : Subprocess.process) : M state response :=
  r <- self_ ;;
  if recording r then
    stopped <- stop_recording ;;
    match stopped with
    | (None, _) => ret (Stopped (lit "No audio"))
    | (Some audio_path, duration) =>
        set_last_duration duration ;;
        transcript <- transcribe engine ;;
        if Server.no_speech transcript then
          cleanup_temp ;; ret (Stopped (lit "No speech"))
        else
          ret (Transcribed (match transcript with Some t => t | None => [] end)
                           duration)
    end
  else
    success <- start_recording ;;
    if negb success then ret Failed else ret Started.

(** [POST /record/start]. *)
Definition record_start : M state response :=
  r <- self_ ;;
  if recording r then ret AlreadyRecording
  else
    success <- start_recording ;;
    if negb success then ret Failed else ret Started.

(** [POST /record/stop]. *)
Definition record_stop (engine : Subprocess.process) : M state response :=
  r <- self_ ;;
  if negb (recording r) then ret (HTTPException 400 (lit "Not recording"))
  else
    stopped <- stop_recording ;;
    match stopped with
    | (None, _) => ret (HTTPException 400 (lit "No audio captured"))
    | (Some audio_path, duration) =>
        set_last_duration duration ;;
        transcript <- transcribe engine ;;
        if Server.no_speech transcript then
          cleanup_temp ;; ret (HTTPException 400 (lit "No speech detected"))
        else
          ret (Transcribed (match transcript with Some t => t | None => [] end)
                           duration)
    end.

(** [POST /save]: [save_transcript(request)].  The request carries the two
    texts, the duration and the flag, which go into the metadata file. *)
Definition save_transcript : M state response :=
  s <- get ;;
  num <- call (Server.next_number (Host.data_dir (snd s))) ;;
  (match temp_audio_path (fst s) with
   | Some p =>
       if existsb (Nat.eqb p) (Host.tmp_files (snd s)) then
         host (Host.move p (DataDir.audio_name num (lit ".wav"))) ;;
         set_self (fun r => mkState (recording r) (audio_data r) (stream r)
                                    None (last_transcript r) (last_duration r))
       else ret tt
   | None => ret tt
   end) ;;
  host (Host.write_file (DataDir.audio_name num (lit ".json"))) ;;
  host (Host.write_file (DataDir.audio_name num (lit ".txt"))) ;;
  ret (Saved num).

(** [POST /cancel]. *)
Definition cancel_transcript : M state response :=
  cleanup_temp ;; ret Cancelled.

(** [GET /status]. *)
Definition get_status : M state response :=
  r <- self_ ;;
  if recording r then ret (Status (lit "recording") true)
  else ret (Status (lit "ready") false).

(** [GET /pending]. *)
Definition get_pending : M state response :=
  r <- self_ ;;
  match last_transcript r, temp_audio_path r with
  | Some text, Some _ =>
      if truthy text then
        ret (Pending text (match last_duration r with Some d => d | None => 0%Q end))
      else ret NotPending
  | _, _ => ret NotPending
  end.

(** The requests. *)
Inductive request : Type :=
| PostToggle (engine : Subprocess.process)
| PostStart
| PostStop (engine : Subprocess.process)
| PostSave
| PostCancel
| GetStatus
| GetPending.

Definition handle (q : request) : M state response :=
  match q with
  | PostToggle engine => toggle_recording engine
  | PostStart => record_start
  | PostStop engine => record_stop engine
  | PostSave => save_transcript
  | PostCancel => cancel_transcript
  | GetStatus => get_status
  | GetPending => get_pending
  end.

(** What reaches the server: requests, audio blocks while a stream is live,
    and changes of the microphone and of the disk. *)
Inductive input : Type :=
| Request (q : request)
| Audio (indata : Recorder.block)
| Device (present : bool)
| Disk (writable : bool).

Definition step (s : state) (i : input) : state :=
  match i with
  | Request q => after (handle q) s
  | Audio indata =>
      match Host.live (snd s) with
      | [] => s
      | _ :: _ => after (callback indata) s
      end
  | Device present => (fst s, Host.set_device present (snd s))
  | Disk writable => (fst s, Host.set_disk_ok writable (snd s))
  end.

Definition run (s : state) (inputs : list input) : state :=
  fold_left step inputs s.

(** The live streams are the one the recorder holds, and it holds one
    exactly while it is recording. *)
Definition coherent (s : state) : Prop :=
  Host.live (snd s) = App.held (stream (fst s))
  /\ (recording (fst s) = true <-> stream (fst s) <> None).

(** The temporary file [p] exists, and the recorder does not hold its
    name. *)
Definition orphan (p : nat) (s : state) : Prop :=
  temp_audio_path (fst s) <> Some p
  /\ In p (Host.tmp_files (snd s))
  /\ (p < Host.next_tmp (snd s))%nat.

(** A method that neither starts nor stops a recording. *)
Definition keeps_session {A} (m : M state A) : Prop :=
  forall s,
    recording (fst (after m s)) = recording (fst s)
    /\ stream (fst (after m s)) = stream (fst s)
    /\ Host.live (snd (after m s)) = Host.live (snd s).

End Backend.

(* ================================================================== *)
(** * panokeet_final.py: the transcription thread *)
(* ================================================================== *)

Module ProcessAudio.

(** [max([int(f.stem.split('_')[1]) for f in existing], default=0) + 1]. *)
Definition next_number (d : list str) : outcome Z :=
  match DataDir.comprehension DataDir.number (DataDir.glob d) with
  | Returns numbers => Returns (Py.max_default 0 numbers + 1)%Z
  | Raises e => Raises e
  | Hangs => Hangs
  end.

(** [_process_audio()].  [np.concatenate] of an empty list raises
    [ValueError]; the engine is run without a timeout and its return code is
    not looked at.  (The clipboard is not part of the state.) *)
Definition _process_audio (engine : Subprocess.process)
  : M PanokeetFinal.world unit :=
  w <- get ;;
  match PanokeetFinal.audio_data w with
  | [] => raise ValueError
  | _ :: _ =>
      temp <- PanokeetFinal.on_host Host.new_tmp ;;
      result <- call (Subprocess.run None engine) ;;
      let text := Transcriber.clean (Subprocess.stdout result) in
      if truthy text then
        w <- get ;;
        num <- call (next_number (Host.data_dir (PanokeetFinal.host w))) ;;
        PanokeetFinal.on_host
          (Host.move temp (DataDir.audio_name num (lit ".wav"))) ;;
        PanokeetFinal.on_host
          (Host.write_file (DataDir.audio_name num (lit ".txt")))
      else PanokeetFinal.on_host (Host.unlink temp)
  end.

End ProcessAudio.

(* ================================================================== *)
(** * dictate.py *)
(* ================================================================== *)

Module Dictate.

Definition NUMPAD_7 : Z := 89.
Definition NUMPAD_8 : Z := 91.

(** A key as [pynput] hands it over: a member of [keyboard.Key], or a
    [KeyCode], which alone has the attribute [vk]. *)
Inductive key : Type :=
| cmd | cmd_l | cmd_r | esc
| special                      (* any other member of [keyboard.Key] *)
| KeyCode (vk : option Z).

(** [self.status]. *)
Inductive Status : Type := Ready | Recording | Transcribing | Done.

Record world : Type := mkWorld {
  recorder : Recorder.t;     (* the [Recorder] of dictate.py, which has the
                                methods of recorder.py *)
  is_recording : bool;
  cmd_pressed : bool;
  numpad8_held : bool;
  status : Status;
  quit : bool;               (* quit_event.is_set() *)
  host : Host.t
}.

Definition init (h : Host.t) : world :=
  mkWorld Recorder.init false false false Ready false h.

Definition set_is_recording (b : bool) : M world unit :=
  modify (fun w => mkWorld (recorder w) b (cmd_pressed w) (numpad8_held w)
                           (status w) (quit w) (host w)).

Definition set_cmd_pressed (b : bool) : M world unit :=
  modify (fun w => mkWorld (recorder w) (is_recording w) b (numpad8_held w)
                           (status w) (quit w) (host w)).

Definition set_numpad8_held (b : bool) : M world unit :=
  modify (fun w => mkWorld (recorder w) (is_recording w) (cmd_pressed w) b
                           (status w) (quit w) (host w)).

Definition set_status (s : Status) : M world unit :=
  modify (fun w => mkWorld (recorder w) (is_recording w) (cmd_pressed w)
                           (numpad8_held w) s (quit w) (host w)).

Definition set_quit : M world unit :=
  modify (fun w => mkWorld (recorder w) (is_recording w) (cmd_pressed w)
                           (numpad8_held w) (status w) true (host w)).

Definition on_recorder {A} (m : M Recorder.state A) : M world A :=
  zoom (fun w => (recorder w, host w))
       (fun s w => mkWorld (fst s) (is_recording w) (cmd_pressed w)
                           (numpad8_held w) (status w) (quit w) (snd s))
       m.

Definition on_host {A} (m : M Host.t A) : M world A :=
  zoom host
       (fun h w => mkWorld (recorder w) (is_recording w) (cmd_pressed w)
                           (numpad8_held w) (status w) (quit w) h)
       m.

(** [transcribe(audio_path)] of dictate.py: no test of the model file. *)
Definition transcribe (engine : Subprocess.process) : outcome str :=
  match Subprocess.run None engine with
  | Returns result =>
      if negb (Subprocess.returncode result =? 0)%Z then Returns (lit "")
      else Returns (Transcriber.clean (Subprocess.stdout result))
  | Raises e => Raises e
  | Hangs => Hangs
  end.

(** [_is_numpad_7(key)], [_is_numpad_8(key)]. *)
Definition has_vk (k : key) (code : Z) : bool :=
  match k with
  | KeyCode (Some v) => (v =? code)%Z
  | _ => false
  end.

Definition _is_numpad_7 (k : key) : bool := has_vk k NUMPAD_7.
Definition _is_numpad_8 (k : key) : bool := has_vk k NUMPAD_8.

(** [key in (keyboard.Key.cmd, keyboard.Key.cmd_l, keyboard.Key.cmd_r)]. *)
Definition is_cmd (k : key) : bool :=
  match k with
  | cmd | cmd_l | cmd_r => true
  | _ => false
  end.

(** [_start_recording(mode)]. *)
Definition _start_recording : M world unit :=
  w <- get ;;
  if negb (is_recording w) then
    set_is_recording true ;;
    set_status Recording ;;
    on_recorder Recorder.start
  else ret tt.

(** [_stop_and_save()], the body of the thread the key handlers start.  The
    number is [get_next_file_number()], which has the statements of app.py.
    (The clipboard is not part of the state.) *)
Definition _stop_and_save (engine : Subprocess.process) : M world unit :=
  w <- get ;;
  if negb (is_recording w) then ret tt
  else
    set_is_recording false ;;
    set_status Transcribing ;;
    result <- on_recorder Recorder.stop ;;
    match result with
    | None => set_status Ready
    | Some (audio_path, duration) =>
        transcription <- call (transcribe engine) ;;
        (if truthy transcription then
           w <- get ;;
           file_num <- call (App.next_number (Host.data_dir (host w))) ;;
           on_host (Host.move audio_path
                      (DataDir.audio_name file_num (lit ".wav"))) ;;
           on_host (Host.write_file
                      (DataDir.audio_name file_num (lit ".txt"))) ;;
           set_status Done
         else on_host (Host.unlink audio_path)) ;;
        set_status Ready
    end.

(** [on_press(key)].  The thread started for [_stop_and_save] runs to its
    end before the next key arrives. *)
Definition on_press (engine : Subprocess.process) (k : key) : M world unit :=
  (if is_cmd k then set_cmd_pressed true else ret tt) ;;
  w <- get ;;
  (if cmd_pressed w && _is_numpad_7 k then
     if is_recording w then _stop_and_save engine else _start_recording
   else ret tt) ;;
  w <- get ;;
  if cmd_pressed w && _is_numpad_8 k then
    if negb (is_recording w) then
      set_numpad8_held true ;; _start_recording
    else ret tt
  else ret tt.

(** [on_release(key)]. *)
Definition on_release (engine : Subprocess.process) (k : key) : M world unit :=
  (if is_cmd k then
     set_cmd_pressed false ;;
     w <- get ;;
     if numpad8_held w && is_recording w then
       set_numpad8_held false ;; _stop_and_save engine
     else ret tt
   else ret tt) ;;
  (if _is_numpad_8 k then
     w <- get ;;
     if numpad8_held w && is_recording w then
       set_numpad8_held false ;; _stop_and_save engine
     else ret tt
   else ret tt) ;;
  match k with
  | esc => set_quit
  | _ => ret tt
  end.

(** What reaches the application.  The listener stops with the first
    Escape that is released. *)
Inductive input : Type :=
| Press (k : key) (engine : Subprocess.process)
| Release (k : key) (engine : Subprocess.process)
| Audio (indata : Recorder.block)
| Device (present : bool).

Definition step (w : world) (i : input) : world :=
  match i with
  | Press k engine => if quit w then w else after (on_press engine k) w
  | Release k engine => if quit w then w else after (on_release engine k) w
  | Audio indata =>
      match Host.live (host w) with
      | [] => w
      | _ :: _ => after (on_recorder (Recorder._callback indata)) w
      end
  | Device present =>
      mkWorld (recorder w) (is_recording w) (cmd_pressed w) (numpad8_held w)
              (status w) (quit w) (Host.set_device present (host w))
  end.

Definition run (w : world) (inputs : list input) : world :=
  fold_left step inputs w.

Definition coherent (w : world) : Prop :=
  Host.live (host w) = App.held (Recorder.stream (recorder w))
  /\ (is_recording w = false -> Recorder.stream (recorder w) = None).

End Dictate.

(* ================================================================== *)
(** * Facts about strings *)
(* ================================================================== *)

Section StringFacts.

Lemma lstrip_app (a b : str) :
  lstrip (a ++ b) = if forallb isspace a then lstrip b else lstrip a ++ b.
Proof.
  induction a as [|c a IH]; simpl; [reflexivity|].
  destruct (isspace c); simpl; [exact IH | reflexivity].
Qed.

Lemma lstrip_blank (s : str) : forallb isspace s = true -> lstrip s = [].
Proof.
  induction s as [|c s IH]; simpl; [reflexivity|].
  destruct (isspace c); simpl; [exact IH | discriminate].
Qed.

Lemma lstrip_not_blank (s : str) :
  forallb isspace s = false -> truthy (lstrip s) = true.
Proof.
  induction s as [|c s IH]; simpl; [discriminate|].
  destruct (isspace c) eqn:E; simpl; [exact IH | reflexivity].
Qed.

Lemma forallb_rev (f : char -> bool) (s : str) :
  forallb f (rev s) = forallb f s.
Proof.
  induction s as [|c s IH]; simpl; [reflexivity|].
  rewrite forallb_app, IH. simpl. rewrite andb_true_r. apply andb_comm.
Qed.

Lemma truthy_rev (s : str) : truthy (rev s) = truthy s.
Proof.
  destruct s as [|c s]; simpl; [reflexivity|].
  destruct (rev s); reflexivity.
Qed.

(** [rstrip], read from the left. *)
Lemma rstrip_cons (c : char) (t : str) :
  rstrip (c :: t) =
  if truthy (rstrip t) then c :: rstrip t
  else if isspace c then [] else [c].
Proof.
  unfold rstrip. simpl rev at 2. rewrite lstrip_app, truthy_rev.
  rewrite forallb_rev.
  destruct (forallb isspace t) eqn:B.
  - rewrite (lstrip_blank (rev t)) by (now rewrite forallb_rev). simpl.
    destruct (isspace c); reflexivity.
  - rewrite (lstrip_not_blank (rev t)) by (now rewrite forallb_rev).
    rewrite rev_app_distr. reflexivity.
Qed.

Lemma strip_sides_commute (s : str) : rstrip (lstrip s) = lstrip (rstrip s).
Proof.
  induction s as [|c t IH]; [reflexivity|].
  rewrite (rstrip_cons c t). simpl lstrip at 1.
  destruct (isspace c) eqn:E.
  - rewrite IH. destruct (rstrip t) as [|x r] eqn:R; simpl.
    + reflexivity.
    + rewrite E. reflexivity.
  - rewrite rstrip_cons.
    destruct (truthy (rstrip t)); simpl; rewrite E; reflexivity.
Qed.

Lemma strip_rev (s : str) : strip (rev s) = rev (strip s).
Proof.
  unfold strip. rewrite (strip_sides_commute s).
  unfold rstrip. reflexivity.
Qed.

Lemma strip_space_cons (c : char) (s : str) :
  isspace c = true -> strip (c :: s) = strip s.
Proof. intros E. unfold strip. simpl. rewrite E. reflexivity. Qed.

Lemma split_nonempty (sep : char) (s : str) : split sep s <> [].
Proof.
  destruct s as [|c t]; simpl; [discriminate|].
  destruct (char_eqb c sep); [discriminate|].
  destruct (split sep t); discriminate.
Qed.

Lemma split_snoc_sep (sep : char) (s : str) :
  split sep (s ++ [sep]) = split sep s ++ [[]].
Proof.
  induction s as [|c t IH]; simpl.
  - unfold char_eqb. rewrite N.eqb_refl. reflexivity.
  - destruct (char_eqb c sep); rewrite IH; [reflexivity|].
    destruct (split sep t) eqn:S; [now apply split_nonempty in S|reflexivity].
Qed.

Lemma split_snoc_other (sep c : char) (s : str) :
  char_eqb c sep = false ->
  split sep (s ++ [c]) =
  removelast (split sep s) ++ [last (split sep s) [] ++ [c]].
Proof.
  intros E. induction s as [|x t IH].
  - simpl. rewrite E. reflexivity.
  - simpl app. simpl split. rewrite IH.
    destruct (split sep t) as [|h r] eqn:S; [now apply split_nonempty in S|].
    destruct (char_eqb x sep).
    + reflexivity.
    + destruct r as [|h' r']; reflexivity.
Qed.

Lemma split_rev (sep : char) (s : str) :
  split sep (rev s) = rev (map (@rev char) (split sep s)).
Proof.
  induction s as [|c t IH]; [reflexivity|].
  simpl rev at 1. simpl split.
  destruct (char_eqb c sep) eqn:E.
  - apply N.eqb_eq in E. subst c. rewrite split_snoc_sep, IH. reflexivity.
  - rewrite (split_snoc_other sep c (rev t) E), IH.
    destruct (split sep t) as [|h r] eqn:S; [now apply split_nonempty in S|].
    simpl. rewrite removelast_last, last_last. reflexivity.
Qed.

Lemma kept_rev (lines : list str) :
  kept (rev (map (@rev char) lines)) = rev (map (@rev char) (kept lines)).
Proof.
  unfold kept. induction lines as [|l r IH]; [reflexivity|].
  cbn [map rev]. rewrite map_app, filter_app, IH.
  cbn [map filter]. rewrite strip_rev, truthy_rev.
  destruct (truthy (strip l)); cbn [map rev]; [reflexivity | apply app_nil_r].
Qed.

Lemma kept_lstrip (s : str) :
  kept (split Transcriber.newline (lstrip s)) = kept (split Transcriber.newline s).
Proof.
  induction s as [|c t IH]; [reflexivity|].
  simpl lstrip. destruct (isspace c) eqn:E; [|reflexivity].
  rewrite IH. simpl split.
  destruct (char_eqb c Transcriber.newline); [reflexivity|].
  destruct (split Transcriber.newline t) as [|h r]; unfold kept; simpl.
  - unfold strip. simpl. rewrite E. reflexivity.
  - rewrite (strip_space_cons c h E). reflexivity.
Qed.

Lemma kept_rstrip (s : str) :
  kept (split Transcriber.newline (rstrip s)) = kept (split Transcriber.newline s).
Proof.
  unfold rstrip. rewrite split_rev, kept_rev, kept_lstrip.
  rewrite <- kept_rev, <- split_rev, rev_involutive. reflexivity.
Qed.

Lemma filter_then_strip (lines : list str) :
  map strip (filter (fun line => truthy (strip line)) lines) = kept lines.
Proof.
  unfold kept. induction lines as [|l r IH]; [reflexivity|].
  simpl. destruct (truthy (strip l)); simpl; rewrite IH; reflexivity.
Qed.

End StringFacts.

(* ================================================================== *)
(** * Output normalization *)
(* ================================================================== *)

(** C5.  Whatever the engine prints, [Transcriber.clean] (lines 41-43 of
    transcriber.py) gives the text obtained by trimming each line, dropping
    the lines that are empty once trimmed and joining the others with one
    space; the output made of the line [Hello], the line [  world  ] and two
    empty lines becomes exactly [Hello world]. *)
Theorem clean_normalizes :
  (forall stdout : str, Transcriber.clean stdout = Spec.normalize stdout)
  /\ Transcriber.clean
       (lit "Hello" ++ [Transcriber.newline] ++ lit "  world  "
        ++ [Transcriber.newline; Transcriber.newline])
     = lit "Hello world".
Proof.
  split.
  - intros stdout. unfold Transcriber.clean, Spec.normalize.
    rewrite filter_then_strip. unfold strip at 1.
    rewrite kept_rstrip, kept_lstrip. reflexivity.
  - vm_compute. reflexivity.
Qed.

(* ================================================================== *)
(** * The transcription step *)
(* ================================================================== *)

Section TranscriptionStep.

Import Subprocess.

(** [RecorderState.transcribe] of server.py always returns, within the 120
    seconds it grants the engine, and a missing engine, an engine that runs
    longer and a non-zero return code all give [None], which the endpoints
    read as "no speech". *)
Lemma server_transcribe_contained (engine : process) :
  (exists r, Server.transcribe engine = Returns r)
  /\ (found engine = false -> Server.transcribe engine = Returns None)
  /\ (seconds engine = None -> Server.transcribe engine = Returns None)
  /\ (forall d, seconds engine = Some d -> Qle_bool d (120 # 1) = false ->
      Server.transcribe engine = Returns None)
  /\ (forall d, found engine = true -> seconds engine = Some d ->
      Qle_bool d (120 # 1) = true ->
      (returncode (completed engine) =? 0)%Z = false ->
      Server.transcribe engine = Returns None).
Proof.
  unfold Server.transcribe, run.
  destruct engine as [f s c]; simpl.
  destruct f, s as [d|]; simpl;
    try destruct (Qle_bool d (120 # 1)) eqn:L;
    try destruct (returncode c =? 0)%Z eqn:R; simpl;
    repeat split; intros;
    repeat match goal with
           | H : Some _ = Some _ |- _ => injection H as <-
           end;
    try discriminate; try congruence; eauto.
Qed.

(** C4.  [transcribe] of transcriber.py, the one app.py calls, is not
    contained in that way: it hands [subprocess.run] no timeout, so an
    engine that never exits blocks it for ever; it raises
    [FileNotFoundError] when the model file is missing and when the command
    cannot be launched.  Only a non-zero return code gives the empty text. *)
Theorem transcriber_transcribe_escapes :
  (forall engine, Transcriber.transcribe false engine = Raises FileNotFoundError)
  /\ (forall c, Transcriber.transcribe true (mkProcess true None c) = Hangs)
  /\ (forall d c, Transcriber.transcribe true (mkProcess false d c)
                  = Raises FileNotFoundError)
  /\ (forall d c, (returncode c =? 0)%Z = false ->
        Transcriber.transcribe true (mkProcess true (Some d) c) = Returns (lit "")).
Proof.
  repeat split; intros; unfold Transcriber.transcribe, run; simpl; try reflexivity.
  rewrite H. reflexivity.
Qed.

End TranscriptionStep.

(* ================================================================== *)
(** * The review popup *)
(* ================================================================== *)

Section PopupFacts.

Lemma str_eqb_eq (a b : str) : str_eqb a b = true <-> a = b.
Proof.
  revert b. induction a as [|x a IH]; intros [|y b]; simpl;
    try (split; [discriminate | discriminate]); [tauto|].
  unfold char_eqb. rewrite andb_true_iff, N.eqb_eq, IH.
  split; [intros [-> ->]; reflexivity | intros H; injection H; auto].
Qed.

Lemma handle_result_ok (p : Popup.t) (e : Popup.event) :
  Popup.result_ok (Popup.original_text p) (Popup.result_ p) ->
  Popup.result_ok (Popup.original_text (Popup.handle p e)) (Popup.result_ (Popup.handle p e))
  /\ Popup.original_text (Popup.handle p e) = Popup.original_text p.
Proof.
  intros H. destruct e as [k f typed| |content]; simpl; unfold Popup.keyDown_.
  - destruct ((k =? 36)%Z && (Z.land f Popup.shift_flag =? 0)%Z).
    + split; [right; simpl; auto | reflexivity].
    + destruct (k =? 53)%Z; simpl; split; auto. left; auto.
  - split; [right; simpl; auto | reflexivity].
  - split; auto.
Qed.

Lemma runModal_result_ok (events : list Popup.event) (p : Popup.t) :
  Popup.result_ok (Popup.original_text p) (Popup.result_ p) ->
  Popup.result_ok (Popup.original_text p) (Popup.result_ (Popup.runModal p events)).
Proof.
  revert p. induction events as [|e rest IH]; intros p H; simpl; [exact H|].
  destruct (Popup.modal p); [|exact H].
  destruct (handle_result_ok p e H) as [H1 H2].
  rewrite <- H2. apply IH. exact H1.
Qed.

(** As long as no event confirms, the dictionary keeps the action [cancel]. *)
Lemma runModal_unconfirmed (events : list Popup.event) (p : Popup.t) :
  Forall (fun e => Popup.confirms e = false) events ->
  Popup.action (Popup.result_ p) = lit "cancel" ->
  Popup.action (Popup.result_ (Popup.runModal p events)) = lit "cancel".
Proof.
  revert p. induction events as [|e rest IH]; intros p F H; simpl; [exact H|].
  destruct (Popup.modal p); [|exact H].
  inversion F as [|? ? Fe Frest]; subst. apply IH; [exact Frest|].
  destruct e as [k f typed| |content]; simpl in *; try discriminate; auto.
  unfold Popup.keyDown_. rewrite Fe.
  destruct (k =? 53)%Z; simpl; auto.
Qed.

End PopupFacts.

(** C10.  Whatever the user does in the popup, [was_edited] in the returned
    dictionary is true exactly when the returned text differs from the text
    that was presented; and when no event confirmed (the popup ended by
    Escape, or without Done), the dictionary has the action [cancel], the
    presented text and [was_edited] false. *)
Theorem popup_edited_flag (transcription : str) (events : list Popup.event) :
  let r := Popup.show transcription events in
  (Popup.was_edited r = true <-> Popup.text r <> transcription)
  /\ (Forall (fun e => Popup.confirms e = false) events ->
      Popup.action r = lit "cancel" /\ Popup.text r = transcription
      /\ Popup.was_edited r = false).
Proof.
  set (p0 := Popup.mkPopup transcription
               (Popup.mkResult (lit "cancel") transcription false (Some false))
               transcription true).
  assert (OK : Popup.result_ok transcription (Popup.result_ (Popup.runModal p0 events))).
  { apply (runModal_result_ok events p0). left. simpl. auto. }
  unfold Popup.show. fold p0. cbv zeta. split.
  - destruct OK as [(_ & T & E) | (_ & E)]; rewrite E.
    + split; [discriminate | intros H; now elim H].
    + rewrite negb_true_iff, <- not_true_iff_false, str_eqb_eq. tauto.
  - intros F.
    pose proof (runModal_unconfirmed events p0 F eq_refl) as A.
    destruct OK as [(_ & T & E) | (D & _)]; [auto|].
    rewrite D in A. discriminate A.
Qed.

(** The Escape key in a popup whose text was changed. *)
Lemma popup_edited_flag_witness :
  let r := Popup.show (lit "hello")
             [Popup.Edit (lit "hello there"); Popup.KeyDown 53 0 (lit "")] in
  Popup.action r = lit "cancel" /\ Popup.text r = lit "hello"
  /\ Popup.was_edited r = false.
Proof.
  apply (proj2 (popup_edited_flag (lit "hello")
                  [Popup.Edit (lit "hello there"); Popup.KeyDown 53 0 (lit "")])).
  repeat constructor.
Defined.

(* ================================================================== *)
(** * Modifier matching *)
(* ================================================================== *)

Section ModifierFacts.

Import PanokeetV3.

Lemma check_modifiers_cons (flags : Z) (m0 : str) (rest : list str) :
  check_modifiers flags (m0 :: rest) =
  implb (str_eqb m0 (lit "cmd")) (has flags NSCommandKeyMask)
  && implb (str_eqb m0 (lit "shift")) (has flags NSShiftKeyMask)
  && implb (str_eqb m0 (lit "opt")) (has flags NSAlternateKeyMask)
  && implb (str_eqb m0 (lit "ctrl")) (has flags NSControlKeyMask)
  && check_modifiers flags rest.
Proof.
  cbn [check_modifiers]. cbv zeta.
  generalize (check_modifiers flags rest) as k.
  generalize (str_eqb m0 (lit "cmd")) as e1, (has flags NSCommandKeyMask) as h1,
    (str_eqb m0 (lit "shift")) as e2, (has flags NSShiftKeyMask) as h2,
    (str_eqb m0 (lit "opt")) as e3, (has flags NSAlternateKeyMask) as h3,
    (str_eqb m0 (lit "ctrl")) as e4, (has flags NSControlKeyMask) as h4.
  intros. destruct e1, h1, e2, h2, e3, h3, e4, h4; reflexivity.
Qed.

Lemma all_pressed_cons (flags : Z) (m0 : str) (rest : list str) :
  all_pressed flags (m0 :: rest) =
  implb (str_eqb m0 (lit "cmd")) (has flags NSCommandKeyMask)
  && implb (str_eqb m0 (lit "shift")) (has flags NSShiftKeyMask)
  && implb (str_eqb m0 (lit "opt")) (has flags NSAlternateKeyMask)
  && implb (str_eqb m0 (lit "ctrl")) (has flags NSControlKeyMask)
  && all_pressed flags rest.
Proof.
  unfold all_pressed, modifiers, requires, pressed.
  cbn [forallb existsb name mask].
  generalize (str_eqb m0 (lit "cmd")) as e1, (has flags NSCommandKeyMask) as h1,
    (str_eqb m0 (lit "shift")) as e2, (has flags NSShiftKeyMask) as h2,
    (str_eqb m0 (lit "opt")) as e3, (has flags NSAlternateKeyMask) as h3,
    (str_eqb m0 (lit "ctrl")) as e4, (has flags NSControlKeyMask) as h4,
    (existsb (fun r : list N => str_eqb r (lit "cmd")) rest) as r1,
    (existsb (fun r : list N => str_eqb r (lit "shift")) rest) as r2,
    (existsb (fun r : list N => str_eqb r (lit "opt")) rest) as r3,
    (existsb (fun r : list N => str_eqb r (lit "ctrl")) rest) as r4.
  intros. destruct e1, h1, e2, h2, e3, h3, e4, h4, r1, r2, r3, r4; reflexivity.
Qed.

Lemma check_modifiers_all_pressed (flags : Z) (required_mods : list str) :
  check_modifiers flags required_mods = all_pressed flags required_mods.
Proof.
  induction required_mods as [|m0 rest IH]; [reflexivity|].
  rewrite check_modifiers_cons, all_pressed_cons, IH. reflexivity.
Qed.

End ModifierFacts.

(** C8, as the code has it.  A key event matches a binding of
    panokeet_v3.py when the keycode is the binding's and every modifier the
    binding names is held; modifiers held in addition do not prevent the
    match, and a binding that names no modifier matches its keycode
    whatever the modifier state. *)
Theorem modifiers_required_are_pressed
  (cfg : PanokeetV3.config) (event : PanokeetV3.NSEvent) :
  (PanokeetV3.is_toggle cfg event = true <->
     PanokeetV3.keyCode event = PanokeetV3.toggle_key cfg
     /\ forall m, PanokeetV3.requires (PanokeetV3.toggle_mods cfg) m = true ->
                  PanokeetV3.pressed (PanokeetV3.modifierFlags event) m = true)
  /\ (PanokeetV3.is_hold cfg event = true <->
     PanokeetV3.keyCode event = PanokeetV3.hold_key cfg
     /\ forall m, PanokeetV3.requires (PanokeetV3.hold_mods cfg) m = true ->
                  PanokeetV3.pressed (PanokeetV3.modifierFlags event) m = true)
  /\ (PanokeetV3.toggle_mods cfg = [] ->
      PanokeetV3.is_toggle cfg event = true <->
      PanokeetV3.keyCode event = PanokeetV3.toggle_key cfg).
Proof.
  assert (A : forall flags mods,
             PanokeetV3.check_modifiers flags mods = true <->
             forall m, PanokeetV3.requires mods m = true ->
                       PanokeetV3.pressed flags m = true).
  { intros flags mods. rewrite check_modifiers_all_pressed.
    unfold PanokeetV3.all_pressed. rewrite forallb_forall. split.
    - intros H m R. specialize (H m). rewrite R in H. apply H.
      destruct m; simpl; auto.
    - intros H m _. destruct (PanokeetV3.requires mods m) eqn:R; [|reflexivity].
      simpl. apply H. exact R. }
  unfold PanokeetV3.is_toggle, PanokeetV3.is_hold.
  rewrite !andb_true_iff, !Z.eqb_eq, !A.
  split; [tauto|]. split; [tauto|].
  intros E. rewrite E. split; [tauto|].
  intros K. split; [exact K|]. intros m R. discriminate R.
Qed.

(** Command alone is bound; Command and Shift are held. *)
Lemma modifiers_required_are_pressed_witness :
  let cfg := PanokeetV3.mkConfig 89 [] 91 [lit "cmd"] in
  let event := PanokeetV3.mkEvent 89
                 (Z.lor PanokeetV3.NSCommandKeyMask PanokeetV3.NSShiftKeyMask) in
  PanokeetV3.is_toggle cfg event = true <->
  PanokeetV3.keyCode event = PanokeetV3.toggle_key cfg.
Proof.
  cbv zeta.
  apply (proj2 (proj2 (modifiers_required_are_pressed
                         (PanokeetV3.mkConfig 89 [] 91 [lit "cmd"])
                         (PanokeetV3.mkEvent 89
                            (Z.lor PanokeetV3.NSCommandKeyMask
                                   PanokeetV3.NSShiftKeyMask))))).
  reflexivity.
Defined.

(** The binding names Command; the event carries Command and Shift: the
    sets differ and the event matches all the same. *)
Lemma extra_modifier_still_matches :
  let cfg := PanokeetV3.mkConfig 89 [lit "cmd"] 91 [lit "cmd"] in
  let event := PanokeetV3.mkEvent 89
                 (Z.lor PanokeetV3.NSCommandKeyMask PanokeetV3.NSShiftKeyMask) in
  PanokeetV3.toggle_mods cfg <> []
  /\ PanokeetV3.same_set (PanokeetV3.modifierFlags event)
                         (PanokeetV3.toggle_mods cfg) = false
  /\ PanokeetV3.is_toggle cfg event = true.
Proof.
  cbv zeta. split; [discriminate|]. split; vm_compute; reflexivity.
Qed.

(* ================================================================== *)
(** * Entry numbers and file names *)
(* ================================================================== *)

Section NumberFacts.

Lemma uint_chars_numeral (d : Decimal.uint) :
  forallb numeral_char (uint_chars d) = true.
Proof. induction d; simpl; auto. Qed.

Lemma parse_uint_chars (d : Decimal.uint) : parse_uint (uint_chars d) = Some d.
Proof. induction d; simpl; try rewrite IHd; reflexivity. Qed.

Lemma to_uint_not_nil (n : N) : N.to_uint n <> Decimal.Nil.
Proof.
  destruct n as [|p]; simpl; [discriminate|].
  apply DecimalPos.Unsigned.to_uint_nonnil.
Qed.

Lemma str_of_N_not_empty (n : N) : str_of_N n <> [].
Proof.
  unfold str_of_N. pose proof (to_uint_not_nil n) as H.
  destruct (N.to_uint n); simpl; congruence.
Qed.

Lemma parse_uint_zeros (k : nat) (s : str) (d : Decimal.uint) :
  parse_uint s = Some d ->
  exists d', parse_uint (repeat (digit_char 0) k ++ s) = Some d'
             /\ N.of_uint d' = N.of_uint d.
Proof.
  intros H. induction k as [|k [d' [P E]]]; simpl.
  - exists d. auto.
  - rewrite P. exists (Decimal.D0 d'). split; [reflexivity|exact E].
Qed.

Lemma zfill_not_empty (w : nat) (s : str) : s <> [] -> zfill w s <> [].
Proof.
  unfold zfill. intros H E. apply app_eq_nil in E. tauto.
Qed.

Lemma parse_digits_zfill (w : nat) (n : N) :
  parse_digits (zfill w (str_of_N n)) = Some n.
Proof.
  unfold parse_digits.
  destruct (zfill w (str_of_N n)) as [|c t] eqn:Z.
  - exfalso. revert Z. apply zfill_not_empty, str_of_N_not_empty.
  - rewrite <- Z. unfold zfill, str_of_N.
    destruct (parse_uint_zeros (w - length (uint_chars (N.to_uint n)))
                (uint_chars (N.to_uint n)) (N.to_uint n)
                (parse_uint_chars _)) as [d' [P E]].
    rewrite P. simpl. rewrite E, DecimalN.Unsigned.of_to. reflexivity.
Qed.

Lemma zfill_numeral (w : nat) (n : N) :
  forallb numeral_char (zfill w (str_of_N n)) = true.
Proof.
  unfold zfill, str_of_N. rewrite forallb_app, uint_chars_numeral, andb_true_r.
  induction (w - length (uint_chars (N.to_uint n)))%nat; simpl; auto.
Qed.

Lemma format_06d_numeral (n : Z) : forallb numeral_char (format_06d n) = true.
Proof.
  unfold format_06d. destruct (n <? 0)%Z; simpl; apply zfill_numeral.
Qed.

Lemma format_06d_not_empty (n : Z) : format_06d n <> [].
Proof.
  unfold format_06d. destruct (n <? 0)%Z; [discriminate|].
  apply zfill_not_empty, str_of_N_not_empty.
Qed.

Lemma numeral_not_space (c : char) : numeral_char c = true -> isspace c = false.
Proof.
  unfold numeral_char, isspace. intros H.
  apply orb_true_iff in H. destruct H as [H|H].
  - apply andb_true_iff in H. destruct H as [A B].
    apply N.leb_le in A, B.
    repeat (apply orb_false_iff; split);
      try (apply andb_false_iff);
      try (apply N.eqb_neq; lia);
      try (right; apply N.leb_gt; lia);
      try (left; apply N.leb_gt; lia).
  - apply N.eqb_eq in H. subst c. reflexivity.
Qed.

Lemma lstrip_numeral (s : str) : forallb numeral_char s = true -> lstrip s = s.
Proof.
  destruct s as [|c t]; simpl; [reflexivity|].
  intros H. apply andb_true_iff in H. destruct H as [H _].
  rewrite (numeral_not_space c H). reflexivity.
Qed.

Lemma strip_numeral (s : str) : forallb numeral_char s = true -> strip s = s.
Proof.
  intros H. unfold strip, rstrip. rewrite (lstrip_numeral s H).
  rewrite lstrip_numeral by (rewrite forallb_rev; exact H).
  apply rev_involutive.
Qed.

(** [int] reads back what [{n:06d}] wrote. *)
Lemma int_format_06d (n : Z) : int (format_06d n) = Returns n.
Proof.
  unfold int. rewrite (strip_numeral _ (format_06d_numeral n)).
  unfold format_06d. destruct (n <? 0)%Z eqn:S.
  - simpl. rewrite parse_digits_zfill. simpl.
    apply Z.ltb_lt in S. f_equal. rewrite Z2N.id by lia. lia.
  - apply Z.ltb_ge in S.
    pose proof (parse_digits_zfill 6 (Z.to_N n)) as P.
    pose proof (zfill_numeral 6 (Z.to_N n)) as F.
    destruct (zfill 6 (str_of_N (Z.to_N n))) as [|c t] eqn:Z; [discriminate P|].
    assert (D : exists k, digit_cons c = Some k).
    { unfold parse_digits in P. simpl in P.
      destruct (digit_cons c); [eauto | discriminate P]. }
    destruct D as [k D].
    assert (C1 : char_eqb c 45%N = false).
    { unfold char_eqb. apply N.eqb_neq. intros ->. discriminate D. }
    assert (C2 : char_eqb c 43%N = false).
    { unfold char_eqb. apply N.eqb_neq. intros ->. discriminate D. }
    rewrite C1, C2, P. simpl. rewrite Z2N.id by lia. reflexivity.
Qed.

End NumberFacts.

Section FileNameFacts.

Lemma startswith_app (p s : str) : startswith p (p ++ s) = true.
Proof.
  induction p as [|c p IH]; simpl; [reflexivity|].
  unfold char_eqb. rewrite N.eqb_refl. exact IH.
Qed.

Lemma endswith_app (p s : str) : endswith p (s ++ p) = true.
Proof. unfold endswith. rewrite rev_app_distr. apply startswith_app. Qed.

Lemma rfind_last (c : char) (y z : str) :
  rfind c z = None -> rfind c (y ++ c :: z) = Some (length y).
Proof.
  intros H. induction y as [|x y IH]; simpl.
  - rewrite H. unfold char_eqb. rewrite N.eqb_refl. reflexivity.
  - rewrite IH. reflexivity.
Qed.

Lemma firstn_length_app (y z : str) : firstn (length y) (y ++ z) = y.
Proof. induction y as [|x y IH]; simpl; [reflexivity | now rewrite IH]. Qed.

Lemma stem_wav (y : str) : y <> [] -> DataDir.stem (y ++ lit ".wav") = y.
Proof.
  intros H. unfold DataDir.stem.
  change (lit ".wav") with (46%N :: lit "wav").
  rewrite rfind_last by reflexivity.
  rewrite length_app. simpl length.
  assert (L : (0 < length y)%nat) by (destruct y; simpl; [congruence | lia]).
  replace ((0 <? length y)%nat) with true by (symmetry; apply Nat.ltb_lt; lia).
  replace ((length y <? length y + 4 - 1)%nat) with true
    by (symmetry; apply Nat.ltb_lt; lia).
  simpl. apply firstn_length_app.
Qed.

Lemma split_no_sep (sep : char) (s : str) :
  forallb (fun c => negb (char_eqb c sep)) s = true -> split sep s = [s].
Proof.
  induction s as [|c t IH]; simpl; [reflexivity|].
  intros H. apply andb_true_iff in H. destruct H as [H1 H2].
  apply negb_true_iff in H1. rewrite H1, (IH H2). reflexivity.
Qed.

Lemma numeral_no_underscore (s : str) :
  forallb numeral_char s = true ->
  forallb (fun c => negb (char_eqb c 95%N)) s = true.
Proof.
  intros H. rewrite forallb_forall in *. intros c I. specialize (H c I).
  apply negb_true_iff. unfold char_eqb. apply N.eqb_neq. intros ->.
  discriminate H.
Qed.

Lemma matches_wav (n : Z) : DataDir.matches (DataDir.audio_name n (lit ".wav")) = true.
Proof.
  unfold DataDir.matches, DataDir.audio_name.
  rewrite startswith_app. rewrite app_assoc, endswith_app.
  cbn [andb]. apply Nat.leb_le. rewrite !length_app.
  change (length (lit "audio_")) with 6%nat.
  change (length (lit ".wav")) with 4%nat. lia.
Qed.

Lemma no_match_other (y : str) (c1 c2 c3 : char) :
  char_eqb 118%N c3 = false ->
  DataDir.matches (y ++ [46%N; c1; c2; c3]) = false.
Proof.
  intros H. unfold DataDir.matches, endswith.
  rewrite rev_app_distr.
  change (rev (lit ".wav")) with [118; 97; 119; 46]%N.
  cbn [rev app startswith]. rewrite H. cbn [andb].
  rewrite andb_false_r. reflexivity.
Qed.

Lemma no_match_txt (n : Z) :
  DataDir.matches (DataDir.audio_name n (lit ".txt")) = false.
Proof.
  unfold DataDir.audio_name. rewrite app_assoc.
  apply (no_match_other _ 116%N 120%N 116%N). reflexivity.
Qed.

Lemma no_match_raw (n : Z) :
  DataDir.matches (DataDir.audio_name n (lit "_raw.txt")) = false.
Proof.
  unfold DataDir.audio_name.
  change (lit "_raw.txt") with (lit "_raw" ++ [46; 116; 120; 116]%N).
  rewrite !app_assoc.
  apply (no_match_other _ 116%N 120%N 116%N). reflexivity.
Qed.

(** The number read from a name written by [save_training_data]. *)
Lemma number_wav (n : Z) :
  DataDir.number (DataDir.audio_name n (lit ".wav")) = Returns n.
Proof.
  unfold DataDir.number, DataDir.audio_name.
  rewrite app_assoc, stem_wav by discriminate.
  change (lit "audio_") with ([97; 117; 100; 105; 111; 95]%N).
  cbn [app split char_eqb N.eqb Pos.eqb].
  rewrite split_no_sep
    by (apply numeral_no_underscore, format_06d_numeral).
  apply int_format_06d.
Qed.

Lemma numbered_wav (n : Z) :
  (0 <= n)%Z ->
  DataDir.numbered (DataDir.audio_name n (lit ".wav")) = Returns true.
Proof.
  intros H. unfold DataDir.numbered, DataDir.audio_name.
  rewrite app_assoc, stem_wav by discriminate.
  change (lit "audio_") with ([97; 117; 100; 105; 111; 95]%N).
  cbn [app split char_eqb N.eqb Pos.eqb].
  rewrite split_no_sep
    by (apply numeral_no_underscore, format_06d_numeral).
  unfold isdigit, format_06d.
  replace (n <? 0)%Z with false by (symmetry; apply Z.ltb_ge; lia).
  rewrite parse_digits_zfill. reflexivity.
Qed.

Lemma audio_name_inj (n m : Z) :
  DataDir.audio_name n (lit ".wav") = DataDir.audio_name m (lit ".wav") -> n = m.
Proof.
  intros H. pose proof (number_wav n) as A. rewrite H, number_wav in A.
  congruence.
Qed.

Lemma comprehension_numbers (ids : list Z) :
  DataDir.comprehension DataDir.number
    (map (fun i => DataDir.audio_name i (lit ".wav")) ids) = Returns ids.
Proof.
  induction ids as [|i r IH]; simpl; [reflexivity|].
  rewrite number_wav, IH. reflexivity.
Qed.

Lemma server_nums (ids : list Z) :
  Forall (fun i => (1 <= i)%Z) ids ->
  Server.nums (map (fun i => DataDir.audio_name i (lit ".wav")) ids) = Returns ids.
Proof.
  induction 1 as [|i r H F IH]; simpl; [reflexivity|].
  rewrite numbered_wav by lia. rewrite number_wav, IH. reflexivity.
Qed.

Lemma fold_max_spec (r : list Z) (x : Z) :
  In (fold_left Z.max r x) (x :: r)
  /\ forall i, In i (x :: r) -> (i <= fold_left Z.max r x)%Z.
Proof.
  revert x. induction r as [|y r IH]; intros x; simpl.
  - split; [auto | intros i [<-|[]]; lia].
  - destruct (IH (Z.max x y)) as [I L]. split.
    + destruct I as [E|I]; [|auto].
      rewrite <- E. destruct (Z.max_spec x y) as [[_ ->]|[_ ->]]; auto.
    + intros i [<-|[<-|I']].
      * specialize (L (Z.max x y) (or_introl eq_refl)). lia.
      * specialize (L (Z.max x y) (or_introl eq_refl)). lia.
      * apply L. right. exact I'.
Qed.

End FileNameFacts.

Section SaveFacts.

Lemma existsb_nat_in (p : nat) (l : list nat) :
  In p l -> existsb (Nat.eqb p) l = true.
Proof.
  intros H. apply existsb_exists. exists p. split; [exact H|apply Nat.eqb_refl].
Qed.

Lemma existsb_name_in (name : str) (d : list str) :
  existsb (str_eqb name) d = true <-> In name d.
Proof.
  rewrite existsb_exists. split.
  - intros [x [I E]]. apply str_eqb_eq in E. subst x. exact I.
  - intros I. exists name. split; [exact I|]. apply str_eqb_eq. reflexivity.
Qed.

Lemma glob_add_name_other (name : str) (d : list str) :
  DataDir.matches name = false ->
  DataDir.glob (Host.add_name name d) = DataDir.glob d.
Proof.
  intros H. unfold Host.add_name, DataDir.glob.
  destruct (existsb (str_eqb name) d); [reflexivity|].
  rewrite filter_app. simpl. rewrite H. apply app_nil_r.
Qed.

Lemma glob_add_name_new (name : str) (d : list str) :
  DataDir.matches name = true -> ~ In name d ->
  DataDir.glob (Host.add_name name d) = DataDir.glob d ++ [name].
Proof.
  intros H N. unfold Host.add_name, DataDir.glob.
  destruct (existsb (str_eqb name) d) eqn:E.
  - apply existsb_name_in in E. contradiction.
  - rewrite filter_app. simpl. rewrite H. reflexivity.
Qed.

(** Both ways of computing the next number, on a folder whose audio files
    are those of the entries [ids]. *)
Lemma next_number_spec (d : list str) (ids : list Z) :
  Forall (fun i => (1 <= i)%Z) ids ->
  DataDir.glob d = map (fun i => DataDir.audio_name i (lit ".wav")) ids ->
  exists num,
    App.next_number d = Returns num
    /\ Server.next_number d = Returns num
    /\ (ids = [] -> num = 1%Z)
    /\ (ids <> [] -> In (num - 1)%Z ids)
    /\ (forall i, In i ids -> (i < num)%Z).
Proof.
  intros F G. unfold App.next_number, Server.next_number. rewrite G.
  rewrite (server_nums ids F).
  destruct ids as [|x r].
  - exists 1%Z. simpl. repeat split; auto; try contradiction.
  - cbn [map]. rewrite <- (map_cons (fun i => DataDir.audio_name i (lit ".wav"))).
    rewrite comprehension_numbers. cbn [Py.max Py.max_default].
    exists (fold_left Z.max r x + 1)%Z.
    destruct (fold_max_spec r x) as [I L].
    repeat split; auto.
    + discriminate.
    + intros _. replace (fold_left Z.max r x + 1 - 1)%Z
        with (fold_left Z.max r x) by lia. exact I.
    + intros i Hi. specialize (L i Hi). lia.
Qed.

(** Two saves in a row are numbered one after the other. *)
Lemma consecutive_numbers (d d' : list str) (ids : list Z) (num : Z) :
  Forall (fun i => (1 <= i)%Z) ids ->
  DataDir.glob d = map (fun i => DataDir.audio_name i (lit ".wav")) ids ->
  App.next_number d = Returns num ->
  DataDir.glob d' = DataDir.glob d ++ [DataDir.audio_name num (lit ".wav")] ->
  App.next_number d' = Returns (num + 1)%Z.
Proof.
  intros F G A G'.
  destruct (next_number_spec d ids F G) as (n0 & A0 & _ & E & I & L).
  rewrite A in A0. injection A0 as <-.
  assert (P : (1 <= num)%Z).
  { destruct ids as [|x r]; [rewrite E; [lia|reflexivity]|].
    assert (X : In (num - 1)%Z (x :: r)) by (apply I; discriminate).
    rewrite Forall_forall in F. specialize (F _ X). lia. }
  assert (F' : Forall (fun i => (1 <= i)%Z) (ids ++ [num])).
  { apply Forall_app. split; [exact F|]. constructor; [exact P|constructor]. }
  assert (G'' : DataDir.glob d'
                = map (fun i => DataDir.audio_name i (lit ".wav")) (ids ++ [num])).
  { rewrite G', G, map_app. reflexivity. }
  destruct (next_number_spec d' (ids ++ [num]) F' G'')
    as (n1 & A1 & _ & _ & I1 & L1).
  rewrite A1. f_equal.
  assert (X : In (n1 - 1)%Z (ids ++ [num])).
  { apply I1. destruct ids; discriminate. }
  assert (Y : In num (ids ++ [num])) by (apply in_or_app; right; left; reflexivity).
  specialize (L1 num Y).
  apply in_app_or in X. destruct X as [X|[X|[]]]; [|lia].
  specialize (L _ X). lia.
Qed.

Lemma no_match_json (n : Z) :
  DataDir.matches (DataDir.audio_name n (lit ".json")) = false.
Proof.
  unfold DataDir.audio_name, DataDir.matches, endswith.
  rewrite !rev_app_distr.
  change (rev (lit ".json")) with [110; 111; 115; 106; 46]%N.
  change (rev (lit ".wav")) with [118; 97; 119; 46]%N.
  cbn [app startswith char_eqb N.eqb Pos.eqb andb].
  rewrite andb_false_r. reflexivity.
Qed.

(** [POST /save] of server.py while the temporary file of a recording is
    pending. *)
Lemma server_save_pending (ids : list Z) (h : Host.t) (p : nat)
  (r : Backend.RecorderState) (num : Z) :
  DataDir.glob (Host.data_dir h)
    = map (fun i => DataDir.audio_name i (lit ".wav")) ids ->
  Server.next_number (Host.data_dir h) = Returns num ->
  ~ In (DataDir.audio_name num (lit ".wav")) (Host.data_dir h) ->
  Host.disk_ok h = true ->
  In p (Host.tmp_files h) ->
  Backend.temp_audio_path r = Some p ->
  exists s,
    Backend.save_transcript (r, h) = (Returns (Backend.Saved num), s)
    /\ DataDir.glob (Host.data_dir (snd s))
       = map (fun i => DataDir.audio_name i (lit ".wav")) (ids ++ [num]).
Proof.
  destruct r as [rec ad st tp lt ld], h as [dev live ns tmp nt dk dd mf].
  cbn [Host.data_dir Host.disk_ok Host.tmp_files Backend.temp_audio_path].
  intros G N Fresh -> T ->.
  pose proof (existsb_nat_in _ _ T) as X.
  unfold Backend.save_transcript, bind at 1, get. cbn [snd Host.data_dir].
  unfold bind at 1, call. rewrite N.
  cbn [fst snd Backend.temp_audio_path Host.tmp_files]. rewrite X.
  cbv [bind ret modify zoom Backend.host Backend.set_self Host.move
       Host.write_file Host.set_data_dir Host.remove_tmp Host.set_tmp_files
       fst snd Backend.recording Backend.audio_data Backend.stream
       Backend.temp_audio_path Backend.last_transcript Backend.last_duration
       Host.device Host.live Host.next_stream Host.tmp_files Host.next_tmp
       Host.disk_ok Host.data_dir Host.manifest].
  rewrite X. cbv [negb].
  eexists. split; [reflexivity|].
  cbv [snd Host.data_dir].
  rewrite (glob_add_name_other _ _ (no_match_txt num)).
  rewrite (glob_add_name_other _ _ (no_match_json num)).
  rewrite (glob_add_name_new _ _ (matches_wav num) Fresh).
  rewrite G, map_app. reflexivity.
Qed.

End SaveFacts.

(** C6, as the code has it.  In a folder whose audio files are those of
    the entries [ids], saving gives the new entry the number 1 + the largest
    of [ids] (1 when there is none), computed from the names of the audio
    files alone, by [save_training_data] of app.py and by [save_transcript]
    of server.py alike.  The number is larger than every number an audio
    file of the folder carries, so that neither a number in use nor a gap
    below the largest is taken; and afterwards the folder holds the audio
    files of the old entries, under their old names, and the new one, and
    the manifest its old records and the new one.  (A number no audio file
    carries any more, or none yet, can be given again:
    [entry_number_assigned_twice].) *)
Theorem save_assigns_next_id
  (ids : list Z) (h : Host.t) (audio_path : nat) (final_text raw_text : str)
  (duration : Q) (was_edited : bool) :
  Forall (fun i => (1 <= i)%Z) ids ->
  DataDir.glob (Host.data_dir h)
    = map (fun i => DataDir.audio_name i (lit ".wav")) ids ->
  Host.disk_ok h = true ->
  In audio_path (Host.tmp_files h) ->
  exists num h',
    App.save_training_data audio_path final_text raw_text duration was_edited h
      = (Returns num, h')
    /\ Server.next_number (Host.data_dir h) = Returns num
    /\ (ids = [] -> num = 1%Z)
    /\ (ids <> [] -> In (num - 1)%Z ids)
    /\ (forall i, In i ids -> (i < num)%Z)
    /\ ~ In num ids
    /\ DataDir.glob (Host.data_dir h')
       = map (fun i => DataDir.audio_name i (lit ".wav")) (ids ++ [num])
    /\ (exists record,
         Host.manifest h'
           = Some (match Host.manifest h with Some l => l | None => [] end
                   ++ [record])
         /\ Host.entry_id record = num)
    /\ forall r,
         Backend.temp_audio_path r = Some audio_path ->
         exists s,
           Backend.save_transcript (r, h) = (Returns (Backend.Saved num), s)
           /\ DataDir.glob (Host.data_dir (snd s))
              = map (fun i => DataDir.audio_name i (lit ".wav")) (ids ++ [num]).
Proof.
  intros F G D T.
  destruct (next_number_spec (Host.data_dir h) ids F G) as (num & A & S & E & I & L).
  assert (Fresh : ~ In (DataDir.audio_name num (lit ".wav")) (Host.data_dir h)).
  { intros X.
    assert (X' : In (DataDir.audio_name num (lit ".wav"))
                    (DataDir.glob (Host.data_dir h))).
    { apply filter_In. split; [exact X | apply matches_wav]. }
    rewrite G in X'. apply in_map_iff in X'. destruct X' as (i & Ei & Ii).
    apply audio_name_inj in Ei. subst i. specialize (L num Ii). lia. }
  assert (B : forall r,
             Backend.temp_audio_path r = Some audio_path ->
             exists s,
               Backend.save_transcript (r, h) = (Returns (Backend.Saved num), s)
               /\ DataDir.glob (Host.data_dir (snd s))
                  = map (fun i => DataDir.audio_name i (lit ".wav"))
                        (ids ++ [num])).
  { intros r P. exact (server_save_pending ids h audio_path r num G S Fresh D T P). }
  exists num.
  unfold App.save_training_data, bind, get, call, ret, modify, raise.
  rewrite A. unfold Host.move. rewrite (existsb_nat_in _ _ T). cbn [negb].
  rewrite D. unfold Host.write_file.
  destruct was_edited;
    repeat (cbn [Host.disk_ok Host.set_data_dir Host.remove_tmp
                 Host.set_tmp_files Host.data_dir Host.manifest
                 Host.set_manifest]; rewrite ?D);
    eexists; (split; [reflexivity|]);
    (split; [exact S|]); (split; [exact E|]); (split; [exact I|]);
    (split; [exact L|]);
    (split; [intros X; specialize (L num X); lia|]);
    cbn [Host.data_dir Host.manifest];
    (split; [| split; [eexists; split; [reflexivity | reflexivity] | exact B]]).
  - cbn [Host.set_data_dir Host.data_dir Host.set_manifest].
    rewrite (glob_add_name_other _ _ (no_match_raw num)).
    rewrite (glob_add_name_other _ _ (no_match_txt num)).
    rewrite (glob_add_name_new _ _ (matches_wav num) Fresh).
    rewrite G, map_app. reflexivity.
  - cbn [Host.set_data_dir Host.data_dir Host.set_manifest].
    rewrite (glob_add_name_other _ _ (no_match_txt num)).
    rewrite (glob_add_name_new _ _ (matches_wav num) Fresh).
    rewrite G, map_app. reflexivity.
Qed.

(** Existing entries 1, 3 and 4 (entry 2 was deleted by hand): the next
    save writes entry 5. *)
Lemma save_assigns_next_id_witness :
  let h := Host.mkHost true [] 0 [7%nat] 8 true
             [DataDir.audio_name 1 (lit ".wav"); lit "manifest.json";
              DataDir.audio_name 3 (lit ".wav"); DataDir.audio_name 3 (lit ".txt");
              DataDir.audio_name 4 (lit ".wav")]
             (Some []) in
  fst (App.save_training_data 7 (lit "hi") (lit "hi") (1 # 1) false h)
  = Returns 5%Z.
Proof.
  cbv zeta.
  destruct (save_assigns_next_id [1; 3; 4]%Z
              (Host.mkHost true [] 0 [7%nat] 8 true
                 [DataDir.audio_name 1 (lit ".wav"); lit "manifest.json";
                  DataDir.audio_name 3 (lit ".wav");
                  DataDir.audio_name 3 (lit ".txt");
                  DataDir.audio_name 4 (lit ".wav")]
                 (Some []))
              7%nat (lit "hi") (lit "hi") (1 # 1)%Q false)
    as (num & h' & S & _ & _ & I & L & _).
  - repeat constructor; lia.
  - vm_compute. reflexivity.
  - reflexivity.
  - simpl. auto.
  - rewrite S. simpl. f_equal.
    specialize (L 4%Z (or_intror (or_intror (or_introl eq_refl)))).
    assert (I' : In (num - 1)%Z [1; 3; 4]%Z) by (apply I; discriminate).
    simpl in I'. lia.
Defined.

(** The same number given twice.  In app.py: the folder holds the entries
    1, 3 and 4, a save writes entry 5, the file audio_000005.wav is removed
    by hand, and the next save writes an entry 5 again, so that the manifest
    holds the number twice.  In server.py, with no removal: [POST /save]
    twice in a row while no recording is pending answers with the same
    number both times, because no audio file is written for it. *)
Lemma entry_number_assigned_twice :
  let wav := fun i => DataDir.audio_name i (lit ".wav") in
  let h := Host.mkHost true [] 0 [0%nat; 1%nat] 2 true (map wav [1; 3; 4]%Z)
             None in
  let first := App.save_training_data 0 (lit "a") (lit "a") (1 # 1) false h in
  let removed :=
    Host.set_data_dir
      (filter (fun name => negb (str_eqb name (wav 5%Z)))
              (Host.data_dir (snd first)))
      (snd first) in
  let second :=
    App.save_training_data 1 (lit "b") (lit "b") (1 # 1) false removed in
  let s := (Backend.init,
            Host.mkHost true [] 0 [] 0 true [wav 1%Z] None) in
  let one := Backend.save_transcript s in
  let two := Backend.save_transcript (snd one) in
  fst first = Returns 5%Z
  /\ fst second = Returns 5%Z
  /\ option_map (map Host.entry_id) (Host.manifest (snd second))
     = Some [5; 5]%Z
  /\ fst one = Returns (Backend.Saved 2)
  /\ fst two = Returns (Backend.Saved 2).
Proof.
  cbv zeta.
  repeat match goal with |- _ /\ _ => split end; vm_compute; reflexivity.
Qed.

(* ================================================================== *)
(** * The controller of app.py *)
(* ================================================================== *)

Section AppFacts.

Import App.

Ltac unfold_app :=
  unfold step, run_thread, after, exec, toggle_recording, start_recording,
    stop_recording, callback, on_recorder, on_host, start_thread,
    update_status, set_is_recording, set_hold_key_pressed, set_host,
    set_threads, Recorder.start, Recorder.stop, Recorder._callback,
    Recorder.set_self, Recorder.self_, Recorder.host, Host.open_stream,
    Host.close_stream, Host.new_tmp, Host.set_live, Host.set_device,
    Host.set_disk_ok, zoom, bind, get, modify, ret, raise, call in *.

Lemma start_recording_coherent (w : world) :
  coherent w -> coherent (after start_recording w).
Proof.
  destruct w as [tk hk [rr ra rs] ir hp st th [dev live ns tmp nt dk dd mf]].
  unfold coherent. unfold_app. simpl.
  intros (L & I & T).
  destruct ir; simpl; [auto|].
  rewrite (I eq_refl) in *. simpl in *.
  destruct dev; simpl; subst; repeat split; auto; try discriminate.
Qed.

Lemma stop_recording_coherent (w : world) :
  coherent w -> coherent (after stop_recording w).
Proof.
  destruct w as [tk hk [rr ra rs] ir hp st th [dev live ns tmp nt dk dd mf]].
  unfold coherent. unfold_app. simpl.
  intros (L & I & T).
  destruct ir; simpl; [|auto].
  destruct rs as [id|]; simpl in *; subst; simpl;
    destruct ra; simpl; rewrite ?Nat.eqb_refl; simpl;
    repeat split; auto; try discriminate.
Qed.

Lemma exec_coherent (c : command) (w : world) :
  coherent w -> coherent (after (exec c) w).
Proof.
  intros H. destruct c; simpl.
  - unfold toggle_recording, after, bind, get.
    destruct (is_recording w).
    + apply (stop_recording_coherent w H).
    + apply (start_recording_coherent w H).
  - apply start_recording_coherent, H.
  - apply stop_recording_coherent, H.
Qed.

(** The hotkey callback touches the latch and nothing else. *)
Lemma callback_latch_only (ty : event_type) (keycode : Z) (w : world) :
  exists r b,
    callback ty keycode w
    = (Returns r,
       mkWorld (toggle_key w) (hold_key w) (recorder w) (is_recording w) b
               (status w) (threads w) (host w)).
Proof.
  destruct w as [tk hk rc ir hp st th ho].
  unfold callback, bind, get, ret, set_hold_key_pressed, modify. simpl.
  destruct ty.
  - destruct (is_key keycode tk); [eauto|].
    destruct (is_key keycode hk && negb hp); eauto.
  - destruct (is_key keycode hk && hp); eauto.
Qed.

Lemma latch_coherent (w : world) (b : bool) :
  coherent w ->
  coherent (mkWorld (toggle_key w) (hold_key w) (recorder w) (is_recording w) b
                    (status w) (threads w) (host w)).
Proof. unfold coherent. simpl. auto. Qed.

(** Saving and unlinking leave the audio backend alone. *)
Lemma save_keeps_streams (p : nat) (final_text raw_text : str) (d : Q)
  (e : bool) (h : Host.t) :
  Host.live (snd (save_training_data p final_text raw_text d e h)) = Host.live h.
Proof.
  unfold save_training_data, bind, get, call, ret, modify, raise,
    Host.move, Host.write_file.
  destruct (next_number (Host.data_dir h)); simpl; try reflexivity.
  destruct (existsb (Nat.eqb p) (Host.tmp_files h)); simpl; try reflexivity.
  destruct (Host.disk_ok h) eqn:D; simpl; try reflexivity.
  rewrite D. simpl. destruct e; simpl; rewrite ?D; simpl; rewrite ?D; reflexivity.
Qed.

Lemma unlink_keeps_streams (p : nat) (h : Host.t) :
  Host.live (snd (Host.unlink p h)) = Host.live h.
Proof.
  unfold Host.unlink. destruct (existsb (Nat.eqb p) (Host.tmp_files h));
    reflexivity.
Qed.

(** What a background thread can change: the status, to [Ready], and the
    files. *)
Lemma host_call_then_ready {A} (m : M Host.t A) (w : world) :
  framed (Host.live (snd (m (host w)))) w
         (snd ((on_host m ;; update_status Ready) w))
  /\ framed (Host.live (snd (m (host w)))) w
            (snd (((on_host m ;; ret tt) ;; update_status Ready) w)).
Proof.
  destruct w as [tk hk rc ir hp st th ho].
  unfold framed, bind, on_host, zoom, update_status, modify, ret, set_host.
  simpl. destruct (m ho) as [[a|e|] ho']; simpl; repeat split; auto.
Qed.

Lemma do_transcribe_frame (j : job) (transcribed : outcome str)
  (events : list Popup.event) (w : world) :
  framed (Host.live (host w)) w (after (do_transcribe j transcribed events) w).
Proof.
  unfold do_transcribe, after.
  destruct transcribed as [text|e|];
    [| unfold framed; simpl; repeat split; auto
     | unfold framed; simpl; repeat split; auto].
  change (bind (call (Returns text)) ?f w) with (f text w). cbv beta.
  destruct (truthy text).
  - destruct (str_eqb (Popup.action (Popup.show_transcription_popup text events))
                      (lit "save")).
    + rewrite <- (save_keeps_streams (audio_path j)
                    (Popup.text (Popup.show_transcription_popup text events))
                    text (duration j)
                    (Popup.was_edited (Popup.show_transcription_popup text events))
                    (host w)).
      apply host_call_then_ready.
    + destruct (str_eqb (Popup.action (Popup.show_transcription_popup text events))
                        (lit "copy")).
      * destruct w. unfold framed. simpl. repeat split; auto.
      * rewrite <- (unlink_keeps_streams (audio_path j) (host w)).
        apply host_call_then_ready.
  - rewrite <- (unlink_keeps_streams (audio_path j) (host w)).
    apply host_call_then_ready.
Qed.

Lemma step_coherent (w : world) (i : input) : coherent w -> coherent (step w i).
Proof.
  intros H. destruct i as [ty k|c|indata|present|writable|m engine events];
    cbn [step].
  - destruct (listening w); [|exact H].
    destruct (callback_latch_only ty k w) as (r & b & E). rewrite E.
    destruct r as [c|]; [apply exec_coherent|]; apply latch_coherent, H.
  - apply exec_coherent, H.
  - destruct (Host.live (host w)) eqn:Lv; [exact H|]. revert H Lv.
    destruct w as [tk hk [rr ra rs] ir hp st th ho].
    unfold coherent. unfold_app. simpl. destruct rr; simpl; auto.
  - revert H. unfold coherent. destruct w as [tk hk rc ir hp st th ho].
    destruct ho. simpl. auto.
  - revert H. unfold coherent. destruct w as [tk hk rc ir hp st th ho].
    destruct ho. simpl. auto.
  - destruct (threads w) as [|j rest] eqn:T; [exact H|].
    unfold run_thread.
    destruct (Transcriber.transcribe m engine) as [text|e|] eqn:X; [| |exact H].
    + destruct (do_transcribe_frame j (Returns text) events (set_threads rest w))
        as (A & B & _ & _ & C & D).
      destruct H as (L & I & S). unfold coherent.
      rewrite A, B, C. simpl. repeat split; auto.
      all: intros Y; destruct D as [D|D]; [congruence|].
      all: rewrite D in Y; simpl in Y; auto.
    + destruct (do_transcribe_frame j (Raises e) events (set_threads rest w))
        as (A & B & _ & _ & C & D).
      destruct H as (L & I & S). unfold coherent.
      rewrite A, B, C. simpl. repeat split; auto.
      all: intros Y; destruct D as [D|D]; [congruence|].
      all: rewrite D in Y; simpl in Y; auto.
Qed.

Lemma run_coherent (inputs : list input) (w : world) :
  coherent w -> coherent (run w inputs).
Proof.
  revert w. induction inputs as [|i r IH]; intros w H; simpl; [exact H|].
  apply IH, step_coherent, H.
Qed.

Lemma init_coherent (toggle hold : option Z) (h : Host.t) :
  Host.live h = [] -> coherent (init toggle hold h).
Proof. intros H. unfold coherent, init. simpl. auto. Qed.

End AppFacts.

(* ================================================================== *)
(** * The controller of panokeet_final.py *)
(* ================================================================== *)

Section PanokeetFinalFacts.

Import PanokeetFinal.

Ltac unfold_final :=
  unfold step, after, event_callback, start_recording, stop_recording,
    callback, set_recording, set_audio_data, set_stream, set_hold_active,
    on_host, Host.open_stream, Host.close_stream, Host.set_live,
    Host.set_device, zoom, bind, get, modify, ret, raise in *.

Lemma final_start_coherent (w : world) :
  coherent w -> coherent (after start_recording w).
Proof.
  destruct w as [rr ra rs ha th [dev live ns tmp nt dk dd mf]].
  unfold coherent. unfold_final. simpl. intros (L & I).
  destruct rr; simpl; [auto|].
  rewrite (I eq_refl) in *. simpl in *.
  destruct dev; simpl; subst; split; auto; discriminate.
Qed.

Lemma final_stop_coherent (w : world) :
  coherent w -> coherent (after stop_recording w).
Proof.
  destruct w as [rr ra rs ha th [dev live ns tmp nt dk dd mf]].
  unfold coherent. unfold_final. simpl. intros (L & I).
  destruct rr; simpl; [|auto].
  destruct rs as [id|]; simpl in *; subst; simpl;
    destruct ra; simpl; rewrite ?Nat.eqb_refl; simpl; split; auto.
Qed.

Lemma final_hold_coherent (b : bool) (w : world) :
  coherent w ->
  coherent (mkWorld (recording w) (audio_data w) (stream w) b (threads w) (host w)).
Proof. unfold coherent. simpl. auto. Qed.

Lemma final_step_coherent (w : world) (i : input) :
  coherent w -> coherent (step w i).
Proof.
  intros H. destruct i as [ty k|indata|present]; cbn [step].
  - unfold event_callback, after, bind, get. destruct ty.
    + destruct (k =? F13_KEYCODE)%Z.
      * destruct (recording w);
          [apply (final_stop_coherent w H) | apply (final_start_coherent w H)].
      * destruct ((k =? F14_KEYCODE)%Z && negb (hold_active w)); [|exact H].
        apply (final_start_coherent _ (final_hold_coherent true w H)).
    + destruct ((k =? F14_KEYCODE)%Z && hold_active w); [|exact H].
      apply (final_stop_coherent _ (final_hold_coherent false w H)).
  - destruct (Host.live (host w)) eqn:Lv; [exact H|]. revert H Lv.
    destruct w as [rr ra rs ha th ho]. unfold coherent. unfold_final.
    simpl. destruct rr; simpl; auto.
  - revert H. destruct w as [rr ra rs ha th ho]. unfold coherent.
    destruct ho. simpl. auto.
Qed.

Lemma final_run_coherent (inputs : list input) (w : world) :
  coherent w -> coherent (run w inputs).
Proof.
  revert w. induction inputs as [|i r IH]; intros w H; simpl; [exact H|].
  apply IH, final_step_coherent, H.
Qed.

End PanokeetFinalFacts.

(* ================================================================== *)
(** * One session at a time *)
(* ================================================================== *)

Lemma held_at_most_one (s : option nat) : (length (App.held s) <= 1)%nat.
Proof. destruct s; simpl; lia. Qed.

(** C1.  Whatever key events, timer firings, menu clicks, audio blocks,
    device changes and thread completions reach the application from its
    initial state, at most one input stream is live at any time, none when
    the application is not recording; and [start_recording] called while a
    recording is on returns at once and leaves the whole state, the running
    session included, as it was.  The same holds for panokeet_final.py. *)
Theorem single_session
  (toggle hold : option Z) (h : Host.t)
  (inputs : list App.input) (inputs' : list PanokeetFinal.input) :
  Host.live h = [] ->
  let w := App.run (App.init toggle hold h) inputs in
  let v := PanokeetFinal.run (PanokeetFinal.init h) inputs' in
  ((length (Host.live (App.host w)) <= 1)%nat
   /\ (App.is_recording w = false -> Host.live (App.host w) = [])
   /\ (App.is_recording w = true ->
       App.start_recording w = (Returns tt, w)
       /\ App.step w (App.Fire App.Start) = w))
  /\ ((length (Host.live (PanokeetFinal.host v)) <= 1)%nat
      /\ (PanokeetFinal.recording v = false ->
          Host.live (PanokeetFinal.host v) = [])
      /\ (PanokeetFinal.recording v = true ->
          PanokeetFinal.start_recording v = (Returns tt, v))).
Proof.
  intros L w v. split.
  - pose proof (run_coherent inputs (App.init toggle hold h)
                  (init_coherent toggle hold h L)) as (A & B & _).
    fold w in A, B. rewrite A. split; [apply held_at_most_one|]. split.
    + intros R. rewrite (B R). reflexivity.
    + intros R. unfold App.step, after, App.exec, App.start_recording, bind, get.
      rewrite R. split; reflexivity.
  - assert (C : PanokeetFinal.coherent (PanokeetFinal.init h)).
    { unfold PanokeetFinal.coherent. simpl. auto. }
    pose proof (final_run_coherent inputs' _ C) as (A & B).
    fold v in A, B. rewrite A. split; [apply held_at_most_one|]. split.
    + intros R. rewrite (B R). reflexivity.
    + intros R. unfold PanokeetFinal.start_recording, bind, get.
      rewrite R. reflexivity.
Qed.

(** Toggle pressed, a block recorded, then the hold key pressed and the menu
    item clicked twice. *)
Lemma single_session_witness :
  let h := Host.mkHost true [] 0 [] 0 true [] None in
  let w := App.run (App.init (Some 89%Z) (Some 91%Z) h)
             [App.Key App.kCGEventKeyDown 89; App.Audio [0%Z];
              App.Key App.kCGEventKeyDown 91; App.Fire App.Toggle;
              App.Fire App.Toggle] in
  (length (Host.live (App.host w)) <= 1)%nat
  /\ App.is_recording w = true.
Proof.
  cbv zeta. split; [|reflexivity].
  apply (single_session (Some 89%Z) (Some 91%Z)
           (Host.mkHost true [] 0 [] 0 true [] None)
           [App.Key App.kCGEventKeyDown 89; App.Audio [0%Z];
            App.Key App.kCGEventKeyDown 91; App.Fire App.Toggle;
            App.Fire App.Toggle] []).
  reflexivity.
Defined.

(* ================================================================== *)
(** * Stopping a session that captured nothing *)
(* ================================================================== *)

(** C7.  When no block was captured during the session ([audio_data] is
    empty when the session is stopped, as [Recorder.start] left it),
    [Recorder.stop] returns [None], and [stop_recording] ends with the
    status ["ready"], not recording, without having started a transcription
    thread or written a temporary file: the engine is not called. *)
Theorem zero_audio_goes_back_to_ready (w : App.world) :
  App.is_recording w = true ->
  Recorder.audio_data (App.recorder w) = [] ->
  let w' := after App.stop_recording w in
  fst (Recorder.stop (App.recorder w, App.host w)) = Returns None
  /\ App.status w' = App.Ready
  /\ App.is_recording w' = false
  /\ App.threads w' = App.threads w
  /\ Host.tmp_files (App.host w') = Host.tmp_files (App.host w)
  /\ App.step w (App.Fire App.Stop) = w'
  /\ App.step w (App.Fire App.Toggle) = w'.
Proof.
  destruct w as [tk hk [rr ra rs] ir hp st th [dev live ns tmp nt dk dd mf]].
  simpl. intros -> ->.
  unfold App.step, App.exec, App.toggle_recording, after, App.stop_recording,
    App.on_recorder, App.update_status, App.set_is_recording, App.start_thread,
    Recorder.stop, Recorder.set_self, Recorder.self_, Recorder.host,
    Host.close_stream, Host.new_tmp, Host.set_live, zoom, bind, get, modify, ret.
  simpl. destruct rs as [id|]; simpl; repeat split; reflexivity.
Qed.

(** A session started by the toggle key and stopped by it before the audio
    backend delivered anything. *)
Lemma zero_audio_goes_back_to_ready_witness :
  let h := Host.mkHost true [] 0 [] 0 true [] None in
  let w := App.run (App.init (Some 89%Z) (Some 91%Z) h)
             [App.Key App.kCGEventKeyDown 89] in
  App.status (App.step w (App.Key App.kCGEventKeyDown 89)) = App.Ready.
Proof.
  cbv zeta.
  destruct (zero_audio_goes_back_to_ready
              (App.run (App.init (Some 89%Z) (Some 91%Z)
                          (Host.mkHost true [] 0 [] 0 true [] None))
                       [App.Key App.kCGEventKeyDown 89]))
    as (_ & S & _); [reflexivity | reflexivity |].
  exact S.
Defined.

(** [Recorder.start] empties the buffer, with or without an input device. *)
Lemma start_empties_buffer (r : Recorder.t) (h : Host.t) :
  Recorder.audio_data (fst (snd (Recorder.start (r, h)))) = [].
Proof.
  destruct r as [rr ra rs], h as [dev live ns tmp nt dk dd mf].
  unfold Recorder.start, Recorder.set_self, Recorder.host, Host.open_stream,
    zoom, bind, modify. simpl. destruct dev; reflexivity.
Qed.

(* ================================================================== *)
(** * Commands while a transcription is in flight *)
(* ================================================================== *)

(** C3, as the code has it.  In every state the application reaches with the
    status ["transcribing"], a stop command is dropped and changes nothing;
    a toggle or a start command is not dropped: it starts a recording at
    once (the application is recording again, with the status
    ["recording"]), and the threads already transcribing are left as they
    are. *)
Theorem commands_while_transcribing
  (toggle hold : option Z) (h : Host.t) (inputs : list App.input) :
  Host.live h = [] ->
  let w := App.run (App.init toggle hold h) inputs in
  App.status w = App.Transcribing ->
  App.step w (App.Fire App.Stop) = w
  /\ forall c, c = App.Toggle \/ c = App.Start ->
       let w' := App.step w (App.Fire c) in
       App.is_recording w' = true
       /\ App.status w' = App.Recording
       /\ App.threads w' = App.threads w.
Proof.
  intros L w T.
  pose proof (run_coherent inputs (App.init toggle hold h)
                (init_coherent toggle hold h L)) as (_ & _ & C).
  fold w in C. specialize (C T). clearbody w.
  destruct w as [tk hk [rr ra rs] ir hp st th [dev live ns tmp nt dk dd mf]].
  simpl in C, T. subst ir st.
  unfold App.step, App.exec, App.toggle_recording, after, App.stop_recording,
    App.start_recording, App.on_recorder, App.update_status,
    App.set_is_recording, Recorder.start, Recorder.set_self, Recorder.host,
    Host.open_stream, zoom, bind, get, modify, ret.
  simpl. split; [reflexivity|].
  intros c [-> | ->]; simpl; destruct dev; simpl; repeat split; reflexivity.
Qed.

(** A toggle press, one block, a second toggle press: the recording is
    being transcribed.  A third press starts the next recording. *)
Lemma commands_while_transcribing_witness :
  let h := Host.mkHost true [] 0 [] 0 true [] None in
  let w := App.run (App.init (Some 89%Z) (Some 91%Z) h)
             [App.Key App.kCGEventKeyDown 89; App.Audio [0%Z];
              App.Key App.kCGEventKeyDown 89] in
  App.step w (App.Fire App.Stop) = w
  /\ App.is_recording (App.step w (App.Fire App.Toggle)) = true.
Proof.
  cbv zeta.
  destruct (commands_while_transcribing (Some 89%Z) (Some 91%Z)
              (Host.mkHost true [] 0 [] 0 true [] None)
              [App.Key App.kCGEventKeyDown 89; App.Audio [0%Z];
               App.Key App.kCGEventKeyDown 89] eq_refl eq_refl) as [S K].
  split; [exact S|]. apply (K App.Toggle). left. reflexivity.
Defined.

(** The same state; the toggle key arrives while the first recording is
    still being transcribed, and a second session is live. *)
Lemma toggle_while_transcribing_records :
  let h := Host.mkHost true [] 0 [] 0 true [] None in
  let w := App.run (App.init (Some 89%Z) (Some 91%Z) h)
             [App.Key App.kCGEventKeyDown 89; App.Audio [0%Z];
              App.Key App.kCGEventKeyDown 89] in
  let w' := App.step w (App.Key App.kCGEventKeyDown 89) in
  App.status w = App.Transcribing
  /\ App.threads w = [App.mkJob 0 (1 # 16000)]
  /\ w' <> w
  /\ App.is_recording w' = true
  /\ App.status w' = App.Recording
  /\ Host.live (App.host w') = [1%nat].
Proof.
  cbv zeta.
  repeat match goal with |- _ /\ _ => split end; try (vm_compute; reflexivity).
  intros E. apply (f_equal App.is_recording) in E. vm_compute in E.
  discriminate E.
Qed.

(* ================================================================== *)
(** * The other binding during a recording *)
(* ================================================================== *)

(** C2, as the code has it.  The controller keeps no record of which
    binding started a recording.  While it is recording, a key-down of the
    hold binding sets the hold latch and changes nothing else: the
    recording, the recorder, the status and the streams stay as they are.
    A key-down of the toggle binding stops the recording, whichever binding
    started it, and so does the key-up of the hold binding once the latch is
    set.  The same holds for panokeet.py and panokeet_final.py. *)
Theorem other_binding_while_recording
  (w : App.world) (t k : Z) (u : Panokeet.world) (v : PanokeetFinal.world) :
  t <> k ->
  App.toggle_key w = Some t -> App.hold_key w = Some k ->
  App.listening w = true ->
  App.is_recording w = true ->
  Panokeet.toggle_key u = Some t -> Panokeet.hold_key u = Some k ->
  Panokeet.recording u = true ->
  PanokeetFinal.recording v = true ->
  (App.step w (App.Key App.kCGEventKeyDown k)
     = App.mkWorld (App.toggle_key w) (App.hold_key w) (App.recorder w)
                   (App.is_recording w) true (App.status w) (App.threads w)
                   (App.host w)
   /\ App.is_recording (App.step w (App.Key App.kCGEventKeyDown t)) = false
   /\ (App.hold_key_pressed w = true ->
       App.is_recording (App.step w (App.Key App.kCGEventKeyUp k)) = false))
  /\ (after (Panokeet.hotkey_callback App.kCGEventKeyDown k) u
      = Panokeet.mkWorld (Panokeet.recording u) (Panokeet.audio_data u)
          (Panokeet.stream u) true (Panokeet.toggle_key u) (Panokeet.hold_key u)
          (Panokeet.transcriptions u) (Panokeet.host u)
      /\ Panokeet.recording
           (after (Panokeet.hotkey_callback App.kCGEventKeyDown t) u) = false
      /\ (Panokeet.hold_key_pressed u = true ->
          Panokeet.recording
            (after (Panokeet.hotkey_callback App.kCGEventKeyUp k) u) = false))
  /\ (PanokeetFinal.step v
        (PanokeetFinal.Key PanokeetFinal.kCGEventKeyDown PanokeetFinal.F14_KEYCODE)
      = PanokeetFinal.mkWorld (PanokeetFinal.recording v)
          (PanokeetFinal.audio_data v) (PanokeetFinal.stream v) true
          (PanokeetFinal.threads v) (PanokeetFinal.host v)
      /\ PanokeetFinal.recording
           (PanokeetFinal.step v
              (PanokeetFinal.Key PanokeetFinal.kCGEventKeyDown
                                 PanokeetFinal.F13_KEYCODE)) = false
      /\ (PanokeetFinal.hold_active v = true ->
          PanokeetFinal.recording
            (PanokeetFinal.step v
               (PanokeetFinal.Key PanokeetFinal.kCGEventKeyUp
                                  PanokeetFinal.F14_KEYCODE)) = false)).
Proof.
  intros N T K Li R T' K' R' R''.
  assert (E1 : (k =? t)%Z = false) by (apply Z.eqb_neq; congruence).
  split; [|split].
  - destruct w as [tk hk [rr ra rs] ir hp st th [dev live ns tmp nt dk dd mf]].
    simpl in T, K, R, Li. subst tk hk ir.
    unfold App.step. rewrite Li.
    unfold App.callback, App.is_key, App.exec, App.toggle_recording, after,
      App.stop_recording, App.start_recording, App.on_recorder,
      App.update_status, App.set_is_recording, App.set_hold_key_pressed,
      App.start_thread, Recorder.stop, Recorder.set_self, Recorder.self_,
      Recorder.host, Host.close_stream, Host.new_tmp, Host.set_live,
      zoom, bind, get, modify, ret.
    cbn [App.toggle_key App.hold_key App.hold_key_pressed App.is_recording].
    rewrite E1, !Z.eqb_refl. cbn [andb negb].
    split; [destruct hp; reflexivity|]. split.
    + simpl. destruct rs; simpl; destruct ra; reflexivity.
    + simpl. intros ->. simpl. destruct rs; simpl; destruct ra; reflexivity.
  - destruct u as [rr ra rs hp tk hk tr [dev live ns tmp nt dk dd mf]].
    simpl in T', K', R'. subst tk hk rr.
    unfold Panokeet.hotkey_callback, App.is_key, after,
      Panokeet.stop_recording, Panokeet.start_recording,
      Panokeet.set_recording, Panokeet.set_stream,
      Panokeet.set_hold_key_pressed, Panokeet.on_host,
      Host.close_stream, Host.set_live, zoom, bind, get, modify, ret.
    cbn [Panokeet.toggle_key Panokeet.hold_key Panokeet.hold_key_pressed
         Panokeet.recording].
    rewrite E1, !Z.eqb_refl. cbn [andb negb].
    split; [destruct hp; reflexivity|]. split.
    + simpl. destruct rs; simpl; destruct ra; reflexivity.
    + simpl. intros ->. simpl. destruct rs; simpl; destruct ra; reflexivity.
  - destruct v as [rr ra rs ha th [dev live ns tmp nt dk dd mf]].
    simpl in R''. subst rr.
    unfold PanokeetFinal.step, PanokeetFinal.event_callback, after,
      PanokeetFinal.stop_recording, PanokeetFinal.start_recording,
      PanokeetFinal.set_recording, PanokeetFinal.set_stream,
      PanokeetFinal.set_hold_active, PanokeetFinal.on_host,
      Host.close_stream, Host.set_live, zoom, bind, get, modify, ret.
    simpl. split; [destruct ha; reflexivity|]. split.
    + destruct rs; simpl; destruct ra; reflexivity.
    + intros ->. simpl. destruct rs; simpl; destruct ra; reflexivity.
Qed.

(** A recording started by the toggle key 89, with the hold key on 91. *)
Lemma other_binding_while_recording_witness :
  let h := Host.mkHost true [] 0 [] 0 true [] None in
  let w := App.run (App.init (Some 89%Z) (Some 91%Z) h)
             [App.Key App.kCGEventKeyDown 89] in
  App.is_recording (App.step w (App.Key App.kCGEventKeyDown 91)) = true
  /\ App.hold_key_pressed (App.step w (App.Key App.kCGEventKeyDown 91)) = true.
Proof.
  cbv zeta.
  destruct (other_binding_while_recording
              (App.run (App.init (Some 89%Z) (Some 91%Z)
                          (Host.mkHost true [] 0 [] 0 true [] None))
                       [App.Key App.kCGEventKeyDown 89])
              89%Z 91%Z
              (after (Panokeet.hotkey_callback App.kCGEventKeyDown 89)
                 (Panokeet.mkWorld false [] None false (Some 89%Z) (Some 91%Z) 0
                    (Host.mkHost true [] 0 [] 0 true [] None)))
              (PanokeetFinal.run
                 (PanokeetFinal.init (Host.mkHost true [] 0 [] 0 true [] None))
                 [PanokeetFinal.Key PanokeetFinal.kCGEventKeyDown 105]))
    as [[E _] _]; try reflexivity; [discriminate|].
  rewrite E. split; reflexivity.
Defined.

(** The toggle key pressed while the hold key keeps a recording going stops
    that recording; the hold key pressed during a recording started by the
    toggle key sets the latch, and its release stops the recording. *)
Lemma other_binding_changes_state :
  let h := Host.mkHost true [] 0 [] 0 true [] None in
  let held := App.run (App.init (Some 89%Z) (Some 91%Z) h)
                [App.Key App.kCGEventKeyDown 91; App.Audio [0%Z]] in
  let toggled := App.run (App.init (Some 89%Z) (Some 91%Z) h)
                   [App.Key App.kCGEventKeyDown 89; App.Audio [0%Z]] in
  (App.is_recording held = true
   /\ App.hold_key_pressed held = true
   /\ App.step held (App.Key App.kCGEventKeyDown 89) <> held
   /\ App.is_recording (App.step held (App.Key App.kCGEventKeyDown 89)) = false)
  /\ (App.is_recording toggled = true
      /\ App.hold_key_pressed toggled = false
      /\ App.step toggled (App.Key App.kCGEventKeyDown 91) <> toggled
      /\ App.is_recording
           (App.run toggled [App.Key App.kCGEventKeyDown 91;
                             App.Key App.kCGEventKeyUp 91]) = false
      /\ App.status
           (App.run toggled [App.Key App.kCGEventKeyDown 91;
                             App.Key App.kCGEventKeyUp 91]) = App.Transcribing).
Proof.
  cbv zeta.
  repeat match goal with |- _ /\ _ => split end; try (vm_compute; reflexivity).
  - intros E. apply (f_equal App.is_recording) in E. vm_compute in E.
    discriminate E.
  - intros E. apply (f_equal App.hold_key_pressed) in E. vm_compute in E.
    discriminate E.
Qed.

(* ================================================================== *)
(** * Errors and the status *)
(* ================================================================== *)

Section ErrorPaths.

Import App.

Lemma popup_action (transcription : str) (events : list Popup.event) :
  Popup.action (Popup.show transcription events) = lit "cancel"
  \/ Popup.action (Popup.show transcription events) = lit "done".
Proof.
  unfold Popup.show.
  set (p0 := Popup.mkPopup transcription
               (Popup.mkResult (lit "cancel") transcription false (Some false))
               transcription true).
  assert (OK : Popup.result_ok (Popup.original_text p0) (Popup.result_ p0))
    by (left; simpl; auto).
  destruct (runModal_result_ok events p0 OK) as [(A & _) | (A & _)]; auto.
Qed.

(** When [transcribe] returns, with a text or with the empty string of a
    failed engine, the thread ends with the status ["ready"]. *)
Lemma returned_transcription_reaches_ready
  (w : world) (j : job) (rest : list job) (model_exists : bool)
  (engine : Subprocess.process) (events : list Popup.event) (text : str) :
  threads w = j :: rest ->
  In (audio_path j) (Host.tmp_files (host w)) ->
  Transcriber.transcribe model_exists engine = Returns text ->
  status (step w (ThreadRuns model_exists engine events)) = Ready.
Proof.
  intros T I X. cbn [step]. rewrite T. unfold run_thread. rewrite X.
  assert (U : Host.unlink (audio_path j) (host (set_threads rest w))
              = (Returns tt, Host.remove_tmp (audio_path j) (host w))).
  { unfold Host.unlink. destruct w. simpl in *.
    rewrite (existsb_nat_in _ _ I). reflexivity. }
  unfold do_transcribe, after.
  change (bind (call (Returns text)) ?f ?s) with (f text s). cbv beta.
  unfold Popup.show_transcription_popup.
  destruct (truthy text).
  - destruct (popup_action text events) as [A|A]; rewrite A;
      cbn [str_eqb lit map String.list_ascii_of_string N_of_ascii N_of_digits
           char_eqb N.eqb Pos.eqb andb N.add N.mul Pos.add Pos.mul Pos.succ];
      unfold bind, on_host, zoom; rewrite U; reflexivity.
  - unfold bind, on_host, zoom. rewrite U. reflexivity.
Qed.

(** When [transcribe] raises, the thread ends there: the status is the one
    [stop_recording] set, and nothing is cleaned up. *)
Lemma raised_transcription_keeps_status
  (w : world) (j : job) (rest : list job) (engine : Subprocess.process)
  (events : list Popup.event) :
  threads w = j :: rest ->
  let w' := step w (ThreadRuns false engine events) in
  status w' = status w /\ threads w' = rest /\ host w' = host w
  /\ is_recording w' = is_recording w.
Proof.
  intros T. cbn [step]. rewrite T. destruct w. repeat split; reflexivity.
Qed.

(** The popup never answers ["save"] or ["copy"]: whatever the user does,
    [do_transcribe] takes its last branch and [save_training_data] is not
    called, so the folder is left as it was. *)
Lemma popup_never_saves (w : world) (model_exists : bool)
  (engine : Subprocess.process) (events : list Popup.event) :
  Host.data_dir (host (step w (ThreadRuns model_exists engine events)))
  = Host.data_dir (host w).
Proof.
  cbn [step]. destruct (threads w) as [|j rest]; [reflexivity|].
  unfold run_thread.
  destruct (Transcriber.transcribe model_exists engine) as [text|e|];
    [| destruct w; reflexivity | reflexivity].
  unfold do_transcribe, after.
  change (bind (call (Returns text)) ?f ?s) with (f text s). cbv beta.
  unfold Popup.show_transcription_popup.
  assert (U : forall p h, Host.data_dir (snd (Host.unlink p h)) = Host.data_dir h).
  { intros p h. unfold Host.unlink.
    destruct (existsb (Nat.eqb p) (Host.tmp_files h)); reflexivity. }
  assert (V : forall p x,
             Host.data_dir (host (snd ((on_host (Host.unlink p) ;;
                                        update_status Ready) x)))
             = Host.data_dir (host x)).
  { intros p x. specialize (U p (host x)). destruct x.
    unfold bind, on_host, zoom, update_status, modify, set_host in *.
    simpl in *. destruct (Host.unlink p host0) as [[a|e|] h']; simpl in *; exact U. }
  destruct (truthy text).
  - destruct (popup_action text events) as [A|A]; rewrite A;
      cbn [str_eqb lit map String.list_ascii_of_string N_of_ascii N_of_digits
           char_eqb N.eqb Pos.eqb andb N.add N.mul Pos.add Pos.mul Pos.succ];
      rewrite V; destruct w; reflexivity.
  - rewrite V. destruct w; reflexivity.
Qed.

(** server.py, for comparison: without an input device its
    [start_recording] reports the failure and does not set the flag. *)
Lemma server_start_without_device (r : Server.RecorderState) (h : Host.t) :
  Server.recording r = false ->
  Host.device h = false ->
  fst (Server.start_recording (r, h)) = Returns false
  /\ Server.recording (fst (snd (Server.start_recording (r, h)))) = false.
Proof.
  intros R D. unfold Server.start_recording. rewrite R, D. simpl.
  split; reflexivity.
Qed.

End ErrorPaths.

(** C9, on the paths the code leaves open.  After a recording made with the
    toggle key, the status is ["transcribing"].  If the model file is
    missing when the thread runs, [transcribe] raises, the thread dies
    before [update_status("ready")], and the status stays ["transcribing"]
    with no thread left to change it and the temporary file still there;
    an engine that never exits blocks the thread in the same status.  And
    when no input device can be opened, [start_recording] has already set
    the recording flag and the status ["recording"] when [Recorder.start]
    raises, so the application shows a recording that has no stream. *)
Theorem failed_paths_keep_the_status
  (engine : Subprocess.process) (events : list Popup.event)
  (c : Subprocess.CompletedProcess) :
  let h := Host.mkHost true [] 0 [] 0 true [] None in
  let w := App.run (App.init (Some 89%Z) (Some 91%Z) h)
             [App.Key App.kCGEventKeyDown 89; App.Audio [0%Z];
              App.Key App.kCGEventKeyDown 89] in
  let dead := App.step w (App.ThreadRuns false engine events) in
  let blocked :=
    App.step w (App.ThreadRuns true (Subprocess.mkProcess true None c) events) in
  let mute := App.run (App.init (Some 89%Z) (Some 91%Z) h)
                [App.Device false; App.Key App.kCGEventKeyDown 89] in
  App.status w = App.Transcribing
  /\ (App.status dead = App.Transcribing
      /\ App.threads dead = []
      /\ Host.tmp_files (App.host dead) = [0%nat]
      /\ App.step dead (App.Fire App.Stop) = dead)
  /\ (App.status blocked = App.Transcribing /\ blocked = w)
  /\ (App.status mute = App.Recording
      /\ App.is_recording mute = true
      /\ Host.live (App.host mute) = []).
Proof.
  cbv zeta.
  repeat match goal with |- _ /\ _ => split end; vm_compute; reflexivity.
Qed.


(* ================================================================== *)
(** * More about the clean-up of the engine's output *)
(* ================================================================== *)

Section CleanFacts.

Lemma clean_kept (stdout : str) :
  Transcriber.clean stdout
  = join (lit " ") (kept (split Transcriber.newline stdout)).
Proof.
  unfold Transcriber.clean. rewrite filter_then_strip. unfold strip at 1.
  rewrite kept_rstrip, kept_lstrip. reflexivity.
Qed.

Lemma lstrip_head (s : str) (c : char) (t : str) :
  lstrip s = c :: t -> isspace c = false.
Proof.
  induction s as [|x s IH]; simpl; [discriminate|].
  destruct (isspace x) eqn:E; [exact IH|].
  intros H. injection H as <- _. exact E.
Qed.

Lemma lstrip_idempotent (s : str) : lstrip (lstrip s) = lstrip s.
Proof.
  destruct (lstrip s) as [|c t] eqn:E; [reflexivity|].
  simpl. rewrite (lstrip_head s c t E). reflexivity.
Qed.

Lemma rstrip_idempotent (s : str) : rstrip (rstrip s) = rstrip s.
Proof.
  unfold rstrip. rewrite rev_involutive, lstrip_idempotent. reflexivity.
Qed.

Lemma strip_left_fixed (s : str) : lstrip (strip s) = strip s.
Proof.
  unfold strip. rewrite strip_sides_commute. apply lstrip_idempotent.
Qed.

Lemma strip_right_fixed (s : str) : rstrip (strip s) = strip s.
Proof. unfold strip. apply rstrip_idempotent. Qed.

Lemma lstrip_empty_iff (s : str) : lstrip s = [] <-> forallb isspace s = true.
Proof.
  split; [|apply lstrip_blank].
  intros H. destruct (forallb isspace s) eqn:B; [reflexivity|].
  apply lstrip_not_blank in B. rewrite H in B. discriminate B.
Qed.

Lemma forallb_isspace_lstrip (s : str) :
  forallb isspace (lstrip s) = forallb isspace s.
Proof.
  induction s as [|c t IH]; [reflexivity|].
  simpl. destruct (isspace c) eqn:E; simpl; [exact IH|].
  rewrite E. reflexivity.
Qed.

Lemma strip_empty_iff (s : str) : strip s = [] <-> forallb isspace s = true.
Proof.
  unfold strip. rewrite strip_sides_commute, lstrip_empty_iff.
  unfold rstrip. rewrite forallb_rev, forallb_isspace_lstrip, forallb_rev.
  tauto.
Qed.

Lemma blank_lines (s : str) :
  forallb (forallb isspace) (split Transcriber.newline s) = forallb isspace s.
Proof.
  induction s as [|c t IH]; [reflexivity|].
  simpl split. destruct (char_eqb c Transcriber.newline) eqn:E.
  - apply N.eqb_eq in E. subst c. simpl. exact IH.
  - destruct (split Transcriber.newline t) as [|h r] eqn:S;
      [now apply split_nonempty in S|].
    simpl in *. rewrite <- IH. symmetry. apply andb_assoc.
Qed.

Lemma kept_empty_iff (lines : list str) :
  kept lines = [] <-> forallb (forallb isspace) lines = true.
Proof.
  unfold kept. induction lines as [|l r IH]; simpl; [tauto|].
  destruct (strip l) as [|c t] eqn:E.
  - simpl. apply strip_empty_iff in E. rewrite E. simpl. exact IH.
  - simpl. split; [discriminate|]. intros H.
    apply andb_true_iff in H. destruct H as [H _].
    apply strip_empty_iff in H. congruence.
Qed.

Lemma kept_not_empty (lines : list str) :
  Forall (fun k => k <> []) (kept lines).
Proof.
  unfold kept. apply Forall_forall. intros k I.
  apply filter_In in I. destruct I as [_ T]. destruct k; [discriminate|congruence].
Qed.

Lemma join_empty (sep : str) (l : list str) :
  Forall (fun k => k <> []) l -> join sep l = [] -> l = [].
Proof.
  destruct l as [|x r]; [reflexivity|]. intros F H.
  inversion F as [|? ? X _]; subst. exfalso. apply X.
  simpl in H. destruct r; [exact H|].
  apply app_eq_nil in H. tauto.
Qed.

End CleanFacts.

(** X1.  The cleaned output is the empty string, which every caller reads as
    "no speech detected", exactly when the engine printed nothing but
    whitespace. *)
Theorem clean_empty_iff_blank (stdout : str) :
  Transcriber.clean stdout = [] <-> forallb isspace stdout = true.
Proof.
  rewrite clean_kept, <- blank_lines, <- kept_empty_iff. split.
  - apply join_empty, kept_not_empty.
  - intros ->. reflexivity.
Qed.

Section CleanShape.

Lemma lstrip_app_fixed (k r : str) :
  lstrip k = k -> k <> [] -> lstrip (k ++ r) = k ++ r.
Proof.
  destruct k as [|c t]; [congruence|]. intros H _.
  pose proof (lstrip_head (c :: t) c t H) as E.
  simpl. rewrite E. reflexivity.
Qed.

Lemma rstrip_app (a b : str) :
  forallb isspace b = false -> rstrip (a ++ b) = a ++ rstrip b.
Proof.
  intros H. unfold rstrip. rewrite rev_app_distr, lstrip_app, forallb_rev, H.
  rewrite rev_app_distr, rev_involutive. reflexivity.
Qed.

Lemma rstrip_fixed_not_blank (k : str) :
  rstrip k = k -> k <> [] -> forallb isspace k = false.
Proof.
  intros H N. destruct (forallb isspace k) eqn:B; [|reflexivity].
  exfalso. apply N. rewrite <- H. unfold rstrip.
  rewrite lstrip_blank by (rewrite forallb_rev; exact B). reflexivity.
Qed.

Lemma join_starts (sep : str) (k : str) (r : list str) :
  exists tail, join sep (k :: r) = k ++ tail.
Proof.
  destruct r as [|x r]; simpl.
  - exists []. symmetry. apply app_nil_r.
  - eauto.
Qed.

Lemma join_ends (sep : str) (l : list str) :
  l <> [] -> exists front, join sep l = front ++ last l [].
Proof.
  induction l as [|x r IH]; [congruence|]. intros _.
  destruct r as [|y r].
  - exists []. reflexivity.
  - destruct IH as [front E]; [discriminate|].
    exists (x ++ sep ++ front).
    change (join sep (x :: y :: r)) with (x ++ sep ++ join sep (y :: r)).
    rewrite E. change (last (x :: y :: r) []) with (last (y :: r) []).
    rewrite !app_assoc. reflexivity.
Qed.

Lemma kept_In (lines : list str) (k : str) :
  In k (kept lines) -> exists l, In l lines /\ k = strip l /\ k <> [].
Proof.
  unfold kept. intros I. apply filter_In in I. destruct I as [I T].
  apply in_map_iff in I. destruct I as (l & E & I).
  exists l. repeat split; auto. destruct k; [discriminate|congruence].
Qed.

Lemma forallb_lstrip (P : char -> bool) (s : str) :
  forallb P s = true -> forallb P (lstrip s) = true.
Proof.
  induction s as [|c t IH]; simpl; [auto|].
  intros H. apply andb_true_iff in H. destruct H as [H1 H2].
  destruct (isspace c); simpl; [auto|]. rewrite H1, H2. reflexivity.
Qed.

Lemma forallb_strip (P : char -> bool) (s : str) :
  forallb P s = true -> forallb P (strip s) = true.
Proof.
  intros H. unfold strip, rstrip. rewrite forallb_rev.
  apply forallb_lstrip. rewrite forallb_rev. apply forallb_lstrip, H.
Qed.

Lemma split_lines_no_sep (sep : char) (s : str) :
  Forall (fun l => forallb (fun c => negb (char_eqb c sep)) l = true)
         (split sep s).
Proof.
  induction s as [|c t IH]; simpl; [repeat constructor|].
  destruct (char_eqb c sep) eqn:E; [constructor; [reflexivity|exact IH]|].
  destruct (split sep t) as [|h r]; [repeat constructor; simpl; now rewrite E|].
  inversion IH as [|? ? H F]; subst. constructor; [|exact F].
  simpl. rewrite E, H. reflexivity.
Qed.

Lemma forallb_join (P : char -> bool) (sep : str) (l : list str) :
  forallb P sep = true ->
  Forall (fun k => forallb P k = true) l ->
  forallb P (join sep l) = true.
Proof.
  intros S F. induction F as [|x r H F IH]; [reflexivity|].
  simpl. destruct r as [|y r]; [exact H|].
  rewrite !forallb_app, H, S, IH. reflexivity.
Qed.

End CleanShape.

(** X2.  Cleaning is idempotent: the cleaned output holds no line feed and
    no whitespace at either end, and cleaning it again gives it back
    unchanged. *)
Theorem clean_idempotent (stdout : str) :
  let out := Transcriber.clean stdout in
  Transcriber.clean out = out
  /\ strip out = out
  /\ forallb (fun c => negb (char_eqb c Transcriber.newline)) out = true.
Proof.
  cbv zeta. rewrite (clean_kept stdout).
  set (ks := kept (split Transcriber.newline stdout)).
  assert (K : forall k, In k ks ->
                lstrip k = k /\ rstrip k = k /\ k <> []
                /\ forallb (fun c => negb (char_eqb c Transcriber.newline)) k = true).
  { intros k I. apply kept_In in I. destruct I as (l & I & -> & N).
    repeat split; auto.
    - apply strip_left_fixed.
    - apply strip_right_fixed.
    - apply forallb_strip.
      pose proof (split_lines_no_sep Transcriber.newline stdout) as F.
      rewrite Forall_forall in F. apply F, I. }
  clearbody ks.
  destruct ks as [|k r]; [repeat split; reflexivity|].
  set (out := join (lit " ") (k :: r)).
  assert (NL : forallb (fun c => negb (char_eqb c Transcriber.newline)) out = true).
  { apply forallb_join; [reflexivity|].
    apply Forall_forall. intros x I. apply K, I. }
  assert (L : lstrip out = out).
  { destruct (join_starts (lit " ") k r) as [tail E]. unfold out. rewrite E.
    destruct (K k (or_introl eq_refl)) as (A & _ & B & _).
    apply lstrip_app_fixed; assumption. }
  assert (R : rstrip out = out).
  { destruct (join_ends (lit " ") (k :: r)) as [front E]; [discriminate|].
    unfold out. rewrite E.
    assert (I : In (last (k :: r) []) (k :: r)).
    { destruct (exists_last (l := k :: r)) as (l' & a & El); [discriminate|].
      rewrite El, last_last. apply in_or_app. right. left. reflexivity. }
    destruct (K _ I) as (_ & A & B & _).
    rewrite rstrip_app by (apply rstrip_fixed_not_blank; assumption).
    rewrite A. reflexivity. }
  assert (S : strip out = out) by (unfold strip; rewrite L; exact R).
  assert (T : truthy out = true).
  { destruct (join_starts (lit " ") k r) as [tail E]. unfold out. rewrite E.
    destruct (K k (or_introl eq_refl)) as (_ & _ & B & _).
    destruct k; [congruence|reflexivity]. }
  repeat split; auto.
  unfold Transcriber.clean. rewrite S, (split_no_sep _ _ NL).
  cbn [filter]. rewrite S, T. cbn [map join]. exact S.
Qed.

(* ================================================================== *)
(** * The recorder between [start] and [stop] *)
(* ================================================================== *)

Section RecorderFacts.

Lemma deliver_blocks (blocks : list Recorder.block) (rec : bool)
  (data : list Recorder.block) (st : option nat) (h : Host.t) :
  fold_left (fun s b => after (Recorder._callback b) s) blocks
            (Recorder.mkRecorder rec data st, h)
  = (Recorder.mkRecorder rec (if rec then data ++ blocks else data) st, h).
Proof.
  revert data. induction blocks as [|b r IH]; intros data; cbn [fold_left].
  - destruct rec; [rewrite app_nil_r|]; reflexivity.
  - assert (E : after (Recorder._callback b) (Recorder.mkRecorder rec data st, h)
                = (Recorder.mkRecorder rec (if rec then data ++ [b] else data) st,
                   h)) by (destruct rec; reflexivity).
    rewrite E, IH. destruct rec; [rewrite <- app_assoc|]; reflexivity.
Qed.

Lemma start_with_device (r : Recorder.t) (h : Host.t) :
  Host.device h = true ->
  after Recorder.start (r, h)
  = (Recorder.mkRecorder true [] (Some (Host.next_stream h)),
     Host.mkHost true (Host.next_stream h :: Host.live h)
       (S (Host.next_stream h)) (Host.tmp_files h) (Host.next_tmp h)
       (Host.disk_ok h) (Host.data_dir h) (Host.manifest h)).
Proof.
  intros D. destruct r, h. simpl in D. subst.
  unfold after, Recorder.start, Recorder.set_self, Recorder.host,
    Host.open_stream, zoom, bind, modify. reflexivity.
Qed.

Lemma stop_with_audio (rec : bool) (b : Recorder.block)
  (bs : list Recorder.block) (id : nat) (h : Host.t) :
  Recorder.stop (Recorder.mkRecorder rec (b :: bs) (Some id), h)
  = (Returns (Some (Host.next_tmp h, Recorder.duration_of (b :: bs))),
     (Recorder.mkRecorder false (b :: bs) None,
      Host.mkHost (Host.device h)
        (filter (fun x => negb (Nat.eqb x id)) (Host.live h))
        (Host.next_stream h) (Host.next_tmp h :: Host.tmp_files h)
        (S (Host.next_tmp h)) (Host.disk_ok h) (Host.data_dir h)
        (Host.manifest h))).
Proof. destruct h. reflexivity. Qed.

End RecorderFacts.

(** X3.  Whatever state a recorder is in and whatever was delivered to it
    before, a [start] followed by the delivery of blocks and a [stop]
    returns a new temporary file and the duration of exactly the blocks
    delivered in between, in the order of their delivery; the stream
    [start] opened is closed again, and blocks delivered after the [stop]
    change nothing. *)
Theorem recorder_returns_what_was_delivered
  (r : Recorder.t) (h : Host.t) (before during later : list Recorder.block) :
  Host.device h = true ->
  during <> [] ->
  let deliver := fold_left (fun s b => after (Recorder._callback b) s) in
  let started := after Recorder.start (deliver before (r, h)) in
  let stopped := Recorder.stop (deliver during started) in
  fst stopped = Returns (Some (Host.next_tmp h, Recorder.duration_of during))
  /\ fst (snd stopped) = Recorder.mkRecorder false during None
  /\ ~ In (Host.next_stream h) (Host.live (snd (snd stopped)))
  /\ In (Host.next_tmp h) (Host.tmp_files (snd (snd stopped)))
  /\ deliver later (snd stopped) = snd stopped.
Proof.
  intros D N. cbv zeta.
  destruct r as [rec data st]. rewrite deliver_blocks.
  rewrite (start_with_device _ h D).
  rewrite deliver_blocks. cbn [app].
  destruct during as [|b bs]; [congruence|].
  rewrite stop_with_audio. cbn [fst snd Host.live Host.tmp_files].
  repeat match goal with |- _ /\ _ => split end; try reflexivity.
  - intros I. apply filter_In in I. destruct I as [_ I].
    rewrite Nat.eqb_refl in I. discriminate I.
  - left. reflexivity.
  - apply deliver_blocks.
Qed.

(** Two blocks between [start] and [stop], one before and one after. *)
Lemma recorder_returns_what_was_delivered_witness :
  let h := Host.mkHost true [] 0 [] 0 true [] None in
  fst (Recorder.stop
         (fold_left (fun s b => after (Recorder._callback b) s)
            [[1%Z; 2%Z]; [3%Z]]
            (after Recorder.start
               (fold_left (fun s b => after (Recorder._callback b) s) [[9%Z]]
                  (Recorder.init, h)))))
  = Returns (Some (0%nat, Recorder.duration_of [[1%Z; 2%Z]; [3%Z]])).
Proof.
  cbv zeta.
  apply (recorder_returns_what_was_delivered Recorder.init
           (Host.mkHost true [] 0 [] 0 true [] None)
           [[9%Z]] [[1%Z; 2%Z]; [3%Z]] []); [reflexivity | discriminate].
Defined.

(* ================================================================== *)
(** * How a session of the popup ends *)
(* ================================================================== *)

Section ReviewFacts.

Lemma runModal_open (events : list Popup.event) (p : Popup.t) :
  Popup.modal p = true ->
  Forall (fun x => Review.closes x = false) events ->
  Popup.runModal p events
  = Popup.mkPopup (Popup.original_text p) (Popup.result_ p)
                  (Review.content (Popup.text_view p) events) true.
Proof.
  revert p. induction events as [|x r IH]; intros p M F.
  - destruct p. simpl in *. subst. reflexivity.
  - inversion F as [|? ? C Fr]; subst. cbn [Popup.runModal]. rewrite M.
    unfold Review.content. cbn [fold_left]. fold (Review.content).
    unfold Review.closes in C. apply orb_false_iff in C. destruct C as [C1 C2].
    destruct x as [k f typed| |content]; cbn [Popup.handle].
    + unfold Popup.keyDown_. simpl in C1, C2. rewrite C1 in *. simpl in C2.
      rewrite C2. rewrite IH by (simpl; auto). reflexivity.
    + discriminate C1.
    + rewrite IH by (simpl; auto). reflexivity.
Qed.

Lemma runModal_closed (events : list Popup.event) (p : Popup.t) :
  Popup.modal p = false -> Popup.runModal p events = p.
Proof. intros M. destruct events; simpl; [|rewrite M]; reflexivity. Qed.

End ReviewFacts.

(** X4.  The first event that closes the popup decides its answer, and what
    the user does afterwards is ignored.  If that event confirms (Enter
    without Shift, or the Done button), the answer is [done] with the text
    the view holds at that moment, [was_edited] telling whether it differs
    from the transcription and [needs_review] its negation; if it is Escape,
    the answer is [cancel] with the transcription itself, whatever was
    typed before. *)
Theorem popup_first_closing_event
  (transcription : str) (before after_ : list Popup.event) (e : Popup.event) :
  Forall (fun x => Review.closes x = false) before ->
  Review.closes e = true ->
  Popup.show transcription (before ++ e :: after_)
  = if Popup.confirms e then
      let text := Review.content transcription before in
      Popup.mkResult (lit "done") text (negb (str_eqb text transcription))
                     (Some (str_eqb text transcription))
    else Popup.mkResult (lit "cancel") transcription false None.
Proof.
  intros F C. unfold Popup.show.
  set (p0 := Popup.mkPopup transcription
               (Popup.mkResult (lit "cancel") transcription false (Some false))
               transcription true).
  assert (A : forall p q r, Popup.runModal p (q ++ r)
                            = Popup.runModal (Popup.runModal p q) r).
  { intros p q. revert p. induction q as [|x q IH]; intros p r; [reflexivity|].
    simpl. destruct (Popup.modal p) eqn:M; [apply IH|].
    symmetry. apply runModal_closed, M. }
  rewrite A, (runModal_open before p0 eq_refl F). cbn [Popup.runModal Popup.modal].
  cbn [Popup.original_text Popup.result_ Popup.text_view p0].
  unfold Review.closes, Review.cancels in C.
  destruct e as [k f typed| |content]; cbn [Popup.handle Popup.confirms] in *.
  - unfold Popup.keyDown_.
    destruct ((k =? 36)%Z && (Z.land f Popup.shift_flag =? 0)%Z) eqn:E.
    + rewrite runModal_closed by reflexivity. cbv zeta.
      unfold Popup.onDone_, Popup._close, Popup._was_edited, Popup._get_text.
      simpl. rewrite negb_involutive. reflexivity.
    + simpl in C. rewrite C. rewrite runModal_closed by reflexivity. reflexivity.
  - rewrite runModal_closed by reflexivity. cbv zeta.
    unfold Popup.onDone_, Popup._close, Popup._was_edited, Popup._get_text.
    simpl. rewrite negb_involutive. reflexivity.
  - discriminate C.
Qed.

(** The text is changed, Done is clicked, and Escape comes too late. *)
Lemma popup_first_closing_event_witness :
  Popup.show (lit "hello")
    ([Popup.Edit (lit "hello there")] ++ Popup.ClickDone
     :: [Popup.KeyDown 53 0 (lit "")])
  = Popup.mkResult (lit "done") (lit "hello there") true (Some false).
Proof.
  rewrite (popup_first_closing_event (lit "hello")
             [Popup.Edit (lit "hello there")] [Popup.KeyDown 53 0 (lit "")]
             Popup.ClickDone).
  - reflexivity.
  - repeat constructor.
  - reflexivity.
Defined.

(* ================================================================== *)
(** * Key events of app.py *)
(* ================================================================== *)

(** X5.  The key events that leave the application exactly as it was: every
    event when no listener is installed; a key that is neither binding; the
    release of any key but the hold key; a repeated key-down of the hold key
    while it is latched (auto-repeat); and a release of the hold key that is
    not latched. *)
Theorem ignored_key_events
  (w : App.world) (ty : App.event_type) (keycode : Z) :
  App.listening w = false
  \/ (App.is_key keycode (App.toggle_key w) = false
      /\ App.is_key keycode (App.hold_key w) = false)
  \/ (ty = App.kCGEventKeyUp /\ App.is_key keycode (App.hold_key w) = false)
  \/ (ty = App.kCGEventKeyDown
      /\ App.is_key keycode (App.toggle_key w) = false
      /\ App.hold_key_pressed w = true)
  \/ (ty = App.kCGEventKeyUp /\ App.hold_key_pressed w = false) ->
  App.step w (App.Key ty keycode) = w.
Proof.
  intros H. cbn [App.step].
  destruct (App.listening w) eqn:L; [|reflexivity].
  destruct w as [tk hk rc ir hp st th ho].
  unfold App.callback, bind, get, ret. cbn [App.toggle_key App.hold_key
    App.hold_key_pressed] in *.
  destruct H as [H|[[A B]|[[-> B]|[(-> & A & B)|[-> B]]]]].
  - discriminate H.
  - rewrite A, B. destruct ty; reflexivity.
  - rewrite B. reflexivity.
  - rewrite A. subst hp. rewrite andb_false_r. reflexivity.
  - subst hp. rewrite andb_false_r. reflexivity.
Qed.

(** The hold key 91 repeats while it is held down. *)
Lemma ignored_key_events_witness :
  let h := Host.mkHost true [] 0 [] 0 true [] None in
  let w := App.run (App.init (Some 89%Z) (Some 91%Z) h)
             [App.Key App.kCGEventKeyDown 91] in
  App.step w (App.Key App.kCGEventKeyDown 91) = w.
Proof.
  cbv zeta. apply ignored_key_events.
  right. right. right. left. repeat split; reflexivity.
Defined.

Section CycleFacts.

Import App.


Section Keys.

Variables (t k : Z) (st : Status) (th : list job) (ns nt : nat)
  (tmp : list nat) (dk : bool) (dd : list str)
  (mf : option (list Host.entry)).
Hypothesis N : t <> k.
Hypothesis Li :
  negb (negb (configured (Some t)) && negb (configured (Some k))) = true.





End Keys.

End CycleFacts.



(* ================================================================== *)
(** * The transcription thread of app.py *)
(* ================================================================== *)

(** X7.  When [transcribe] returns, with a text or without, the thread of
    app.py ends by deleting the temporary audio file and setting the status
    ["ready"], and it writes nothing into the training folder or the
    manifest, whatever the user does in the popup: [do_transcribe] saves on
    the action ["save"], and the popup answers ["done"] or ["cancel"]. *)
Theorem thread_deletes_the_recording
  (w : App.world) (j : App.job) (rest : list App.job) (model_exists : bool)
  (engine : Subprocess.process) (events : list Popup.event) (text : str) :
  App.threads w = j :: rest ->
  In (App.audio_path j) (Host.tmp_files (App.host w)) ->
  Transcriber.transcribe model_exists engine = Returns text ->
  let w' := App.step w (App.ThreadRuns model_exists engine events) in
  w' = App.mkWorld (App.toggle_key w) (App.hold_key w) (App.recorder w)
         (App.is_recording w) (App.hold_key_pressed w) App.Ready rest
         (Host.remove_tmp (App.audio_path j) (App.host w))
  /\ ~ In (App.audio_path j) (Host.tmp_files (App.host w'))
  /\ Host.data_dir (App.host w') = Host.data_dir (App.host w)
  /\ Host.manifest (App.host w') = Host.manifest (App.host w).
Proof.
  intros T I X. cbv zeta.
  assert (E : App.step w (App.ThreadRuns model_exists engine events)
              = App.mkWorld (App.toggle_key w) (App.hold_key w) (App.recorder w)
                  (App.is_recording w) (App.hold_key_pressed w) App.Ready rest
                  (Host.remove_tmp (App.audio_path j) (App.host w))).
  { cbn [App.step]. rewrite T. unfold App.run_thread. rewrite X.
    assert (U : Host.unlink (App.audio_path j)
                  (App.host (App.set_threads rest w))
                = (Returns tt, Host.remove_tmp (App.audio_path j) (App.host w))).
    { unfold Host.unlink. destruct w. simpl in *.
      rewrite (existsb_nat_in _ _ I). reflexivity. }
    unfold App.do_transcribe, after.
    change (bind (call (Returns text)) ?f ?s) with (f text s). cbv beta.
    unfold Popup.show_transcription_popup.
    destruct (truthy text).
    - destruct (popup_action text events) as [A|A]; rewrite A;
        cbn [str_eqb lit map String.list_ascii_of_string N_of_ascii N_of_digits
             char_eqb N.eqb Pos.eqb andb N.add N.mul Pos.add Pos.mul Pos.succ];
        unfold bind, App.on_host, zoom; rewrite U; destruct w; reflexivity.
    - unfold bind, App.on_host, zoom. rewrite U. destruct w; reflexivity. }
  rewrite E. cbn [App.host]. repeat split.
  - unfold Host.remove_tmp, Host.set_tmp_files. cbn [Host.tmp_files].
    intros F. apply filter_In in F. destruct F as [_ F].
    rewrite Nat.eqb_refl in F. discriminate F.
Qed.

(** A recording, then Done clicked in the popup on the transcript "hi". *)
Lemma thread_deletes_the_recording_witness :
  let h := Host.mkHost true [] 0 [] 0 true [] None in
  let engine := Subprocess.mkProcess true (Some (1 # 1)%Q)
                  (Subprocess.mkCompleted 0 (lit "hi") []) in
  let w := App.run (App.init (Some 89%Z) (Some 91%Z) h)
             [App.Key App.kCGEventKeyDown 89; App.Audio [0%Z];
              App.Key App.kCGEventKeyDown 89] in
  let w' := App.step w (App.ThreadRuns true engine [Popup.ClickDone]) in
  Host.data_dir (App.host w') = [] /\ Host.tmp_files (App.host w') = [].
Proof.
  cbv zeta.
  destruct (thread_deletes_the_recording
              (App.run (App.init (Some 89%Z) (Some 91%Z)
                          (Host.mkHost true [] 0 [] 0 true [] None))
                 [App.Key App.kCGEventKeyDown 89; App.Audio [0%Z];
                  App.Key App.kCGEventKeyDown 89])
              (App.mkJob 0 (1 # 16000)) [] true
              (Subprocess.mkProcess true (Some (1 # 1)%Q)
                 (Subprocess.mkCompleted 0 (lit "hi") []))
              [Popup.ClickDone] (lit "hi"))
    as (E & _ & D & _).
  - vm_compute. reflexivity.
  - vm_compute. left. reflexivity.
  - vm_compute. reflexivity.
  - rewrite E. split; vm_compute; reflexivity.
Defined.

(* ================================================================== *)
(** * What a save writes *)
(* ================================================================== *)

Section SaveEffects.

Lemma in_add_name (x name : str) (d : list str) :
  In x (Host.add_name name d) <-> x = name \/ In x d.
Proof.
  unfold Host.add_name. destruct (existsb (str_eqb name) d) eqn:E.
  - apply existsb_name_in in E. split; [auto|]. intros [->|H]; auto.
  - rewrite in_app_iff. simpl. split.
    + intros [H|[H|[]]]; auto.
    + intros [->|H]; auto.
Qed.

Lemma audio_name_suffix (n : Z) (s1 s2 : str) :
  DataDir.audio_name n s1 = DataDir.audio_name n s2 -> s1 = s2.
Proof.
  unfold DataDir.audio_name. intros H.
  apply app_inv_head in H. apply app_inv_head in H. exact H.
Qed.

End SaveEffects.

(** X8.  When the number can be computed, the disk is writable and the
    temporary file exists, [save_training_data] consumes the temporary file
    and leaves in the folder the audio file and the text file of the new
    number, beside every file that was there; the raw transcript is written
    exactly when the text was edited; and the manifest gets one more record,
    with the number, the duration, the flag and the two names. *)
Theorem save_writes_the_entry
  (h : Host.t) (p : nat) (final_text raw_text : str) (d : Q) (edited : bool)
  (num : Z) :
  App.next_number (Host.data_dir h) = Returns num ->
  Host.disk_ok h = true ->
  In p (Host.tmp_files h) ->
  exists h',
    App.save_training_data p final_text raw_text d edited h = (Returns num, h')
    /\ ~ In p (Host.tmp_files h')
    /\ In (DataDir.audio_name num (lit ".wav")) (Host.data_dir h')
    /\ In (DataDir.audio_name num (lit ".txt")) (Host.data_dir h')
    /\ (In (DataDir.audio_name num (lit "_raw.txt")) (Host.data_dir h')
        <-> edited = true
            \/ In (DataDir.audio_name num (lit "_raw.txt")) (Host.data_dir h))
    /\ (forall name, In name (Host.data_dir h) -> In name (Host.data_dir h'))
    /\ Host.manifest h'
       = Some (match Host.manifest h with Some l => l | None => [] end
               ++ [Host.mkEntry num d edited
                     (DataDir.audio_name num (lit ".wav"))
                     (DataDir.audio_name num (lit ".txt"))])
    /\ Host.live h' = Host.live h.
Proof.
  intros A D T.
  assert (R1 : DataDir.audio_name num (lit "_raw.txt")
               <> DataDir.audio_name num (lit ".txt")).
  { intros E. apply audio_name_suffix in E. discriminate E. }
  assert (R2 : DataDir.audio_name num (lit "_raw.txt")
               <> DataDir.audio_name num (lit ".wav")).
  { intros E. apply audio_name_suffix in E. discriminate E. }
  destruct h as [dev live ns tmp nt dk dd mf].
  cbn [Host.data_dir Host.disk_ok Host.tmp_files Host.manifest Host.live] in *.
  subst dk.
  set (wav := DataDir.audio_name num (lit ".wav")) in *.
  set (txt := DataDir.audio_name num (lit ".txt")) in *.
  set (raw := DataDir.audio_name num (lit "_raw.txt")) in *.
  unfold App.save_training_data, bind, get, call, ret, modify, raise.
  cbn [Host.data_dir]. rewrite A. unfold Host.move.
  cbn [Host.tmp_files Host.disk_ok]. rewrite (existsb_nat_in _ _ T).
  cbn [negb]. unfold Host.write_file, Host.remove_tmp, Host.set_tmp_files,
    Host.set_data_dir, Host.set_manifest.
  cbn [Host.data_dir Host.disk_ok Host.tmp_files Host.manifest Host.live
       Host.device Host.next_stream Host.next_tmp].
  fold wav txt raw.
  destruct edited;
    cbn [Host.data_dir Host.disk_ok Host.tmp_files Host.manifest Host.live
         Host.device Host.next_stream Host.next_tmp];
    (eexists; split; [reflexivity|]);
    cbn [Host.data_dir Host.disk_ok Host.tmp_files Host.manifest Host.live
         Host.device Host.next_stream Host.next_tmp];
    rewrite ?in_add_name;
    (split; [intros F; apply filter_In in F; destruct F as [_ F];
             rewrite Nat.eqb_refl in F; discriminate F|]);
    (split; [tauto|]); (split; [tauto|]);
    (split; [split; [tauto | intros [F|F]; [try discriminate F|]; tauto]|]);
    (split; [intros name I; rewrite ?in_add_name; tauto|]);
    split; reflexivity.
Qed.

(** An edited transcript saved into an empty folder: entry 1, with its raw
    transcript. *)
Lemma save_writes_the_entry_witness :
  let h := Host.mkHost true [] 0 [3%nat] 4 true [] None in
  exists h',
    App.save_training_data 3 (lit "hi there") (lit "hi") (1 # 1) true h
    = (Returns 1%Z, h')
    /\ In (DataDir.audio_name 1 (lit "_raw.txt")) (Host.data_dir h')
    /\ Host.tmp_files h' = [].
Proof.
  cbv zeta.
  destruct (save_writes_the_entry
              (Host.mkHost true [] 0 [3%nat] 4 true [] None) 3
              (lit "hi there") (lit "hi") (1 # 1) true 1%Z
              eq_refl eq_refl (or_introl eq_refl))
    as (h' & E & _ & _ & _ & R & _).
  exists h'. split; [exact E|]. split.
  - apply R. left. reflexivity.
  - injection E as <-. reflexivity.
Defined.

(* ================================================================== *)
(** * Numbering a folder that holds other files *)
(* ================================================================== *)

Section ForeignNames.

Lemma startswith_split (p s : str) :
  startswith p s = true -> exists r, s = p ++ r.
Proof.
  revert s. induction p as [|c p IH]; intros s H.
  - exists s. reflexivity.
  - destruct s as [|x s]; simpl in H; [discriminate|].
    apply andb_true_iff in H. destruct H as [E H].
    apply N.eqb_eq in E. subst x.
    destruct (IH s H) as [r ->]. exists r. reflexivity.
Qed.

Lemma endswith_split (p s : str) :
  endswith p s = true -> exists y, s = y ++ p.
Proof.
  unfold endswith. intros H. apply startswith_split in H.
  destruct H as [r E]. exists (rev r).
  rewrite <- (rev_involutive s), E, rev_app_distr, rev_involutive.
  reflexivity.
Qed.

(** What [fnmatch(name, "audio_*.wav")] accepts. *)
Lemma matches_shape (name : str) :
  DataDir.matches name = true ->
  exists z, name = lit "audio_" ++ z ++ lit ".wav".
Proof.
  unfold DataDir.matches. intros H.
  apply andb_true_iff in H. destruct H as [H L].
  apply andb_true_iff in H. destruct H as [S E].
  apply Nat.leb_le in L.
  destruct (startswith_split _ _ S) as [r Hr].
  destruct (endswith_split _ _ E) as [y Hy].
  exists (skipn 6 y).
  assert (Ly : (6 <= length y)%nat).
  { rewrite Hy, length_app in L. change (length (lit ".wav")) with 4%nat in L.
    lia. }
  assert (R : r = skipn 6 name) by (rewrite Hr; reflexivity).
  rewrite Hy, skipn_app in R.
  replace (6 - length y)%nat with 0%nat in R by lia.
  rewrite Hr at 1. rewrite R. reflexivity.
Qed.

(** The component [f.stem.split('_')[1]] of a matched name exists. *)
Lemma matched_part (name : str) :
  DataDir.matches name = true ->
  exists part,
    DataDir.number name = int part
    /\ DataDir.numbered name = Returns (isdigit part).
Proof.
  intros H. destruct (matches_shape name H) as [z ->].
  unfold DataDir.number, DataDir.numbered.
  rewrite app_assoc, stem_wav by discriminate.
  change (lit "audio_") with ([97; 117; 100; 105; 111; 95]%N).
  cbn [app split char_eqb N.eqb Pos.eqb].
  destruct (split 95%N z) as [|part rest] eqn:E.
  - destruct (split_nonempty _ _ E).
  - exists part. split; reflexivity.
Qed.

Lemma digit_cons_numeral (c : char) (k : Decimal.uint -> Decimal.uint) :
  digit_cons c = Some k -> (48 <= c <= 57)%N.
Proof.
  unfold digit_cons. intros H.
  destruct (c - 48)%N as [|p] eqn:E.
  - destruct (48 <=? c)%N eqn:L; [|discriminate H].
    apply N.leb_le in L. lia.
  - repeat match type of H with
           | context [match ?q with _ => _ end] =>
               destruct q; try discriminate H
           end; lia.
Qed.

Lemma parse_uint_digits (s : str) (d : Decimal.uint) :
  parse_uint s = Some d ->
  forallb (fun c => (48 <=? c) && (c <=? 57))%N s = true.
Proof.
  revert d. induction s as [|c t IH]; intros d H; [reflexivity|].
  simpl in H. destruct (digit_cons c) as [k|] eqn:K; [|discriminate H].
  destruct (parse_uint t) as [r|] eqn:P; [|discriminate H].
  cbn [forallb]. rewrite (IH r eq_refl).
  apply digit_cons_numeral in K.
  replace (48 <=? c)%N with true by (symmetry; apply N.leb_le; lia).
  replace (c <=? 57)%N with true by (symmetry; apply N.leb_le; lia).
  reflexivity.
Qed.


Lemma int_outcome (s : str) :
  (exists z, int s = Returns z) \/ int s = Raises ValueError.
Proof.
  unfold int.
  match goal with
  | |- (exists z, match ?o with _ => _ end = _) \/ _ => destruct o as [z|]
  end; [left; exists z; reflexivity | right; reflexivity].
Qed.

Lemma number_outcome (name : str) :
  DataDir.matches name = true ->
  (exists z, DataDir.number name = Returns z)
  \/ DataDir.number name = Raises ValueError.
Proof.
  intros H. destruct (matched_part name H) as (part & -> & _).
  apply int_outcome.
Qed.




Lemma comprehension_raises {A B} (f : A -> outcome B) (e : exn) (l : list A)
  (x : A) :
  In x l -> f x = Raises e ->
  (forall y, In y l -> (exists b, f y = Returns b) \/ f y = Raises e) ->
  DataDir.comprehension f l = Raises e.
Proof.
  induction l as [|y l IH]; intros I R O; [destruct I|].
  cbn [DataDir.comprehension].
  destruct I as [->|I].
  - rewrite R. reflexivity.
  - destruct (O y (or_introl eq_refl)) as [[b ->]| ->]; [|reflexivity].
    rewrite IH; [reflexivity | exact I | exact R |].
    intros z J. apply O. right. exact J.
Qed.

Lemma comprehension_length {A B} (f : A -> outcome B) (l : list A)
  (ys : list B) :
  DataDir.comprehension f l = Returns ys -> length ys = length l.
Proof.
  revert ys. induction l as [|x l IH]; intros ys H; simpl in H.
  - injection H as <-. reflexivity.
  - destruct (f x); try discriminate H.
    destruct (DataDir.comprehension f l); try discriminate H.
    injection H as <-. simpl. f_equal. apply IH. reflexivity.
Qed.

(** panokeet_final.py and app.py number a folder alike. *)
Lemma process_audio_number (d : list str) :
  ProcessAudio.next_number d = App.next_number d.
Proof.
  unfold ProcessAudio.next_number, App.next_number.
  destruct (DataDir.glob d) as [|x r] eqn:G; [reflexivity|].
  destruct (DataDir.comprehension DataDir.number (x :: r)) as [ys| |] eqn:C;
    try reflexivity.
  apply comprehension_length in C. destruct ys; [discriminate C|].
  reflexivity.
Qed.

End ForeignNames.


(** X10.  One file [audio_*.wav] in the folder whose number cannot be read
    stops every save of app.py and of panokeet_final.py: the numbering
    raises [ValueError], and [save_training_data] raises it before it has
    moved or written anything. *)
Theorem unreadable_number_stops_saving
  (h : Host.t) (name : str) (audio_path : nat) (final_text raw_text : str)
  (duration : Q) (was_edited : bool) :
  In name (Host.data_dir h) ->
  DataDir.matches name = true ->
  DataDir.number name = Raises ValueError ->
  App.next_number (Host.data_dir h) = Raises ValueError
  /\ ProcessAudio.next_number (Host.data_dir h) = Raises ValueError
  /\ App.save_training_data audio_path final_text raw_text duration was_edited h
     = (Raises ValueError, h).
Proof.
  intros I M R.
  assert (G : In name (DataDir.glob (Host.data_dir h)))
    by (apply filter_In; split; assumption).
  assert (C : DataDir.comprehension DataDir.number
                (DataDir.glob (Host.data_dir h)) = Raises ValueError).
  { apply (comprehension_raises _ _ _ name G R).
    intros y J. apply number_outcome.
    apply filter_In in J. apply J. }
  assert (A : App.next_number (Host.data_dir h) = Raises ValueError).
  { unfold App.next_number.
    destruct (DataDir.glob (Host.data_dir h)) as [|x r] eqn:E; [destruct G|].
    rewrite C. reflexivity. }
  split; [exact A|]. split; [rewrite process_audio_number; exact A|].
  unfold App.save_training_data, bind, get, call. rewrite A. reflexivity.
Qed.

(** A copy named [audio_backup.wav] in the folder. *)
Lemma unreadable_number_stops_saving_witness :
  let h := Host.mkHost true [] 0 [3%nat] 4 true
             [DataDir.audio_name 1 (lit ".wav"); lit "audio_backup.wav"]
             None in
  App.save_training_data 3 (lit "hi") (lit "hi") (1 # 1) false h
  = (Raises ValueError, h).
Proof.
  cbv zeta.
  apply (unreadable_number_stops_saving
           (Host.mkHost true [] 0 [3%nat] 4 true
              [DataDir.audio_name 1 (lit ".wav"); lit "audio_backup.wav"]
              None)
           (lit "audio_backup.wav") 3 (lit "hi") (lit "hi") (1 # 1) false).
  - right. left. reflexivity.
  - vm_compute. reflexivity.
  - vm_compute. reflexivity.
Defined.

(* ================================================================== *)
(** * backend/server.py: the stream behind the endpoints *)
(* ================================================================== *)

Section BackendSession.

Import Backend.

(** What the endpoints that neither start nor stop a recording leave
    alone. *)
Lemma same_session_coherent (s s' : state) :
  recording (fst s') = recording (fst s) ->
  stream (fst s') = stream (fst s) ->
  Host.live (snd s') = Host.live (snd s) ->
  coherent s -> coherent s'.
Proof. unfold coherent. intros -> -> ->. exact (fun H => H). Qed.

Lemma backend_start_coherent (s : state) :
  coherent s -> coherent (after start_recording s).
Proof.
  destruct s as [[rec ad st tp lt ld] [dev live ns tmp nt dk dd mf]].
  unfold coherent. cbn [fst snd recording stream Host.live].
  intros [L R].
  unfold start_recording, after, bind, self_, get, ret, set_self, modify.
  cbn [fst snd recording stream Host.live Host.device].
  destruct rec.
  - cbn [fst snd recording stream Host.live]. split; assumption.
  - assert (S : st = None).
    { destruct st as [id|]; [|reflexivity].
      assert (F : false = true) by (apply R; discriminate). discriminate F. }
    subst st. cbn [App.held] in L. subst live.
    destruct dev; cbn [negb Host.open_stream Host.device fst snd recording
                       stream Host.live Host.next_stream App.held].
    + split; [reflexivity|]. split; [discriminate | reflexivity].
    + split; [reflexivity|]. split; [discriminate | congruence].
Qed.

Lemma backend_stop_coherent (s : state) :
  coherent s -> coherent (after stop_recording s).
Proof.
  destruct s as [[rec ad st tp lt ld] [dev live ns tmp nt dk dd mf]].
  unfold coherent. cbn [fst snd recording stream Host.live].
  intros [L R].
  destruct rec; [|split; assumption].
  destruct st as [id|]; cbn [App.held] in L; subst live; destruct ad;
    cbv [stop_recording after bind self_ get ret set_self modify host zoom
         Host.close_stream Host.new_tmp Host.set_live fst snd recording
         stream Host.live audio_data negb temp_audio_path last_transcript
         last_duration filter Host.device Host.next_stream Host.tmp_files
         Host.next_tmp Host.disk_ok Host.data_dir Host.manifest App.held];
    rewrite ?Nat.eqb_refl; cbv [negb];
    (split; [reflexivity|]); split; congruence.
Qed.

Lemma after_bind {S A B} (m : M S A) (k : A -> M S B) (s : S) :
  after (bind m k) s
  = match fst (m s) with
    | Returns a => after (k a) (after m s)
    | _ => after m s
    end.
Proof.
  unfold after, bind. destruct (m s) as [[a|e|] s']; reflexivity.
Qed.

Lemma keeps_bind {A B} (m : M state A) (k : A -> M state B) :
  keeps_session m -> (forall a, keeps_session (k a)) ->
  keeps_session (bind m k).
Proof.
  intros Hm Hk s. rewrite after_bind.
  destruct (fst (m s)) as [a| |]; try apply Hm.
  destruct (Hk a (after m s)) as (R & S & L).
  destruct (Hm s) as (R' & S' & L').
  rewrite R, S, L. repeat split; assumption.
Qed.

Lemma keeps_pure {A} (o : outcome A) : keeps_session (call o).
Proof. intros s. repeat split. Qed.

Lemma keeps_ret {A} (a : A) : keeps_session (ret a).
Proof. intros s. repeat split. Qed.

Lemma keeps_get : keeps_session get.
Proof. intros s. repeat split. Qed.

Lemma keeps_self : keeps_session self_.
Proof. intros s. repeat split. Qed.

Lemma keeps_set_self (f : RecorderState -> RecorderState) :
  (forall r, recording (f r) = recording r /\ stream (f r) = stream r) ->
  keeps_session (set_self f).
Proof.
  intros H [r h]. destruct (H r) as [R S].
  unfold after, set_self, modify. cbn [fst snd]. repeat split; assumption.
Qed.

Lemma keeps_host {A} (m : M Host.t A) :
  (forall h, Host.live (after m h) = Host.live h) ->
  keeps_session (host m).
Proof.
  intros H [r h]. unfold after, host, zoom in *. cbn [fst snd].
  specialize (H h). destruct (m h) as [o h']. cbn [fst snd] in *.
  repeat split. exact H.
Qed.

Lemma write_file_keeps_streams (name : str) (h : Host.t) :
  Host.live (after (Host.write_file name) h) = Host.live h.
Proof.
  unfold after, Host.write_file. destruct (Host.disk_ok h); reflexivity.
Qed.

Lemma move_keeps_streams (p : nat) (name : str) (h : Host.t) :
  Host.live (after (Host.move p name) h) = Host.live h.
Proof.
  unfold after, Host.move.
  destruct (existsb (Nat.eqb p) (Host.tmp_files h)); [|reflexivity].
  destruct (Host.disk_ok h); reflexivity.
Qed.

Lemma keeps_set_last_duration (d : Q) : keeps_session (set_last_duration d).
Proof. apply keeps_set_self. intros r. split; reflexivity. Qed.

Lemma keeps_transcribe (engine : Subprocess.process) :
  keeps_session (transcribe engine).
Proof.
  apply keeps_bind; [apply keeps_pure|]. intros [text|]; [|apply keeps_ret].
  apply keeps_bind; [|intros; apply keeps_ret].
  apply keeps_set_self. intros r. split; reflexivity.
Qed.

Lemma keeps_cleanup_temp : keeps_session cleanup_temp.
Proof.
  apply keeps_bind; [apply keeps_get|]. intros s.
  destruct (temp_audio_path (fst s)) as [p|]; [|apply keeps_ret].
  destruct (existsb (Nat.eqb p) (Host.tmp_files (snd s))); [|apply keeps_ret].
  apply keeps_bind.
  - apply keeps_host. intros h. apply unlink_keeps_streams.
  - intros _. apply keeps_set_self. intros r. split; reflexivity.
Qed.

Lemma keeps_save_transcript : keeps_session save_transcript.
Proof.
  apply keeps_bind; [apply keeps_get|]. intros s.
  apply keeps_bind; [apply keeps_pure|]. intros num.
  apply keeps_bind.
  { destruct (temp_audio_path (fst s)) as [p|]; [|apply keeps_ret].
    destruct (existsb (Nat.eqb p) (Host.tmp_files (snd s)));
      [|apply keeps_ret].
    apply keeps_bind.
    - apply keeps_host. intros h. apply move_keeps_streams.
    - intros _. apply keeps_set_self. intros r. split; reflexivity. }
  intros _. apply keeps_bind.
  { apply keeps_host. intros h. apply write_file_keeps_streams. }
  intros _. apply keeps_bind.
  { apply keeps_host. intros h. apply write_file_keeps_streams. }
  intros _. apply keeps_ret.
Qed.

Lemma keeps_get_status : keeps_session get_status.
Proof.
  apply keeps_bind; [apply keeps_self|]. intros r.
  destruct (recording r); apply keeps_ret.
Qed.

Lemma keeps_get_pending : keeps_session get_pending.
Proof.
  apply keeps_bind; [apply keeps_self|]. intros r.
  destruct (last_transcript r) as [text|]; [|apply keeps_ret].
  destruct (temp_audio_path r); [|apply keeps_ret].
  destruct (truthy text); apply keeps_ret.
Qed.

Lemma coherent_then {A B} (m : M state A) (k : A -> M state B) (s : state) :
  coherent (after m s) -> (forall a, keeps_session (k a)) ->
  coherent (after (bind m k) s).
Proof.
  intros C K. rewrite after_bind.
  destruct (fst (m s)) as [a| |]; try exact C.
  destruct (K a (after m s)) as (R & S & L).
  exact (same_session_coherent _ _ R S L C).
Qed.

Lemma keeps_coherent {A} (m : M state A) (s : state) :
  keeps_session m -> coherent s -> coherent (after m s).
Proof.
  intros K C. destruct (K s) as (R & S & L).
  exact (same_session_coherent _ _ R S L C).
Qed.

Lemma keeps_after_stop (engine : Subprocess.process) (speechless : response)
  (stopped : option nat * Q) :
  keeps_session
    (match stopped with
     | (None, _) => ret (Stopped (lit "No audio"))
     | (Some audio_path, duration) =>
         set_last_duration duration ;;
         transcript <- transcribe engine ;;
         if Server.no_speech transcript then cleanup_temp ;; ret speechless
         else
           ret (Transcribed (match transcript with Some t => t | None => [] end)
                            duration)
     end).
Proof.
  destruct stopped as [[p|] d]; [|apply keeps_ret].
  apply keeps_bind; [apply keeps_set_last_duration|]. intros _.
  apply keeps_bind; [apply keeps_transcribe|]. intros t.
  destruct (Server.no_speech t); [|apply keeps_ret].
  apply keeps_bind; [apply keeps_cleanup_temp|]. intros _. apply keeps_ret.
Qed.

Lemma handle_coherent (q : request) (s : state) :
  coherent s -> coherent (after (handle q) s).
Proof.
  intros C. destruct q as [engine| |engine| | | |]; cbn [handle].
  - unfold toggle_recording. rewrite after_bind. cbn [self_ fst after snd].
    destruct (recording (fst s)).
    + apply coherent_then; [apply backend_stop_coherent, C|].
      intros stopped. apply keeps_after_stop.
    + apply coherent_then; [apply backend_start_coherent, C|].
      intros b. destruct (negb b); apply keeps_ret.
  - unfold record_start. rewrite after_bind. cbn [self_ fst after snd].
    destruct (recording (fst s)); [exact C|].
    apply coherent_then; [apply backend_start_coherent, C|].
    intros b. destruct (negb b); apply keeps_ret.
  - unfold record_stop. rewrite after_bind. cbn [self_ fst after snd].
    destruct (recording (fst s)); cbn [negb]; [|exact C].
    apply coherent_then; [apply backend_stop_coherent, C|].
    intros [[p|] d]; [|apply keeps_ret].
    apply keeps_bind; [apply keeps_set_last_duration|]. intros _.
    apply keeps_bind; [apply keeps_transcribe|]. intros t.
    destruct (Server.no_speech t); [|apply keeps_ret].
    apply keeps_bind; [apply keeps_cleanup_temp|]. intros _. apply keeps_ret.
  - apply keeps_coherent; [apply keeps_save_transcript | exact C].
  - apply keeps_coherent; [|exact C].
    apply keeps_bind; [apply keeps_cleanup_temp|]. intros _. apply keeps_ret.
  - apply keeps_coherent; [apply keeps_get_status | exact C].
  - apply keeps_coherent; [apply keeps_get_pending | exact C].
Qed.

Lemma backend_step_coherent (s : state) (i : input) :
  coherent s -> coherent (step s i).
Proof.
  intros C. destruct i as [q|b|p|w]; cbn [step].
  - apply handle_coherent, C.
  - destruct (Host.live (snd s)); [exact C|].
    apply keeps_coherent; [|exact C].
    apply keeps_bind; [apply keeps_self|]. intros r.
    destruct (recording r); [|apply keeps_ret].
    apply keeps_set_self. intros r'. split; reflexivity.
  - destruct s as [r h]. exact C.
  - destruct s as [r h]. exact C.
Qed.

Lemma backend_run_coherent (inputs : list input) (s : state) :
  coherent s -> coherent (run s inputs).
Proof.
  revert s. induction inputs as [|i r IH]; intros s C; [exact C|].
  apply IH, backend_step_coherent, C.
Qed.

End BackendSession.

(** X11.  backend/server.py keeps at most one input stream, whatever
    requests, audio blocks and changes of the microphone or the disk reach
    it and however the engine behaves: after any sequence of them the live
    streams are the one in [recorder.stream], and there is one exactly while
    [recorder.recording] is set. *)
Theorem backend_single_stream (h : Host.t) (inputs : list Backend.input) :
  Host.live h = [] ->
  let s := Backend.run (Backend.init, h) inputs in
  Host.live (snd s) = App.held (Backend.stream (fst s))
  /\ (Backend.recording (fst s) = true <-> Backend.stream (fst s) <> None)
  /\ (length (Host.live (snd s)) <= 1)%nat.
Proof.
  intros L. cbv zeta.
  assert (C : Backend.coherent (Backend.run (Backend.init, h) inputs)).
  { apply backend_run_coherent. split; [exact L|].
    split; [discriminate | intros H; exfalso; apply H; reflexivity]. }
  destruct C as [E R]. split; [exact E|]. split; [exact R|].
  rewrite E. destruct (Backend.stream _); simpl; lia.
Qed.

(** Two starts, audio, and a toggle that stops: no stream is left. *)
Lemma backend_single_stream_witness :
  let h := Host.mkHost true [] 0 [] 0 true [] None in
  let engine := Subprocess.mkProcess true (Some (1 # 1)%Q)
                  (Subprocess.mkCompleted 0 (lit "hi") []) in
  let s := Backend.run (Backend.init, h)
             [Backend.Request Backend.PostStart;
              Backend.Request Backend.PostStart;
              Backend.Audio [0%Z];
              Backend.Request (Backend.PostToggle engine)] in
  (length (Host.live (snd s)) <= 1)%nat.
Proof.
  cbv zeta.
  apply (backend_single_stream
           (Host.mkHost true [] 0 [] 0 true [] None)
           [Backend.Request Backend.PostStart;
            Backend.Request Backend.PostStart;
            Backend.Audio [0%Z];
            Backend.Request
              (Backend.PostToggle
                 (Subprocess.mkProcess true (Some (1 # 1)%Q)
                    (Subprocess.mkCompleted 0 (lit "hi") [])))]
           eq_refl).
Defined.

(* ================================================================== *)
(** * backend/server.py: what becomes of the temporary file *)
(* ================================================================== *)

Ltac backend_run :=
  cbv [Backend.toggle_recording Backend.record_stop Backend.record_start
       Backend.start_recording Backend.stop_recording Backend.transcribe
       Backend.cleanup_temp Backend.set_last_duration Backend.save_transcript
       Backend.cancel_transcript Backend.get_pending Backend.get_status
       Backend.self_ Backend.set_self Backend.host
       after bind get ret modify call raise zoom
       Host.close_stream Host.new_tmp Host.set_live Host.unlink Host.remove_tmp
       Host.set_tmp_files Host.open_stream Host.move Host.write_file
       Host.set_data_dir
       fst snd negb existsb orb
       Backend.recording Backend.audio_data Backend.stream
       Backend.temp_audio_path Backend.last_transcript Backend.last_duration
       Host.device Host.live Host.next_stream Host.tmp_files Host.next_tmp
       Host.disk_ok Host.data_dir Host.manifest].

(** X12.  A recording that holds audio, stopped by [POST /record/stop] or by
    [POST /toggle] while the engine gives no text (it failed, timed out, or
    wrote only white space): the request is answered with the error, and
    the temporary file written for the engine is deleted again, so that
    nothing is pending afterwards and the training folder is untouched. *)
Theorem backend_no_speech_cleans_up
  (r : Backend.RecorderState) (h : Host.t) (engine : Subprocess.process)
  (t : option str) (b : Recorder.block) (bs : list Recorder.block) (id : nat) :
  Backend.recording r = true ->
  Backend.audio_data r = b :: bs ->
  Backend.stream r = Some id ->
  Server.transcribe engine = Returns t ->
  Server.no_speech t = true ->
  let stop := Backend.record_stop engine (r, h) in
  let toggle := Backend.toggle_recording engine (r, h) in
  fst stop = Returns (Backend.HTTPException 400 (lit "No speech detected"))
  /\ fst toggle = Returns (Backend.Stopped (lit "No speech"))
  /\ snd toggle = snd stop
  /\ Backend.recording (fst (snd stop)) = false
  /\ Backend.temp_audio_path (fst (snd stop)) = None
  /\ ~ In (Host.next_tmp h) (Host.tmp_files (snd (snd stop)))
  /\ (forall p, p <> Host.next_tmp h ->
        (In p (Host.tmp_files (snd (snd stop))) <-> In p (Host.tmp_files h)))
  /\ Host.data_dir (snd (snd stop)) = Host.data_dir h
  /\ fst (Backend.get_pending (snd stop)) = Returns Backend.NotPending.
Proof.
  destruct r as [rec ad st tp lt ld], h as [dev live ns tmp nt dk dd mf].
  cbn [Backend.recording Backend.audio_data Backend.stream].
  intros -> -> -> T S. cbv zeta.
  unfold Backend.record_stop, Backend.toggle_recording, Backend.transcribe.
  rewrite T.
  backend_run.
  destruct t as [text|]; backend_run; rewrite ?S; backend_run;
    rewrite ?Nat.eqb_refl; backend_run;
    repeat match goal with |- _ /\ _ => split end;
    try reflexivity.
  all: try (intros F; apply filter_In in F; destruct F as [_ F];
            rewrite Nat.eqb_refl in F; discriminate F).
  all: try (intros p P; rewrite filter_In; cbn [In];
            destruct (Nat.eqb_spec p nt) as [E|E]; [contradiction|];
            split; [intros [[I|I] _]; [congruence | exact I]
                   |intros I; split; [right; exact I | reflexivity]]).
  destruct lt; reflexivity.
Qed.

(** A stop after one block while [whisper-cli] is missing. *)
Lemma backend_no_speech_cleans_up_witness :
  let h := Host.mkHost true [7%nat] 8 [] 0 true [] None in
  let r := Backend.mkState true [[0%Z]] (Some 7%nat) None None None in
  let engine := Subprocess.mkProcess false None
                  (Subprocess.mkCompleted 0 [] []) in
  fst (Backend.record_stop engine (r, h))
  = Returns (Backend.HTTPException 400 (lit "No speech detected"))
  /\ Host.tmp_files (snd (snd (Backend.record_stop engine (r, h)))) = [].
Proof.
  cbv zeta.
  pose proof (backend_no_speech_cleans_up
                (Backend.mkState true [[0%Z]] (Some 7%nat) None None None)
                (Host.mkHost true [7%nat] 8 [] 0 true [] None)
                (Subprocess.mkProcess false None
                   (Subprocess.mkCompleted 0 [] []))
                None [0%Z] [] 7%nat eq_refl eq_refl eq_refl eq_refl eq_refl)
    as H.
  cbv zeta in H. destruct H as (E & _). split; [exact E|].
  vm_compute. reflexivity.
Defined.





Section BackendLeak.

Import Backend.

Lemma orphan_filter (p q : nat) (tmp : list nat) :
  Some q <> Some p -> In p tmp ->
  In p (filter (fun x => negb (Nat.eqb x q)) tmp).
Proof.
  intros N I. apply filter_In. split; [exact I|].
  destruct (Nat.eqb_spec p q) as [E|E]; [congruence | reflexivity].
Qed.

Ltac backend_eval :=
  cbv [toggle_recording record_stop record_start start_recording
       stop_recording transcribe cleanup_temp set_last_duration
       save_transcript cancel_transcript get_pending get_status callback
       self_ set_self host handle
       after bind get ret modify call raise zoom
       Host.close_stream Host.new_tmp Host.set_live Host.unlink Host.remove_tmp
       Host.set_tmp_files Host.open_stream Host.move Host.write_file
       Host.set_data_dir Host.set_device Host.set_disk_ok
       fst snd
       recording audio_data stream temp_audio_path last_transcript
       last_duration
       Host.device Host.live Host.next_stream Host.tmp_files Host.next_tmp
       Host.disk_ok Host.data_dir Host.manifest].

Ltac orphan_cases :=
  backend_eval; cbn [negb Server.no_speech];
  repeat (match goal with
          | |- context [truthy ?t] => destruct (truthy t)
          | |- context [existsb ?f ?l] => destruct (existsb f l)
          | |- context [Server.next_number ?d] =>
              destruct (Server.next_number d) as [num| |]
          end; backend_eval; cbn [negb]);
  repeat match goal with |- _ /\ _ => split end;
  try assumption; try discriminate; try lia;
  try (right; assumption);
  try (apply orphan_filter; [assumption | try (right; assumption);
                                          assumption]).

Lemma orphan_step (p : nat) (s : state) (i : input) :
  orphan p s -> orphan p (step s i).
Proof.
  destruct s as [[rec ad st tp lt ld] [dev live ns tmp nt dk dd mf]].
  unfold orphan. cbn [fst snd temp_audio_path Host.tmp_files Host.next_tmp].
  intros (T & I & L).
  assert (F : Some nt <> Some p) by (intros E; injection E as E; lia).
  destruct i as [q|b|present|writable]; cbn [step].
  - destruct q as [engine| |engine| | | |]; cbn [handle];
      unfold toggle_recording, record_stop, transcribe;
      try (generalize (Server.transcribe engine); intros [[text|]| |]);
      destruct rec, st as [id|], ad as [|a ad], tp as [q|], dev, dk,
        lt as [t0|];
      orphan_cases.
  - destruct live, rec; backend_eval; repeat split; assumption.
  - backend_eval. repeat split; assumption.
  - backend_eval. repeat split; assumption.
Qed.

Lemma orphan_run (p : nat) (inputs : list input) (s : state) :
  orphan p s -> orphan p (run s inputs).
Proof.
  revert s. induction inputs as [|i r IH]; intros s O; [exact O|].
  apply IH, orphan_step, O.
Qed.

End BackendLeak.

(** X15.  Starting a recording while a transcript is pending forgets its
    temporary file without deleting it: after [POST /record/start] or
    [POST /toggle], with or without a microphone, nothing is pending any
    more, and no later request, whatever it is, deletes or moves the
    file. *)
Theorem backend_restart_orphans_the_file
  (r : Backend.RecorderState) (h : Host.t) (p : nat)
  (engine : Subprocess.process) (q : Backend.request) :
  Backend.recording r = false ->
  Backend.temp_audio_path r = Some p ->
  In p (Host.tmp_files h) ->
  (p < Host.next_tmp h)%nat ->
  q = Backend.PostStart \/ q = Backend.PostToggle engine ->
  let s := Backend.step (r, h) (Backend.Request q) in
  Backend.temp_audio_path (fst s) = None
  /\ fst (Backend.get_pending s) = Returns Backend.NotPending
  /\ forall inputs, In p (Host.tmp_files (snd (Backend.run s inputs))).
Proof.
  destruct r as [rec ad st tp lt ld], h as [dev live ns tmp nt dk dd mf].
  cbn [Backend.recording Backend.temp_audio_path Host.tmp_files
       Host.next_tmp].
  intros -> -> I L Q. cbv zeta.
  assert (O : Backend.orphan p
                (Backend.step
                   (Backend.mkState false ad st (Some p) lt ld,
                    Host.mkHost dev live ns tmp nt dk dd mf)
                   (Backend.Request q))
              /\ Backend.temp_audio_path
                   (fst (Backend.step
                           (Backend.mkState false ad st (Some p) lt ld,
                            Host.mkHost dev live ns tmp nt dk dd mf)
                           (Backend.Request q))) = None).
  { unfold Backend.orphan.
    destruct Q as [-> | ->]; destruct dev; cbn [Backend.step Backend.handle];
      backend_run; repeat split; try assumption; discriminate. }
  destruct O as [O T]. split; [exact T|]. split.
  - unfold Backend.get_pending, bind, Backend.self_. cbn [fst].
    destruct (Backend.last_transcript _); [|reflexivity].
    rewrite T. reflexivity.
  - intros inputs.
    destruct (orphan_run p inputs _ O) as (_ & I' & _). exact I'.
Qed.

(** A transcript is pending with the file 0; a new recording is started,
    stopped and cancelled: the file 0 is still there. *)
Lemma backend_restart_orphans_the_file_witness :
  let h := Host.mkHost true [] 0 [0%nat] 1 true [] None in
  let r := Backend.mkState false [[0%Z]] None (Some 0%nat)
             (Some (lit "hi")) (Some (1 # 16000)%Q) in
  let engine := Subprocess.mkProcess true (Some (1 # 1)%Q)
                  (Subprocess.mkCompleted 0 (lit "ho") []) in
  In 0%nat
    (Host.tmp_files
       (snd (Backend.run
               (Backend.step (r, h) (Backend.Request Backend.PostStart))
               [Backend.Audio [0%Z];
                Backend.Request (Backend.PostStop engine);
                Backend.Request Backend.PostCancel]))).
Proof.
  cbv zeta.
  pose proof (backend_restart_orphans_the_file
                (Backend.mkState false [[0%Z]] None (Some 0%nat)
                   (Some (lit "hi")) (Some (1 # 16000)%Q))
                (Host.mkHost true [] 0 [0%nat] 1 true [] None) 0%nat
                (Subprocess.mkProcess true (Some (1 # 1)%Q)
                   (Subprocess.mkCompleted 0 (lit "ho") []))
                Backend.PostStart eq_refl eq_refl (or_introl eq_refl)
                (Nat.lt_0_1) (or_introl eq_refl)) as H.
  cbv zeta in H. destruct H as (_ & _ & H). apply H.
Defined.

(* ================================================================== *)
(** * panokeet_v3.py: hotkeys as text *)
(* ================================================================== *)

Section HotkeyText.

Import Hotkeys PanokeetV3.

Lemma no_space_strip (s : str) :
  forallb (fun c => negb (isspace c)) s = true -> strip s = s.
Proof.
  assert (L : forall x : str,
             forallb (fun c => negb (isspace c)) x = true -> lstrip x = x).
  { intros [|c t]; simpl; [reflexivity|]. intros H.
    apply andb_true_iff in H. destruct H as [H _].
    apply negb_true_iff in H. rewrite H. reflexivity. }
  intros H. unfold strip, rstrip. rewrite (L s H).
  rewrite L by (rewrite forallb_rev; exact H). apply rev_involutive.
Qed.

Lemma numeral_chars (P : char -> bool) (s : str) :
  (forall c, numeral_char c = true -> P c = true) ->
  forallb numeral_char s = true -> forallb P s = true.
Proof.
  intros I H. rewrite forallb_forall in *. intros c J. apply I, H, J.
Qed.

Lemma numeral_bounds (c : char) : numeral_char c = true -> (45 <= c <= 57)%N.
Proof.
  unfold numeral_char. intros H. apply orb_true_iff in H.
  destruct H as [H|H].
  - apply andb_true_iff in H. destruct H as [A B].
    apply N.leb_le in A, B. lia.
  - apply N.eqb_eq in H. lia.
Qed.

Lemma lower_numeral (s : str) : forallb numeral_char s = true -> lower s = s.
Proof.
  induction s as [|c t IH]; intros H; [reflexivity|].
  cbn [forallb] in H. apply andb_true_iff in H. destruct H as [C H].
  cbn [lower map]. fold (lower t). rewrite (IH H). f_equal.
  apply numeral_bounds in C. unfold lower_char.
  replace (65 <=? c)%N with false by (symmetry; apply N.leb_gt; lia).
  reflexivity.
Qed.

Lemma lower_join (sep : str) (l : list str) :
  lower (join sep l) = join (lower sep) (map lower l).
Proof.
  induction l as [|x r IH]; [reflexivity|].
  cbn [join map]. destruct r as [|y r]; [reflexivity|].
  unfold lower in *. rewrite !map_app, IH. reflexivity.
Qed.

Lemma split_app_sep (sep : char) (x rest : str) :
  forallb (fun c => negb (char_eqb c sep)) x = true ->
  split sep (x ++ sep :: rest) = x :: split sep rest.
Proof.
  induction x as [|c x IH]; intros H.
  - cbn [app split]. unfold char_eqb. rewrite N.eqb_refl. reflexivity.
  - cbn [forallb] in H. apply andb_true_iff in H. destruct H as [C H].
    apply negb_true_iff in C. cbn [app split]. rewrite C, (IH H).
    reflexivity.
Qed.

Lemma split_join (sep : char) (l : list str) :
  l <> [] ->
  Forall (fun k => forallb (fun c => negb (char_eqb c sep)) k = true) l ->
  split sep (join [sep] l) = l.
Proof.
  intros N F. induction F as [|x r H F IH]; [congruence|].
  cbn [join]. destruct r as [|y r].
  - apply split_no_sep, H.
  - cbn [app]. rewrite (split_app_sep sep x _ H).
    rewrite IH by discriminate. reflexivity.
Qed.

Lemma str_of_Z_numeral (k : Z) : forallb numeral_char (str_of_Z k) = true.
Proof.
  unfold str_of_Z, str_of_N. destruct (k <? 0)%Z; cbn [forallb];
    rewrite uint_chars_numeral; reflexivity.
Qed.

Lemma parse_digits_str_of_N (n : N) : parse_digits (str_of_N n) = Some n.
Proof. exact (parse_digits_zfill 0 n). Qed.

(** [int] reads back what [str] wrote. *)
Lemma int_str_of_Z (k : Z) : int (str_of_Z k) = Returns k.
Proof.
  unfold int. rewrite (strip_numeral _ (str_of_Z_numeral k)).
  unfold str_of_Z. destruct (k <? 0)%Z eqn:S.
  - cbn [char_eqb N.eqb Pos.eqb]. rewrite parse_digits_str_of_N.
    apply Z.ltb_lt in S. cbn [option_map]. f_equal.
    rewrite Z2N.id by lia. lia.
  - apply Z.ltb_ge in S.
    pose proof (parse_digits_str_of_N (Z.to_N k)) as P.
    destruct (str_of_N (Z.to_N k)) as [|c t] eqn:E; [discriminate P|].
    assert (D : (48 <= c <= 57)%N).
    { unfold parse_digits in P.
      destruct (parse_uint (c :: t)) as [d|] eqn:U; [|discriminate P].
      apply parse_uint_digits in U. cbn [forallb] in U.
      apply andb_true_iff in U. destruct U as [U _].
      apply andb_true_iff in U. destruct U as [A B].
      apply N.leb_le in A, B. lia. }
    replace (char_eqb c 45%N) with false by (symmetry; apply N.eqb_neq; lia).
    replace (char_eqb c 43%N) with false by (symmetry; apply N.eqb_neq; lia).
    rewrite P. cbn [option_map]. f_equal. apply Z2N.id, S.
Qed.

Lemma contains_numeral (s : str) (names : list str) :
  forallb numeral_char s = true ->
  Forall (fun n => forallb numeral_char n = false) names ->
  contains s names = false.
Proof.
  intros H F. induction F as [|n r Hn F IH]; [reflexivity|].
  unfold contains in *. cbn [existsb]. rewrite IH, orb_false_r.
  destruct (str_eqb s n) eqn:E; [|reflexivity].
  apply str_eqb_eq in E. subst n. congruence.
Qed.

Lemma parse_known (keycode : option Z) (acc : list str) (names : list str) :
  Forall (fun n => In n [lit "cmd"; lit "shift"; lit "opt"; lit "ctrl"])
         names ->
  fold_left parse_part names (keycode, acc) = (keycode, acc ++ names).
Proof.
  intros F. revert acc. induction F as [|n r H F IH]; intros acc.
  - rewrite app_nil_r. reflexivity.
  - cbn [fold_left].
    assert (E : parse_part (keycode, acc) n = (keycode, acc ++ [n])).
    { destruct H as [<-|[<-|[<-|[<-|[]]]]]; reflexivity. }
    rewrite E, IH, <- app_assoc. reflexivity.
Qed.

Lemma parse_number (keycode : option Z) (acc : list str) (k : Z) :
  parse_part (keycode, acc) (str_of_Z k) = (Some k, acc).
Proof.
  unfold parse_part.
  rewrite (strip_numeral _ (str_of_Z_numeral k)).
  rewrite !(contains_numeral _ _ (str_of_Z_numeral k))
    by (repeat constructor).
  rewrite int_str_of_Z. reflexivity.
Qed.

(** What is displayed for a binding is read back as the binding. *)
Lemma parse_display (names display : list str) (k : Z) :
  map lower display = names ->
  Forall (fun n => In n [lit "cmd"; lit "shift"; lit "opt"; lit "ctrl"])
         names ->
  parse_hotkey (join (lit "+") (display ++ [str_of_Z k])) = (Some k, names).
Proof.
  intros D F. unfold parse_hotkey.
  rewrite lower_join, map_app, D. cbn [map].
  rewrite (lower_numeral _ (str_of_Z_numeral k)).
  change (lower (lit "+")) with [43%N].
  assert (K : Forall (fun n => forallb numeral_char n = false
                               /\ forallb (fun c => negb (isspace c)) n = true
                               /\ forallb (fun c => negb (char_eqb c 43%N)) n
                                  = true) names).
  { eapply Forall_impl; [|exact F].
    intros n [<-|[<-|[<-|[<-|[]]]]]; repeat split; reflexivity. }
  rewrite no_space_strip.
  - rewrite split_join.
    + rewrite fold_left_app, parse_known by exact F.
      cbn [fold_left app]. apply parse_number.
    + destruct names; discriminate.
    + apply Forall_app. split.
      * eapply Forall_impl; [|exact K]. intros n H. apply H.
      * constructor; [|constructor].
        apply numeral_chars; [|apply str_of_Z_numeral].
        intros c H. apply numeral_bounds in H.
        apply negb_true_iff, N.eqb_neq. lia.
  - apply forallb_join; [reflexivity|].
    apply Forall_app. split.
    + eapply Forall_impl; [|exact K]. intros n H. apply H.
    + constructor; [|constructor].
      apply numeral_chars; [|apply str_of_Z_numeral].
      intros c H. apply negb_true_iff, numeral_not_space, H.
Qed.

Lemma str_eqb_sym (a b : str) : str_eqb a b = str_eqb b a.
Proof.
  revert b. induction a as [|x a IH]; intros [|y b]; try reflexivity.
  cbn [str_eqb]. unfold char_eqb. rewrite N.eqb_sym, IH. reflexivity.
Qed.

Lemma requires_contains (l : list str) (m : modifier) :
  requires l m = contains (name m) l.
Proof.
  unfold requires, contains. induction l as [|x l IH]; [reflexivity|].
  cbn [existsb]. rewrite IH, str_eqb_sym. reflexivity.
Qed.

End HotkeyText.

(** X16.  The two functions of panokeet_v3.py that turn a hotkey into text
    and back agree: what [format_hotkey] displays for a key code and a list
    of modifiers is read by [parse_hotkey] as the same key code with the
    same modifiers, in the order cmd, shift, opt, ctrl and each once, and
    [check_modifiers] accepts the same events for the list read back as for
    the list displayed. *)
Theorem hotkey_text_round_trip (keycode : Z) (mods : list str) :
  Hotkeys.parse_hotkey (Hotkeys.format_hotkey keycode mods)
  = (Some keycode, Hotkeys.canonical mods)
  /\ forall flags,
       PanokeetV3.check_modifiers flags (Hotkeys.canonical mods)
       = PanokeetV3.check_modifiers flags mods.
Proof.
  split.
  - unfold Hotkeys.format_hotkey, Hotkeys.canonical. rewrite !app_assoc.
    apply parse_display.
    + destruct (contains (lit "cmd") mods), (contains (lit "shift") mods),
        (contains (lit "opt") mods), (contains (lit "ctrl") mods);
        reflexivity.
    + destruct (contains (lit "cmd") mods), (contains (lit "shift") mods),
        (contains (lit "opt") mods), (contains (lit "ctrl") mods);
        cbn [app];
        repeat (apply Forall_cons; [cbn [In]; auto 6|]); apply Forall_nil.
  - intros flags. rewrite !check_modifiers_all_pressed.
    unfold PanokeetV3.all_pressed, PanokeetV3.modifiers. cbn [forallb].
    rewrite !requires_contains. cbn [PanokeetV3.name].
    unfold Hotkeys.canonical.
    destruct (contains (lit "cmd") mods), (contains (lit "shift") mods),
      (contains (lit "opt") mods), (contains (lit "ctrl") mods);
      reflexivity.
Qed.

(* ================================================================== *)
(** * The controller of panokeet_v3.py *)
(* ================================================================== *)

Section PanokeetV3Facts.

Import PanokeetFinal.

Lemma v3_step_coherent (cfg : PanokeetV3.config) (w : world)
  (i : Hotkeys.input) :
  coherent w -> coherent (Hotkeys.step cfg w i).
Proof.
  intros H. destruct i as [event|event|indata|present]; cbn [Hotkeys.step].
  - unfold PanokeetV3.handle_key_down, after, bind, get.
    destruct (PanokeetV3.is_toggle cfg event).
    + destruct (recording w);
        [apply (final_stop_coherent w H) | apply (final_start_coherent w H)].
    + destruct (PanokeetV3.is_hold cfg event); [|exact H].
      destruct (negb (hold_active w)); [|exact H].
      apply (final_start_coherent _ (final_hold_coherent true w H)).
  - unfold PanokeetV3.handle_key_up, after, bind, get.
    destruct ((PanokeetV3.keyCode event =? PanokeetV3.hold_key cfg)%Z
              && hold_active w); [|exact H].
    apply (final_stop_coherent _ (final_hold_coherent false w H)).
  - apply (final_step_coherent w (Audio indata) H).
  - apply (final_step_coherent w (Device present) H).
Qed.

Lemma v3_run_coherent (cfg : PanokeetV3.config) (inputs : list Hotkeys.input)
  (w : world) :
  coherent w -> coherent (Hotkeys.run cfg w inputs).
Proof.
  revert w. induction inputs as [|i r IH]; intros w H; [exact H|].
  apply IH, v3_step_coherent, H.
Qed.

End PanokeetV3Facts.

(** X17.  panokeet_v3.py, with any configured keys and modifiers, keeps at
    most one input stream through any sequence of key-down and key-up
    events, audio blocks and changes of the microphone: the live streams
    are the one in [self.stream], there is none when it is not recording,
    and a second start while it records returns at once. *)
Theorem v3_single_stream
  (cfg : PanokeetV3.config) (h : Host.t) (inputs : list Hotkeys.input) :
  Host.live h = [] ->
  let w := Hotkeys.run cfg (PanokeetFinal.init h) inputs in
  Host.live (PanokeetFinal.host w) = App.held (PanokeetFinal.stream w)
  /\ (length (Host.live (PanokeetFinal.host w)) <= 1)%nat
  /\ (PanokeetFinal.recording w = false -> Host.live (PanokeetFinal.host w) = [])
  /\ (PanokeetFinal.recording w = true ->
      forall event,
        PanokeetV3.is_toggle cfg event = false ->
        Hotkeys.step cfg w (Hotkeys.KeyDown event)
        = PanokeetFinal.mkWorld true (PanokeetFinal.audio_data w)
            (PanokeetFinal.stream w)
            (PanokeetFinal.hold_active w || PanokeetV3.is_hold cfg event)
            (PanokeetFinal.threads w) (PanokeetFinal.host w)).
Proof.
  intros L. cbv zeta.
  assert (C : PanokeetFinal.coherent (PanokeetFinal.init h)).
  { unfold PanokeetFinal.coherent. simpl. auto. }
  pose proof (v3_run_coherent cfg inputs _ C) as (A & B).
  split; [exact A|]. split; [rewrite A; apply held_at_most_one|]. split.
  - intros R. rewrite A, (B R). reflexivity.
  - intros R event T. cbn [Hotkeys.step].
    unfold PanokeetV3.handle_key_down, after, bind, get. rewrite T.
    destruct (Hotkeys.run cfg (PanokeetFinal.init h) inputs)
      as [rr ra rs ha th ho].
    cbn [PanokeetFinal.recording PanokeetFinal.hold_active
         PanokeetFinal.audio_data PanokeetFinal.stream PanokeetFinal.threads
         PanokeetFinal.host] in *.
    subst rr.
    destruct (PanokeetV3.is_hold cfg event), ha; reflexivity.
Qed.

(** The default keys: a toggle press, then the hold key pressed with the
    three modifiers while the recording runs. *)
Lemma v3_single_stream_witness :
  let h := Host.mkHost true [] 0 [] 0 true [] None in
  let flags := Z.lor PanokeetV3.NSCommandKeyMask
                 (Z.lor PanokeetV3.NSAlternateKeyMask
                    PanokeetV3.NSControlKeyMask) in
  let w := Hotkeys.run PanokeetV3.default (PanokeetFinal.init h)
             [Hotkeys.KeyDown (PanokeetV3.mkEvent 89 flags);
              Hotkeys.KeyDown (PanokeetV3.mkEvent 91 flags)] in
  (length (Host.live (PanokeetFinal.host w)) <= 1)%nat.
Proof.
  cbv zeta.
  pose proof (v3_single_stream PanokeetV3.default
                (Host.mkHost true [] 0 [] 0 true [] None)
                [Hotkeys.KeyDown
                   (PanokeetV3.mkEvent 89
                      (Z.lor PanokeetV3.NSCommandKeyMask
                         (Z.lor PanokeetV3.NSAlternateKeyMask
                            PanokeetV3.NSControlKeyMask)));
                 Hotkeys.KeyDown
                   (PanokeetV3.mkEvent 91
                      (Z.lor PanokeetV3.NSCommandKeyMask
                         (Z.lor PanokeetV3.NSAlternateKeyMask
                            PanokeetV3.NSControlKeyMask)))]
                eq_refl) as H.
  cbv zeta in H. destruct H as (_ & H & _). exact H.
Defined.

(* ================================================================== *)
(** * dictate.py *)
(* ================================================================== *)



Ltac dictate_run :=
  cbv [Dictate._stop_and_save Dictate._start_recording
       Dictate.set_is_recording Dictate.set_status Dictate.set_cmd_pressed
       Dictate.set_numpad8_held Dictate.on_recorder Dictate.on_host
       Recorder.start Recorder.stop Recorder._callback Recorder.self_
       Recorder.set_self Recorder.host
       after bind get ret modify call raise zoom
       Host.close_stream Host.new_tmp Host.set_live Host.unlink Host.remove_tmp
       Host.set_tmp_files Host.open_stream Host.move Host.write_file
       Host.set_data_dir
       fst snd negb
       Dictate.recorder Dictate.is_recording Dictate.cmd_pressed
       Dictate.numpad8_held Dictate.status Dictate.quit Dictate.host
       Recorder.recording Recorder.audio_data Recorder.stream
       Host.device Host.live Host.next_stream Host.tmp_files Host.next_tmp
       Host.disk_ok Host.data_dir Host.manifest].

(** X19.  [_stop_and_save] of dictate.py on a recording that holds audio.
    With a text from the engine and a number for it, the audio and the text
    are in the training folder afterwards and the temporary file is gone;
    with an empty text the temporary file is deleted and nothing is
    written; either way the status ends ["ready"].  When the engine cannot
    be started or the numbering fails, the exception leaves the method with
    the status still ["transcribing"] and the temporary file still there. *)
Theorem dictate_stop_and_save
  (w : Dictate.world) (engine : Subprocess.process)
  (b : Recorder.block) (bs : list Recorder.block) (id : nat) :
  Dictate.is_recording w = true ->
  Recorder.audio_data (Dictate.recorder w) = b :: bs ->
  Recorder.stream (Dictate.recorder w) = Some id ->
  let r := Dictate._stop_and_save engine w in
  let w' := snd r in
  let tmp := Host.next_tmp (Dictate.host w) in
  Dictate.is_recording w' = false
  /\ ~ In id (Host.live (Dictate.host w'))
  /\ (forall text num,
        Dictate.transcribe engine = Returns text -> truthy text = true ->
        App.next_number (Host.data_dir (Dictate.host w)) = Returns num ->
        Host.disk_ok (Dictate.host w) = true ->
        fst r = Returns tt
        /\ Dictate.status w' = Dictate.Ready
        /\ ~ In tmp (Host.tmp_files (Dictate.host w'))
        /\ In (DataDir.audio_name num (lit ".wav"))
              (Host.data_dir (Dictate.host w'))
        /\ In (DataDir.audio_name num (lit ".txt"))
              (Host.data_dir (Dictate.host w')))
  /\ (forall text,
        Dictate.transcribe engine = Returns text -> truthy text = false ->
        fst r = Returns tt
        /\ Dictate.status w' = Dictate.Ready
        /\ ~ In tmp (Host.tmp_files (Dictate.host w'))
        /\ Host.data_dir (Dictate.host w') = Host.data_dir (Dictate.host w))
  /\ (forall e,
        Dictate.transcribe engine = Raises e
        \/ (exists text, Dictate.transcribe engine = Returns text
                         /\ truthy text = true
                         /\ App.next_number (Host.data_dir (Dictate.host w))
                            = Raises e) ->
        fst r = Raises e
        /\ Dictate.status w' = Dictate.Transcribing
        /\ In tmp (Host.tmp_files (Dictate.host w'))
        /\ Host.data_dir (Dictate.host w') = Host.data_dir (Dictate.host w)).
Proof.
  destruct w as [[rr ra rs] ir cp nh st qu [dev live ns tmp nt dk dd mf]].
  cbn [Dictate.is_recording Dictate.recorder Recorder.audio_data
       Recorder.stream].
  intros -> -> ->. cbv zeta.
  cbn [Dictate.host Host.next_tmp Host.data_dir Host.disk_ok].
  unfold Dictate._stop_and_save.
  generalize (Dictate.transcribe engine). intros o.
  assert (F : ~ In id (filter (fun x => negb (Nat.eqb x id)) live)).
  { intros I. apply filter_In in I. destruct I as [_ I].
    rewrite Nat.eqb_refl in I. discriminate I. }
  assert (G : ~ In nt (filter (fun x => negb (Nat.eqb x nt)) (nt :: tmp))).
  { intros I. apply filter_In in I. destruct I as [_ I].
    rewrite Nat.eqb_refl in I. discriminate I. }
  destruct o as [text|e|]; dictate_run;
    [destruct (truthy text) eqn:T; dictate_run;
     [destruct (App.next_number dd) as [num|e|] eqn:N; dictate_run;
      cbn [existsb]; rewrite ?Nat.eqb_refl; cbn [orb negb];
      destruct dk; dictate_run
     |cbn [existsb]; rewrite ?Nat.eqb_refl; cbn [orb negb]; dictate_run]
    |..];
    (split; [reflexivity|]); (split; [exact F|]);
    repeat match goal with |- _ /\ _ => split end; intros;
    repeat match goal with
           | H : _ \/ _ |- _ => destruct H
           | H : exists _, _ |- _ => destruct H
           | H : _ /\ _ |- _ => destruct H
           | H : Returns _ = Returns _ |- _ => injection H as H; subst
           | H : Raises _ = Raises _ |- _ => injection H as H; subst
           end;
    try discriminate; try congruence;
    repeat match goal with |- _ /\ _ => split end;
    try reflexivity; try exact G;
    try (rewrite !in_add_name; tauto);
    try (left; reflexivity).
Qed.

(** One block recorded and transcribed as "hi" into an empty folder. *)
Lemma dictate_stop_and_save_witness :
  let h := Host.mkHost true [7%nat] 8 [] 0 true [] None in
  let w := Dictate.mkWorld (Recorder.mkRecorder true [[0%Z]] (Some 7%nat))
             true true false Dictate.Recording false h in
  let engine := Subprocess.mkProcess true (Some (1 # 1)%Q)
                  (Subprocess.mkCompleted 0 (lit "hi") []) in
  let w' := snd (Dictate._stop_and_save engine w) in
  Dictate.status w' = Dictate.Ready
  /\ In (DataDir.audio_name 1 (lit ".wav")) (Host.data_dir (Dictate.host w')).
Proof.
  cbv zeta.
  pose proof (dictate_stop_and_save
                (Dictate.mkWorld
                   (Recorder.mkRecorder true [[0%Z]] (Some 7%nat))
                   true true false Dictate.Recording false
                   (Host.mkHost true [7%nat] 8 [] 0 true [] None))
                (Subprocess.mkProcess true (Some (1 # 1)%Q)
                   (Subprocess.mkCompleted 0 (lit "hi") []))
                [0%Z] [] 7%nat eq_refl eq_refl eq_refl) as H.
  cbv zeta in H. destruct H as (_ & _ & H & _).
  destruct (H (lit "hi") 1%Z eq_refl eq_refl eq_refl eq_refl)
    as (_ & S & _ & I & _).
  split; [exact S | exact I].
Defined.

(* ================================================================== *)
(** * The thread of panokeet_final.py and panokeet_v3.py *)
(* ================================================================== *)

Ltac process_run :=
  cbv [ProcessAudio._process_audio PanokeetFinal.on_host
       after bind get ret modify call raise zoom
       Host.new_tmp Host.unlink Host.remove_tmp Host.set_tmp_files Host.move
       Host.write_file Host.set_data_dir
       fst snd negb
       PanokeetFinal.recording PanokeetFinal.audio_data PanokeetFinal.stream
       PanokeetFinal.hold_active PanokeetFinal.threads PanokeetFinal.host
       Host.device Host.live Host.next_stream Host.tmp_files Host.next_tmp
       Host.disk_ok Host.data_dir Host.manifest].

(** X20.  [_process_audio] of panokeet_final.py and panokeet_v3.py does not
    look at the engine's return code: whenever the engine ends and its
    output holds text, the recording and the text are saved under the next
    number, also when the engine reported a failure, for which
    [transcribe] of transcriber.py gives the empty text; with no text in
    the output the temporary file is deleted and nothing is written.  The
    thread leaves the recording state and the streams alone. *)
Theorem process_audio_ignores_the_return_code
  (w : PanokeetFinal.world) (engine : Subprocess.process)
  (result : Subprocess.CompletedProcess)
  (b : Recorder.block) (bs : list Recorder.block) :
  PanokeetFinal.audio_data w = b :: bs ->
  Subprocess.run None engine = Returns result ->
  let text := Transcriber.clean (Subprocess.stdout result) in
  let r := ProcessAudio._process_audio engine w in
  let w' := snd r in
  let tmp := Host.next_tmp (PanokeetFinal.host w) in
  (forall num,
     truthy text = true ->
     ProcessAudio.next_number (Host.data_dir (PanokeetFinal.host w))
     = Returns num ->
     Host.disk_ok (PanokeetFinal.host w) = true ->
     fst r = Returns tt
     /\ ~ In tmp (Host.tmp_files (PanokeetFinal.host w'))
     /\ In (DataDir.audio_name num (lit ".wav"))
           (Host.data_dir (PanokeetFinal.host w'))
     /\ In (DataDir.audio_name num (lit ".txt"))
           (Host.data_dir (PanokeetFinal.host w')))
  /\ (truthy text = false ->
      fst r = Returns tt
      /\ ~ In tmp (Host.tmp_files (PanokeetFinal.host w'))
      /\ Host.data_dir (PanokeetFinal.host w')
         = Host.data_dir (PanokeetFinal.host w))
  /\ ((Subprocess.returncode result =? 0)%Z = false ->
      Transcriber.transcribe true engine = Returns [])
  /\ PanokeetFinal.recording w' = PanokeetFinal.recording w
  /\ PanokeetFinal.stream w' = PanokeetFinal.stream w
  /\ Host.live (PanokeetFinal.host w') = Host.live (PanokeetFinal.host w).
Proof.
  destruct w as [rr ra rs ha th [dev live ns tmp nt dk dd mf]].
  cbn [PanokeetFinal.audio_data]. intros -> R. cbv zeta.
  cbn [PanokeetFinal.host Host.next_tmp Host.data_dir Host.disk_ok].
  assert (G : ~ In nt (filter (fun x => negb (Nat.eqb x nt)) (nt :: tmp))).
  { intros I. apply filter_In in I. destruct I as [_ I].
    rewrite Nat.eqb_refl in I. discriminate I. }
  assert (X : (Subprocess.returncode result =? 0)%Z = false ->
              Transcriber.transcribe true engine = Returns []).
  { intros C. unfold Transcriber.transcribe. rewrite R, C. reflexivity. }
  unfold ProcessAudio._process_audio. rewrite R.
  process_run.
  generalize (Transcriber.clean (Subprocess.stdout result)). intros text.
  destruct (truthy text); process_run;
    [destruct (ProcessAudio.next_number dd) as [num|e|]; process_run;
     cbn [existsb]; rewrite ?Nat.eqb_refl; cbn [orb negb];
     destruct dk; process_run
    |cbn [existsb]; rewrite ?Nat.eqb_refl; cbn [orb negb]; process_run];
    repeat match goal with |- _ /\ _ => split end; intros;
    repeat match goal with
           | H : Returns _ = Returns _ |- _ => injection H as H; subst
           end;
    try discriminate; try congruence;
    repeat match goal with |- _ /\ _ => split end;
    try reflexivity; try exact G; try (apply X; assumption);
    try (rewrite !in_add_name; tauto).
Qed.

(** The engine exits with code 1 after writing "hi". *)
Lemma process_audio_ignores_the_return_code_witness :
  let h := Host.mkHost true [] 1 [] 0 true [] None in
  let w := PanokeetFinal.mkWorld false [[0%Z]] None false 1 h in
  let engine := Subprocess.mkProcess true (Some (1 # 1)%Q)
                  (Subprocess.mkCompleted 1 (lit "hi") []) in
  let w' := snd (ProcessAudio._process_audio engine w) in
  In (DataDir.audio_name 1 (lit ".wav")) (Host.data_dir (PanokeetFinal.host w'))
  /\ Transcriber.transcribe true engine = Returns [].
Proof.
  cbv zeta.
  pose proof (process_audio_ignores_the_return_code
                (PanokeetFinal.mkWorld false [[0%Z]] None false 1
                   (Host.mkHost true [] 1 [] 0 true [] None))
                (Subprocess.mkProcess true (Some (1 # 1)%Q)
                   (Subprocess.mkCompleted 1 (lit "hi") []))
                (Subprocess.mkCompleted 1 (lit "hi") [])
                [0%Z] [] eq_refl eq_refl) as H.
  cbv zeta in H. destruct H as (S & _ & X & _).
  destruct (S 1%Z eq_refl eq_refl eq_refl) as (_ & _ & I & _).
  split; [exact I | exact (X eq_refl)].
Defined.
